(** * Task Manager: the Task entity and the DatabaseService store

    A shallow embedding of [src/backend/models/Task.ts] (class [Task]) and
    [src/backend/services/DatabaseService.ts] (class [DatabaseService]),
    with the properties of the specification stated over it.  Every
    definition carries the name of the method, statement or expression
    of the source it stands for.  The handlers of [createTaskRoutes],
    which call the store, the retry helper and the request bodies of
    [TaskClient], and the overdue mark of [UIController] are embedded
    after them.

    Conventions of the embedding.
    - A JavaScript string is the list of its UTF-16 code units, so that
      [length] is [String.prototype.length].
    - A [Date] is its time value, the number of milliseconds since the
      epoch.  The specification speaks of timestamps; the NaN time value
      ("Invalid Date") is outside the model.
    - [new Date()] reads the system clock.  Every function that reads it
      takes the reading as an argument [now]; a function that reads it
      several times takes one reading per read.
    - A thrown exception and a rejected promise are both [Err e]; a
      normal return and a resolved promise are [Ok v].  A method that
      mutates [this] returns the outcome together with the state of
      [this] after the call.
    - The [tasks] table of SQLite is the list of its rows in insertion
      order.  SQLite holds TEXT as UTF-8, and the driver binds a string
      parameter by its UTF-8 encoding: a string in which every
      surrogate has its partner ([isWellFormed]) is stored, compared
      and read back as it is, and a TEXT cell is kept as that string.
      An unpaired surrogate would be bound as U+FFFD; the properties
      that bind a string of the caller are stated for well-formed
      strings, and a table is one whose cells are well-formed
      ([Row_text]). *)

From stdpp Require Import prelude gmap strings sorting.

(** ** JavaScript strings *)

Module JS.

Definition char16 := N.
Definition jsstring := list char16.

(** A literal of the development, one code unit per ASCII character. *)
Definition js (s : string) : jsstring :=
  map Ascii.N_of_ascii (String.list_ascii_of_string s).

(** WhiteSpace and LineTerminator code points of ECMAScript, the ones
    [String.prototype.trim] strips: TAB, LF, VT, FF, CR, SP, NBSP,
    U+1680, U+2000..U+200A, LS, PS, U+202F, U+205F, U+3000, U+FEFF. *)
Definition isWhiteSpace (c : char16) : bool :=
  ((9 <=? c) && (c <=? 13) || (c =? 32) || (c =? 160) || (c =? 5760)
   || (8192 <=? c) && (c <=? 8202) || (c =? 8232) || (c =? 8233)
   || (c =? 8239) || (c =? 8287) || (c =? 12288) || (c =? 65279))%N.

Fixpoint trimStart (s : jsstring) : jsstring :=
  match s with
  | c :: s' => if isWhiteSpace c then trimStart s' else s
  | [] => []
  end.

Definition trimEnd (s : jsstring) : jsstring := rev (trimStart (rev s)).

Definition trim (s : jsstring) : jsstring := trimEnd (trimStart s).

(** [!s] for a string: only the empty string is falsy. *)
Definition falsy (s : jsstring) : bool :=
  match s with [] => true | _ => false end.

(** Empty or made of white space only. *)
Definition blank (s : jsstring) : bool := forallb isWhiteSpace s.

(** Comparison of two TEXT values under SQLite's BINARY collation
    (memcmp, then the shorter first); on ASCII text the bytes are the
    code units. *)
Fixpoint text_compare (a b : jsstring) : comparison :=
  match a, b with
  | [], [] => Eq
  | [], _ :: _ => Lt
  | _ :: _, [] => Gt
  | x :: a', y :: b' =>
      match N.compare x y with
      | Eq => text_compare a' b'
      | c => c
      end
  end.

Definition text_leb (a b : jsstring) : bool :=
  match text_compare a b with Gt => false | _ => true end.

(** The surrogate code units, U+D800..U+DBFF and U+DC00..U+DFFF, and
    [String.prototype.isWellFormed]: every high surrogate is followed
    by a low one, and no low surrogate stands alone. *)
Definition isHighSurrogate (c : char16) : bool :=
  ((55296 <=? c) && (c <=? 56319))%N.

Definition isLowSurrogate (c : char16) : bool :=
  ((56320 <=? c) && (c <=? 57343))%N.

Fixpoint isWellFormed (s : jsstring) : bool :=
  match s with
  | [] => true
  | c :: s' =>
      if isHighSurrogate c then
        match s' with
        | d :: s'' => isLowSurrogate d && isWellFormed s''
        | [] => false
        end
      else negb (isLowSurrogate c) && isWellFormed s'
  end.

End JS.

Export JS.

(** ** Dates and their ISO 8601 text *)

(** A Date is its time value, in milliseconds since the epoch. *)
Abbreviation Date := Z (only parsing).

Module ISO.
Local Open Scope Z_scope.

Definition msPerDay : Z := 86400000.

(** Year and day of the year, counted from 1 March, of the day number
    [doe] within a 400-year era of 146097 days: centuries of 36524
    days (the fourth one day longer), four-year cycles of 1461 days,
    years of 365 days (the fourth one day longer). *)
Definition year_of_era (doe : Z) : Z :=
  let c := Z.min (doe / 36524) 3 in
  let doc := doe - c * 36524 in
  let q := doc / 1461 in
  let doq := doc mod 1461 in
  let a := Z.min (doq / 365) 3 in
  100 * c + 4 * q + a.

Definition day_of_year (doe : Z) : Z :=
  let c := Z.min (doe / 36524) 3 in
  let doc := doe - c * 36524 in
  let doq := doc mod 1461 in
  let a := Z.min (doq / 365) 3 in
  doq - a * 365.

(** Month (1..12) and day of the month (1..31) of the day [doy] of a
    year that starts on 1 March. *)
Definition month_of (doy : Z) : Z :=
  let mp := (5 * doy + 2) / 153 in
  if mp <? 10 then mp + 3 else mp - 9.

Definition date_of (doy : Z) : Z :=
  let mp := (5 * doy + 2) / 153 in
  doy - (153 * mp + 2) / 5 + 1.

(** The proleptic Gregorian date of day number [z] (days since
    1970-01-01), as ECMAScript's YearFromTime, MonthFromTime + 1 and
    DateFromTime give it. *)
Definition civil_from_days (z : Z) : Z * Z * Z :=
  let z := z + 719468 in
  let era := z / 146097 in
  let doe := z mod 146097 in
  let doy := day_of_year doe in
  let m := month_of doy in
  let y := 400 * era + year_of_era doe + (if m <=? 2 then 1 else 0) in
  (y, m, date_of doy).

Definition digit (n : Z) : char16 := Z.to_N (48 + n).

(** The [k] low decimal digits of [n], most significant first. *)
Fixpoint digits (k : nat) (n : Z) : jsstring :=
  match k with
  | O => []
  | S k' => digits k' (n / 10) ++ [digit (n mod 10)]
  end.

(** Four digits for the years 0000..9999, a sign and six digits for
    the others. *)
Definition year_text (y : Z) : jsstring :=
  if (0 <=? y) && (y <=? 9999) then digits 4 y
  else (if y <? 0 then js "-" else js "+") ++ digits 6 (Z.abs y).

(** [Date.prototype.toISOString]: YYYY-MM-DDTHH:mm:ss.sssZ. *)
Definition toISOString (t : Date) : jsstring :=
  let '(y, m, d) := civil_from_days (t / msPerDay) in
  let r := t mod msPerDay in
  year_text y ++ js "-" ++ digits 2 m ++ js "-" ++ digits 2 d ++ js "T"
    ++ digits 2 (r / 3600000) ++ js ":" ++ digits 2 (r / 60000 mod 60)
    ++ js ":" ++ digits 2 (r / 1000 mod 60) ++ js "."
    ++ digits 3 (r mod 1000) ++ js "Z".

(** The day number of a date, the inverse of [civil_from_days]. *)
Definition days_from_civil (y m d : Z) : Z :=
  let y := y - (if m <=? 2 then 1 else 0) in
  let era := y / 400 in
  let yoe := y mod 400 in
  let mp := if 2 <? m then m - 3 else m + 9 in
  let doy := (153 * mp + 2) / 5 + d - 1 in
  let doe := yoe * 365 + yoe / 4 - yoe / 100 + doy in
  era * 146097 + doe - 719468.

Definition digit_value (c : char16) : option Z :=
  if ((48 <=? c) && (c <=? 57))%N then Some (Z.of_N c - 48) else None.

(** Reads [k] decimal digits: the number they continue [acc] to, and
    the rest of the text. *)
Fixpoint read_digits (k : nat) (acc : Z) (s : jsstring) : option (Z * jsstring) :=
  match k, s with
  | O, _ => Some (acc, s)
  | S k', c :: s' => d ← digit_value c; read_digits k' (10 * acc + d) s'
  | S _, [] => None
  end.

(** Reads the literal [lit]. *)
Fixpoint expect (lit s : jsstring) : option jsstring :=
  match lit, s with
  | [], _ => Some s
  | c :: lit', x :: s' => if (x =? c)%N then expect lit' s' else None
  | _ :: _, [] => None
  end.

(** Reads a year: a plus or minus sign and six digits, or four
    digits.  The year 0 is not written with a minus sign. *)
Definition read_year (s : jsstring) : option (Z * jsstring) :=
  match s with
  | c :: s' =>
      if (c =? 43)%N then read_digits 6 0 s'
      else if (c =? 45)%N then
        '(y, rest) ← read_digits 6 0 s';
        if y =? 0 then None else Some (- y, rest)
      else read_digits 4 0 s
  | [] => None
  end.

(** The fields a date-time text may hold: a month from 1 to 12, a day
    from 1 to 31 (in every month: the engine of Node counts a day the
    month does not have on into the next month), an hour up to 23, or
    24:00:00.000 for the end of the day. *)
Definition valid_date (m d : Z) : bool :=
  (1 <=? m) && (m <=? 12) && (1 <=? d) && (d <=? 31).

Definition valid_time (hour minute second ms : Z) : bool :=
  (hour <=? 23) && (minute <=? 59) && (second <=? 59)
  || (hour =? 24) && (minute =? 0) && (second =? 0) && (ms =? 0).

(** TimeClip: an instant outside the range of Date is the Invalid
    Date. *)
Definition TimeClip (t : Z) : option Date :=
  if Z.abs t <=? 8640000000000000 then Some t else None.

(** The full form YYYY-MM-DDTHH:mm:ss.sssZ, the one [toISOString]
    writes. *)
Definition parse_date_time (s : jsstring) : option Date :=
  '(y, s) ← read_year s;
  s ← expect (js "-") s;
  '(m, s) ← read_digits 2 0 s;
  s ← expect (js "-") s;
  '(d, s) ← read_digits 2 0 s;
  s ← expect (js "T") s;
  '(hour, s) ← read_digits 2 0 s;
  s ← expect (js ":") s;
  '(minute, s) ← read_digits 2 0 s;
  s ← expect (js ":") s;
  '(second, s) ← read_digits 2 0 s;
  s ← expect (js ".") s;
  '(ms, s) ← read_digits 3 0 s;
  s ← expect (js "Z") s;
  match s with
  | [] =>
      if valid_date m d && valid_time hour minute second ms then
        TimeClip (days_from_civil y m d * msPerDay
                  + ((hour * 60 + minute) * 60 + second) * 1000 + ms)
      else None
  | _ :: _ => None
  end.

(** The date-only forms YYYY, YYYY-MM and YYYY-MM-DD, which are read
    as UTC. *)
Definition parse_date (s : jsstring) : option Date :=
  '(y, s) ← read_year s;
  '(m, s) ← match s with
            | [] => Some (1, [])
            | _ :: _ => s ← expect (js "-") s; read_digits 2 0 s
            end;
  '(d, s) ← match s with
            | [] => Some (1, [])
            | _ :: _ => s ← expect (js "-") s; read_digits 2 0 s
            end;
  match s with
  | [] =>
      if valid_date m d then TimeClip (days_from_civil y m d * msPerDay)
      else None
  | _ :: _ => None
  end.

(** [Date.parse] on the full form and on the date-only forms of the
    date-time string format of ECMAScript.  The other texts an engine
    reads (a shorter time part, an offset, a local time, its own
    formats) are not read here: the properties below give it texts of
    [toISOString] only, and the routes are stated for every
    function in its place. *)
Definition Date_parse (s : jsstring) : option Date :=
  match parse_date_time s with
  | Some t => Some t
  | None => parse_date s
  end.

(** The time values of Date objects: 100 000 000 days on either side of
    the epoch. *)
Definition time_value (t : Date) : Prop :=
  -8640000000000000 <= t <= 8640000000000000.

(** A TEXT cell written with [toISOString].  The service is the only
    writer of the table, and reading the text of a Date back gives the
    Date ([Date_parse_toISOString] below, which ECMAScript guarantees
    of [Date.parse]), so the cell is kept as the instant it denotes:
    [stamp d] is the cell [d.toISOString()] fills, [parse c] the Date
    [new Date(c)] makes, and [text c] the characters, which SQLite
    compares. *)
Record cell := stamp { parse : Date }.

Definition text (c : cell) : jsstring := toISOString (parse c).

(** Lexicographic composition of two comparisons. *)
Definition lex (c1 c2 : comparison) : comparison :=
  match c1 with Eq => c2 | _ => c1 end.

(** The calendar date of a day of the year, and of a day number, read
    as one decimal number: (year offset) MM DD and YYYY MM DD. *)
Definition day_key (doy : Z) : Z :=
  ((if month_of doy <=? 2 then 1 else 0) * 100 + month_of doy) * 100
  + date_of doy.

Definition date_key (z : Z) : Z :=
  let '(y, m, d) := civil_from_days z in (y * 100 + m) * 100 + d.

(** The instants whose text has a four-digit year:
    0000-01-01T00:00:00.000Z .. 9999-12-31T23:59:59.999Z. *)
Definition four_digit_year (t : Date) : Prop :=
  -62167219200000 <= t <= 253402300799999.

End ISO.

(** ** Errors and results *)

(** Errors SQLite reports through the callback of [db.run]. *)
Inductive SqliteError :=
  | UniqueConstraintFailed.
      (* SQLITE_CONSTRAINT: UNIQUE constraint failed: tasks.id *)

(** The [Error] values the two classes throw or reject with, one
    constructor per message. *)
Inductive Error :=
  | EmptyTitle          (* Task title cannot be empty *)
  | TitleTooLong        (* Task title cannot exceed 255 characters *)
  | EmptyId             (* Task ID cannot be empty *)
  | PastDueDate         (* Due date cannot be in the past *)
  | NotInitialized      (* Database not initialized *)
  | NotFound (id : jsstring)            (* Task with id ${id} not found *)
  | FailedToAddTask (err : SqliteError) (* Failed to add task: ${err.message} *)
  | FailedToParseTask (error : Error)   (* Failed to parse task: ${error} *)
  | FailedToParseTasks (error : Error). (* Failed to parse tasks: ${error} *)

(** The specification's name for the failure of [add] on a taken id. *)
Definition DuplicateId : Error := FailedToAddTask UniqueConstraintFailed.

Inductive Result (A : Type) :=
  | Ok (value : A)
  | Err (error : Error).

Arguments Ok {A} value.
Arguments Err {A} error.

#[global] Instance Result_ret : MRet Result := @Ok.

#[global] Instance Result_bind : MBind Result := fun A B f r =>
  match r with
  | Ok a => f a
  | Err e => Err e
  end.

(** ** The Task entity ([class Task]) *)

Module Task.

(** The fields of a Task object. *)
Record t := mk {
  id : jsstring;
  title : jsstring;
  description : jsstring;
  completed : bool;
  createdAt : Date;
  dueDate : option Date
}.

Definition validateTitle (title : jsstring) : Result unit :=
  if falsy title || (length (trim title) =? 0) then Err EmptyTitle
  else if 255 <? length title then Err TitleTooLong
  else Ok ().

Definition validateId (id : jsstring) : Result unit :=
  if falsy id || (length (trim id) =? 0) then Err EmptyId
  else Ok ().

(** [dueDate && dueDate < new Date()]: the clock is compared with a
    date that is not null, strictly. *)
Definition validateDueDate (now : Date) (dueDate : option Date) : Result unit :=
  match dueDate with
  | Some d => if (d <? now)%Z then Err PastDueDate else Ok ()
  | None => Ok ()
  end.

(** The constructor, all six arguments given. *)
Definition new (now : Date) (id title description : jsstring) (completed : bool)
    (dueDate : option Date) (createdAt : Date) : Result t :=
  _ ← validateTitle title;
  _ ← validateId id;
  _ ← validateDueDate now dueDate;
  Ok (mk id title description completed createdAt dueDate).

(** The constructor with its default arguments: [description = ""],
    [completed = false], [dueDate = null], and [createdAt = new Date()],
    read from the clock when the call starts. *)
Definition new_default (created now : Date) (id title : jsstring) : Result t :=
  new now id title [] false None created.

Definition complete (this : t) : t :=
  mk (id this) (title this) (description this) true (createdAt this) (dueDate this).

Definition reopen (this : t) : t :=
  mk (id this) (title this) (description this) false (createdAt this) (dueDate this).

Definition updateTitle (title : jsstring) (this : t) : Result unit * t :=
  match validateTitle title with
  | Err e => (Err e, this)
  | Ok _ =>
      (Ok (), mk (id this) title (description this) (completed this)
                 (createdAt this) (dueDate this))
  end.

Definition updateDescription (description : jsstring) (this : t) : t :=
  mk (id this) (title this) description (completed this) (createdAt this)
     (dueDate this).

Definition setDueDate (now : Date) (date : option Date) (this : t) : Result unit * t :=
  match validateDueDate now date with
  | Err e => (Err e, this)
  | Ok _ =>
      (Ok (), mk (id this) (title this) (description this) (completed this)
                 (createdAt this) date)
  end.

Definition isOverdue (now : Date) (this : t) : bool :=
  match dueDate this with
  | None => false
  | Some d => if completed this then false else (d <? now)%Z
  end.

(** What the constructor checks of the fields that do not depend on
    the clock: the title and the id pass their validation. *)
Definition valid (this : t) : Prop :=
  validateTitle (title this) = Ok () /\ validateId (id this) = Ok ().

(** The three strings of the task are well-formed, so that SQLite
    stores them as they are. *)
Definition storable (this : t) : Prop :=
  isWellFormed (id this) = true /\ isWellFormed (title this) = true /\
  isWellFormed (description this) = true.

End Task.

(** ** The store ([class DatabaseService]) *)

(** A row of the table [tasks]: [id TEXT PRIMARY KEY], [title TEXT],
    [description TEXT], [completed BOOLEAN] (an integer), [createdAt TEXT]
    and [dueDate TEXT], the last one nullable. *)
Module Row.

Record t := mk {
  id : jsstring;
  title : jsstring;
  description : jsstring;
  completed : Z;
  createdAt : ISO.cell;
  dueDate : option ISO.cell
}.

End Row.

(** [Partial<Task>], the second argument of [updateTask]: every field
    may be missing ([None]); [dueDate], of type [Date | null], may also
    be given as [null] ([Some None]). *)
Module Partial.

Record t := mk {
  id : option jsstring;
  title : option jsstring;
  description : option jsstring;
  completed : option bool;
  createdAt : option Date;
  dueDate : option (option Date)
}.

(** [{}] *)
Definition empty : t := mk None None None None None None.

(** The strings the update supplies are well-formed. *)
Definition storable (updates : t) : Prop :=
  (forall s, title updates = Some s -> isWellFormed s = true) /\
  (forall s, description updates = Some s -> isWellFormed s = true).

End Partial.

Module DatabaseService.

Definition Table := list Row.t.

(** The field [db]: [null], or the open database with its table. *)
Record t := mk { db : option Table }.

(** *** The SQL statements *)

(** [SELECT * FROM tasks WHERE id = ?], read with [db.get]: the first
    matching row, or [undefined].  [id] is the text bound to the
    parameter, which is the string given when that one is
    well-formed. *)
Definition select_by_id (id : jsstring) (table : Table) : option Row.t :=
  List.find (fun r => bool_decide (Row.id r = id)) table.

(** [INSERT INTO tasks (...) VALUES (...)]: refused, with the table
    left as it was, when the primary key is taken. *)
Definition insert (row : Row.t) (table : Table) : SqliteError + Table :=
  match select_by_id (Row.id row) table with
  | Some _ => inl UniqueConstraintFailed
  | None => inr (table ++ [row])
  end.

(** [UPDATE tasks SET title = ?, description = ?, completed = ?,
    dueDate = ? WHERE id = ?] *)
Definition update (title description : jsstring) (completed : Z)
    (dueDate : option ISO.cell) (id : jsstring) (table : Table) : Table :=
  map (fun r =>
         if bool_decide (Row.id r = id)
         then Row.mk (Row.id r) title description completed (Row.createdAt r) dueDate
         else r)
      table.

(** [DELETE FROM tasks WHERE id = ?] *)
Definition delete (id : jsstring) (table : Table) : Table :=
  List.filter (fun r => negb (bool_decide (Row.id r = id))) table.

(** [SELECT * FROM tasks ORDER BY createdAt ASC], read with [db.all]:
    the rows sorted by the text of [createdAt].  SQLite leaves the
    order of rows with equal keys open; the model keeps them in
    insertion order. *)
Fixpoint insert_sorted (r : Row.t) (rows : list Row.t) : list Row.t :=
  match rows with
  | [] => [r]
  | x :: rows' =>
      if text_leb (ISO.text (Row.createdAt r)) (ISO.text (Row.createdAt x))
      then r :: rows
      else x :: insert_sorted r rows'
  end.

Definition order_by_createdAt (table : Table) : list Row.t :=
  foldr insert_sorted [] table.

(** *** The methods *)

(** [row.description || ""] *)
Definition or_empty (s : jsstring) : jsstring :=
  if falsy s then [] else s.

(** [rowToTask]: the row goes through the constructor of [Task].  The
    text of a timestamp is never empty ([toISOString_truthy] below), so
    [row.dueDate] is truthy exactly when it is not null. *)
Definition rowToTask (now : Date) (row : Row.t) : Result Task.t :=
  Task.new now (Row.id row) (Row.title row) (or_empty (Row.description row))
    (Row.completed row =? 1)%Z
    (ISO.parse <$> Row.dueDate row)
    (ISO.parse (Row.createdAt row)).

(** The parameters of the INSERT statement, from the fields of the
    task: the three strings as SQLite stores them when they are
    well-formed ([Task.storable]). *)
Definition params (task : Task.t) : Row.t :=
  Row.mk (Task.id task) (Task.title task) (Task.description task)
    (if Task.completed task then 1 else 0)%Z
    (ISO.stamp (Task.createdAt task))
    (ISO.stamp <$> Task.dueDate task).

Definition addTask (task : Task.t) (this : t) : Result unit * t :=
  match db this with
  | None => (Err NotInitialized, this)
  | Some table =>
      match insert (params task) table with
      | inl err => (Err (FailedToAddTask err), this)
      | inr table' => (Ok (), mk (Some table'))
      end
  end.

(** [rows.map((row) => this.rowToTask(row))]: the rows in order, each
    with its own reading of the clock, up to the first one whose
    construction throws. *)
Fixpoint map_rowToTask (clock : nat -> Date) (i : nat) (rows : list Row.t)
    : Result (list Task.t) :=
  match rows with
  | [] => Ok []
  | row :: rows' =>
      task ← rowToTask (clock i) row;
      tasks ← map_rowToTask clock (S i) rows';
      Ok (task :: tasks)
  end.

(** [getTasks]: [clock i] is the time at which the row of index [i] of
    the sorted result is reconstructed. *)
Definition getTasks (clock : nat -> Date) (this : t) : Result (list Task.t) :=
  match db this with
  | None => Err NotInitialized
  | Some table =>
      match map_rowToTask clock 0 (order_by_createdAt table) with
      | Ok tasks => Ok (rev tasks)
      | Err error => Err (FailedToParseTasks error)
      end
  end.

(** [getTaskById]: [None] is the [null] of a missing row. *)
Definition getTaskById (now : Date) (id : jsstring) (this : t)
    : Result (option Task.t) :=
  match db this with
  | None => Err NotInitialized
  | Some table =>
      match select_by_id id table with
      | None => Ok None
      | Some row =>
          match rowToTask now row with
          | Ok task => Ok (Some task)
          | Err error => Err (FailedToParseTask error)
          end
      end
  end.

(** [a ?? b] for a field that is a string or a boolean when present. *)
Definition nullish {A} (a : option A) (b : A) : A := default b a.

(** [updates.dueDate ?? existingTask.dueDate]: [undefined] and [null]
    both give way to the right operand. *)
Definition nullish_date (a : option (option Date)) (b : option Date) : option Date :=
  match a with
  | Some (Some d) => Some d
  | Some None | None => b
  end.

(** [updateTask]: [now1] is the clock when the existing row is read,
    [now2] the clock when the merged task is constructed. *)
Definition updateTask (now1 now2 : Date) (id : jsstring) (updates : Partial.t)
    (this : t) : Result unit * t :=
  match getTaskById now1 id this with
  | Err error => (Err error, this)
  | Ok None => (Err (NotFound id), this)
  | Ok (Some existingTask) =>
      match Task.new now2 id
              (nullish (Partial.title updates) (Task.title existingTask))
              (nullish (Partial.description updates) (Task.description existingTask))
              (nullish (Partial.completed updates) (Task.completed existingTask))
              (nullish_date (Partial.dueDate updates) (Task.dueDate existingTask))
              (Task.createdAt existingTask) with
      | Err error => (Err error, this)
      | Ok task =>
          match db this with
          | None => (Err NotInitialized, this)
          | Some table =>
              (Ok (),
               mk (Some (update (Task.title task) (Task.description task)
                           (if Task.completed task then 1 else 0)%Z
                           (ISO.stamp <$> Task.dueDate task) id table)))
          end
      end
  end.

(** [initialize]: [stored] is the table [tasks] of the database at
    [dbPath] once CREATE TABLE IF NOT EXISTS has run, empty for a new
    file and for ":memory:". *)
Definition initialize (stored : Table) (this : t) : Result unit * t :=
  (Ok (), mk (Some stored)).

Definition deleteTask (id : jsstring) (this : t) : Result unit * t :=
  match db this with
  | None => (Err NotInitialized, this)
  | Some table => (Ok (), mk (Some (delete id table)))
  end.

Definition close (this : t) : Result unit * t := (Ok (), mk None).

Definition getTaskCount (this : t) : Result nat :=
  match db this with
  | None => Err NotInitialized
  | Some table => Ok (length table)
  end.

Definition getCompletedCount (this : t) : Result nat :=
  match db this with
  | None => Err NotInitialized
  | Some table =>
      Ok (length (List.filter (fun r => (Row.completed r =? 1)%Z) table))
  end.

Definition clearAll (this : t) : Result unit * t :=
  match db this with
  | None => (Err NotInitialized, this)
  | Some _ => (Ok (), mk (Some []))
  end.

(** *** Well-formed store states *)

(** What [addTask] and [updateTask] write in the column [completed]. *)
Definition Row_ok (r : Row.t) : Prop :=
  Row.completed r = 0%Z \/ Row.completed r = 1%Z.

(** The table of an open database: [id] is a key, and the rows are
    rows the service wrote. *)
Definition Table_ok (table : Table) : Prop :=
  NoDup (map Row.id table) /\ Forall Row_ok table.

(** The row can be read back at time [now]: its title and id pass the
    validation of the constructor, and its due date, if any, is not
    earlier than [now]. *)
Definition readable (now : Date) (r : Row.t) : Prop :=
  Task.validateTitle (Row.title r) = Ok () /\
  Task.validateId (Row.id r) = Ok () /\
  forall c, Row.dueDate r = Some c -> (now <= ISO.parse c)%Z.

(** The call of the constructor in [updateTask], on the task
    [existing] that was read: the merge of the update with it. *)
Definition merged (now : Date) (i : jsstring) (updates : Partial.t)
    (existing : Task.t) : Result Task.t :=
  Task.new now i
    (nullish (Partial.title updates) (Task.title existing))
    (nullish (Partial.description updates) (Task.description existing))
    (nullish (Partial.completed updates) (Task.completed existing))
    (nullish_date (Partial.dueDate updates) (Task.dueDate existing))
    (Task.createdAt existing).

(** The order of ORDER BY createdAt ASC on rows, and the order of
    the tasks of a list that gives the newest first, by the text of
    [createdAt] and by its instant. *)
Definition text_le (a b : Row.t) : Prop :=
  text_leb (ISO.text (Row.createdAt a)) (ISO.text (Row.createdAt b)) = true.

Definition text_newer_first (a b : Task.t) : Prop :=
  text_leb (ISO.toISOString (Task.createdAt b))
           (ISO.toISOString (Task.createdAt a)) = true.

Definition newer_first (a b : Task.t) : Prop :=
  (Task.createdAt b <= Task.createdAt a)%Z.

(** The task [rowToTask] makes of a row it accepts. *)
Definition task_of_row (r : Row.t) : Task.t :=
  Task.mk (Row.id r) (Row.title r) (Row.description r)
    (Row.completed r =? 1)%Z (ISO.parse (Row.createdAt r))
    (ISO.parse <$> Row.dueDate r).

(** The TEXT cells of the row are well-formed strings, as every text
    read from SQLite is. *)
Definition Row_text (r : Row.t) : Prop :=
  isWellFormed (Row.id r) = true /\ isWellFormed (Row.title r) = true /\
  isWellFormed (Row.description r) = true.

(** The title and the id of the row pass the validation of the
    constructor. *)
Definition Row_valid (r : Row.t) : Prop :=
  Task.validateTitle (Row.title r) = Ok () /\
  Task.validateId (Row.id r) = Ok ().

(** *** Sequences of calls *)

(** A call of one of the four methods that write to the table, with
    its arguments and the clock readings it makes. *)
Inductive Call :=
  | AddTask (task : Task.t)
  | UpdateTask (now1 now2 : Date) (id : jsstring) (updates : Partial.t)
  | DeleteTask (id : jsstring)
  | ClearAll.

Definition call (c : Call) (this : t) : Result unit * t :=
  match c with
  | AddTask task => addTask task this
  | UpdateTask now1 now2 id updates => updateTask now1 now2 id updates this
  | DeleteTask id => deleteTask id this
  | ClearAll => clearAll this
  end.

(** The calls one after the other, each on the state the one before
    left, whether it was resolved or rejected. *)
Definition run (calls : list Call) (this : t) : t :=
  foldl (fun s c => (call c s).2) this calls.

(** The task given to [addTask] is a valid one. *)
Definition adds_valid (c : Call) : Prop :=
  match c with
  | AddTask task => Task.valid task
  | _ => True
  end.

End DatabaseService.

(** ** Task and Date objects in the heap ([Task.clone])

    [clone] is about object identity: a Task object holds references to
    two Date objects, and both kinds of object are mutable.  Here the
    heap is explicit: [dates] gives the time value of every Date object,
    [tasks] the fields of every Task object. *)

Module Objects.

Definition ref := positive.

Record TaskObject := mkTask {
  id : jsstring;
  title : jsstring;
  description : jsstring;
  completed : bool;
  createdAt : ref;
  dueDate : option ref
}.

Record Heap := mkHeap {
  dates : gmap ref Date;
  tasks : gmap ref TaskObject
}.

(** [d.getTime()] *)
Definition getTime (h : Heap) (d : ref) : Date :=
  match dates h !! d return Date with
  | Some value => value
  | None => 0%Z
  end.

(** [new Date(value)]: a new Date object. *)
Definition newDate (value : Date) (h : Heap) : ref * Heap :=
  let d := fresh (dom (dates h)) in
  (d, mkHeap (<[d := value]> (dates h)) (tasks h)).

(** [new Task(id, title, description, completed, dueDate, createdAt)]:
    the validations of the constructor on the values of the
    arguments, then a new Task object that keeps the two references
    it was given. *)
Definition newTask (now : Date) (id title description : jsstring)
    (completed : bool) (dueDate : option ref) (createdAt : ref) (h : Heap)
    : Result ref * Heap :=
  match Task.new now id title description completed
          (getTime h <$> dueDate) (getTime h createdAt) with
  | Err e => (Err e, h)
  | Ok _ =>
      let l := fresh (dom (tasks h)) in
      (Ok l,
       mkHeap (dates h)
         (<[l := mkTask id title description completed createdAt dueDate]> (tasks h)))
  end.

(** [clone], on the fields [this] of the receiver: the arguments are
    evaluated from left to right, then the constructor runs. *)
Definition clone (now : Date) (this : TaskObject) (h : Heap) : Result ref * Heap :=
  let '(due, h1) :=
    match dueDate this with
    | Some d => let '(d', h1) := newDate (getTime h d) h in (Some d', h1)
    | None => (None, h)
    end in
  let '(created, h2) := newDate (getTime h1 (createdAt this)) h1 in
  newTask now (id this) (title this) (description this) (completed this)
    due created h2.

(** [d.setTime(value)]: the Date object [d] is changed in place. *)
Definition setTime (d : ref) (value : Date) (h : Heap) : Heap :=
  mkHeap (<[d := value]> (dates h)) (tasks h).

(** [task.dueDate = date], the assignment of the field. *)
Definition assign_dueDate (task : ref) (date : option ref) (h : Heap) : Heap :=
  mkHeap (dates h)
    (alter (fun o => mkTask (id o) (title o) (description o) (completed o)
                       (createdAt o) date)
           task (tasks h)).

(** [task.setDueDate(date)] *)
Definition setDueDate (now : Date) (date : option ref) (task : ref) (h : Heap)
    : Result unit * Heap :=
  match Task.validateDueDate now (getTime h <$> date) with
  | Err e => (Err e, h)
  | Ok _ => (Ok (), assign_dueDate task date h)
  end.

(** The six field values of the Task object [task], its two dates
    read through their references. *)
Definition snapshot (h : Heap) (task : ref) : option Task.t :=
  o ← tasks h !! task;
  created ← dates h !! createdAt o;
  due ← match dueDate o with
        | Some d => Some <$> dates h !! d
        | None => Some None
        end;
  Some (Task.mk (id o) (title o) (description o) (completed o) created due).

(** The object [toJSON] returns: the values of the four primitive
    fields, and the two references themselves, not copies of the Date
    objects. *)
Record ITask := mkITask {
  json_id : jsstring;
  json_title : jsstring;
  json_description : jsstring;
  json_completed : bool;
  json_createdAt : ref;
  json_dueDate : option ref
}.

Definition toJSON (this : TaskObject) : ITask :=
  mkITask (id this) (title this) (description this) (completed this)
    (createdAt this) (dueDate this).

(** The values a reader of the object [o] sees at this moment. *)
Definition read_json (h : Heap) (o : ITask) : option Task.t :=
  created ← dates h !! json_createdAt o;
  due ← match json_dueDate o with
        | Some d => Some <$> dates h !! d
        | None => Some None
        end;
  Some (Task.mk (json_id o) (json_title o) (json_description o)
          (json_completed o) created due).

End Objects.

(** ** The messages of the errors ([error.message]) *)

Module Message.

Definition sqlite (err : SqliteError) : jsstring :=
  match err with
  | UniqueConstraintFailed =>
      js "SQLITE_CONSTRAINT: UNIQUE constraint failed: tasks.id"
  end.

(** [error.message].  In a template literal an Error value [error] is
    written [Error: ] followed by its message. *)
Fixpoint message (e : Error) : jsstring :=
  match e with
  | EmptyTitle => js "Task title cannot be empty"
  | TitleTooLong => js "Task title cannot exceed 255 characters"
  | EmptyId => js "Task ID cannot be empty"
  | PastDueDate => js "Due date cannot be in the past"
  | NotInitialized => js "Database not initialized"
  | NotFound id => js "Task with id " ++ id ++ js " not found"
  | FailedToAddTask err => js "Failed to add task: " ++ sqlite err
  | FailedToParseTask error =>
      js "Failed to parse task: " ++ js "Error: " ++ message error
  | FailedToParseTasks error =>
      js "Failed to parse tasks: " ++ js "Error: " ++ message error
  end.

(** [s.startsWith(sub)] and [s.includes(sub)] *)
Fixpoint startsWith (s sub : jsstring) : bool :=
  match sub, s with
  | [], _ => true
  | _ :: _, [] => false
  | x :: sub', y :: s' => (x =? y)%N && startsWith s' sub'
  end.

Fixpoint includes (s sub : jsstring) : bool :=
  startsWith s sub ||
  match s with
  | [] => false
  | _ :: s' => includes s' sub
  end.

End Message.

(** ** The REST routes ([createTaskRoutes])

    Each handler is a function of the request, of the clock readings
    it makes and of the state of the service; it gives the response
    sent and the state of the service afterwards.

    - [req.body] is the JSON object [TaskClient] sends: [title] and
      [description] are strings when present, [dueDate] is a string or
      [null], [completed] a boolean.  Fields of other JSON types are
      outside the model.
    - [new Date(text)] on a text of the request is the argument
      [Date_of]: [None] stands for the Invalid Date.  Which texts a
      JavaScript engine accepts besides the ISO 8601 format is left to
      the engine, so the handlers are stated for every such function;
      [ISO.Date_parse] is one.
    - The body of a response is the object given to [res.json]; a Date
      in it is written by [JSON.stringify] as its [toISOString]. *)

(** The task as the client receives it (interface [ITask] of
    [TaskClient]). *)
Module ITask.

Record t := mk {
  id : jsstring;
  title : jsstring;
  description : jsstring;
  completed : bool;
  createdAt : jsstring;
  dueDate : option jsstring
}.

End ITask.

Module Routes.
Import DatabaseService Message.

(** [req.body] *)
Record RequestBody := mkBody {
  title : option jsstring;
  description : option jsstring;
  dueDate : option (option jsstring);
  completed : option bool
}.

(** The object given to [res.json]: [success] is [false] for
    [Failure] and [true] for the others. *)
Inductive Payload :=
  | TaskList (data : list ITask.t) (count : nat)
  | TaskData (data : option ITask.t) (message : option jsstring)
  | Success (message : jsstring)
  | Failure (error : jsstring).

Record Response := respond {
  status : nat;
  payload : Payload
}.

(** [res.json] on [task.toJSON()] *)
Definition json (task : Task.t) : ITask.t :=
  ITask.mk (Task.id task) (Task.title task) (Task.description task)
    (Task.completed task)
    (ISO.toISOString (Task.createdAt task))
    (ISO.toISOString <$> Task.dueDate task).

(** [!s || s.trim().length === 0] *)
Definition missing (s : jsstring) : bool :=
  falsy s || (length (trim s) =? 0).

(** GET /tasks *)
Definition GET_tasks (clock : nat -> Date) (this : DatabaseService.t)
    : Response * DatabaseService.t :=
  match getTasks clock this with
  | Ok tasks =>
      let taskJsons := map json tasks in
      (respond 200 (TaskList taskJsons (length taskJsons)), this)
  | Err error => (respond 500 (Failure (message error)), this)
  end.

(** GET /tasks/:id *)
Definition GET_task (now : Date) (id : jsstring) (this : DatabaseService.t)
    : Response * DatabaseService.t :=
  if missing id then (respond 400 (Failure (js "Task ID is required")), this)
  else
    match getTaskById now id this with
    | Ok None => (respond 404 (Failure (js "Task not found")), this)
    | Ok (Some task) => (respond 200 (TaskData (Some (json task)) None), this)
    | Err error => (respond 500 (Failure (message error)), this)
    end.

(** The [catch] of POST /tasks *)
Definition catch_POST (error : Error) : Response :=
  if includes (message error) (js "cannot be empty") then
    respond 400 (Failure (message error))
  else if includes (message error) (js "cannot exceed") then
    respond 400 (Failure (message error))
  else if includes (message error) (js "in the past") then
    respond 400 (Failure (message error))
  else respond 500 (Failure (message error)).

(** The id POST /tasks makes: [task-], the reading of [Date.now()], a
    dash and nine random characters; [unique] is what follows the
    prefix. *)
Definition new_id (unique : jsstring) : jsstring := js "task-" ++ unique.

(** The variable [dueDateObj] of POST /tasks: [Some null] without a
    due date (a missing, null or empty [dueDate] is falsy), [None]
    when the handler answers "Invalid due date format" instead. *)
Definition dueDateObj (Date_of : jsstring -> option Date)
    (dueDate : option (option jsstring)) : option (option Date) :=
  match dueDate with
  | Some (Some text) => if falsy text then Some None else Some <$> Date_of text
  | Some None | None => Some None
  end.

(** POST /tasks: [created] is the clock when the constructor is
    called (the default of [createdAt]), [now] the clock when it
    validates the due date. *)
Definition POST_tasks (Date_of : jsstring -> option Date) (unique : jsstring)
    (created now : Date) (body : RequestBody) (this : DatabaseService.t)
    : Response * DatabaseService.t :=
  match title body with
  | None => (respond 400 (Failure (js "Task title is required")), this)
  | Some title =>
      if missing title then
        (respond 400 (Failure (js "Task title is required")), this)
      else
        let id := new_id unique in
        match dueDateObj Date_of (dueDate body) with
        | None => (respond 400 (Failure (js "Invalid due date format")), this)
        | Some dueDateObj =>
            match Task.new now id title (default [] (description body)) false
                    dueDateObj created with
            | Err error => (catch_POST error, this)
            | Ok task =>
                match addTask task this with
                | (Err error, this') => (catch_POST error, this')
                | (Ok _, this') =>
                    (respond 201
                       (TaskData (Some (json task))
                          (Some (js "Task created successfully"))),
                     this')
                end
            end
        end
  end.

(** The [catch] of PATCH /tasks/:id *)
Definition catch_PATCH (error : Error) : Response :=
  if includes (message error) (js "not found") then
    respond 404 (Failure (message error))
  else respond 500 (Failure (message error)).

(** The object [updates] PATCH /tasks/:id builds from the body, or
    the response it sends instead. *)
Definition updates_of (Date_of : jsstring -> option Date) (body : RequestBody)
    : Response + Partial.t :=
  let updates (dueDate : option (option Date)) :=
    Partial.mk None (title body) (description body) (completed body) None
      dueDate in
  if match title body with
     | Some title => length (trim title) =? 0
     | None => false
     end
  then inl (respond 400 (Failure (js "Task title cannot be empty")))
  else
    match dueDate body with
    | None => inr (updates None)
    | Some None => inr (updates (Some None))
    | Some (Some text) =>
        match Date_of text with
        | None => inl (respond 400 (Failure (js "Invalid due date format")))
        | Some dueDateObj => inr (updates (Some (Some dueDateObj)))
        end
    end.

(** PATCH /tasks/:id: [now1] is the clock of the first
    [getTaskById], [now2] and [now3] are the two readings of
    [updateTask], [now4] is the clock of the second [getTaskById]. *)
Definition PATCH_task (Date_of : jsstring -> option Date)
    (now1 now2 now3 now4 : Date) (id : jsstring) (body : RequestBody)
    (this : DatabaseService.t) : Response * DatabaseService.t :=
  if missing id then (respond 400 (Failure (js "Task ID is required")), this)
  else
    match getTaskById now1 id this with
    | Err error => (catch_PATCH error, this)
    | Ok None => (respond 404 (Failure (js "Task not found")), this)
    | Ok (Some existingTask) =>
        match updates_of Date_of body with
        | inl response => (response, this)
        | inr updates =>
            match updateTask now2 now3 id updates this with
            | (Err error, this') => (catch_PATCH error, this')
            | (Ok _, this') =>
                match getTaskById now4 id this' with
                | Err error => (catch_PATCH error, this')
                | Ok updatedTask =>
                    (respond 200
                       (TaskData (json <$> updatedTask)
                          (Some (js "Task updated successfully"))),
                     this')
                end
            end
        end
    end.

(** PATCH /tasks/:id/complete, with the same four readings. *)
Definition PATCH_task_complete (now1 now2 now3 now4 : Date) (id : jsstring)
    (this : DatabaseService.t) : Response * DatabaseService.t :=
  if missing id then (respond 400 (Failure (js "Task ID is required")), this)
  else
    match getTaskById now1 id this with
    | Err error => (respond 500 (Failure (message error)), this)
    | Ok None => (respond 404 (Failure (js "Task not found")), this)
    | Ok (Some task) =>
        match updateTask now2 now3 id
                (Partial.mk None None None (Some true) None None) this with
        | (Err error, this') => (respond 500 (Failure (message error)), this')
        | (Ok _, this') =>
            match getTaskById now4 id this' with
            | Err error => (respond 500 (Failure (message error)), this')
            | Ok updatedTask =>
                (respond 200
                   (TaskData (json <$> updatedTask)
                      (Some (js "Task marked as completed"))),
                 this')
            end
        end
    end.

(** DELETE /tasks/:id *)
Definition DELETE_task (now : Date) (id : jsstring) (this : DatabaseService.t)
    : Response * DatabaseService.t :=
  if missing id then (respond 400 (Failure (js "Task ID is required")), this)
  else
    match getTaskById now id this with
    | Err error => (respond 500 (Failure (message error)), this)
    | Ok None => (respond 404 (Failure (js "Task not found")), this)
    | Ok (Some task) =>
        match deleteTask id this with
        | (Err error, this') => (respond 500 (Failure (message error)), this')
        | (Ok _, this') =>
            (respond 200 (Success (js "Task deleted successfully")), this')
        end
    end.

End Routes.

(** ** The retry helper of the client ([TaskClient.retryRequest]) *)

Module TaskClient.

Definition maxRetries : nat := 3.

(** Milliseconds waited before each new attempt. *)
Definition retryDelay : Z := 1000.

(** What a run of [retryRequest] does, in the order it does it: a
    call of [fn], numbered from 0, or a wait in [setTimeout]. *)
Inductive Event :=
  | Called (k : nat)
  | Waited (ms : Z).

(** [retryRequest(fn, retries)].  [fn] is an effectful thunk: [fn k]
    is the outcome of its call number [k], [inr] a value it resolves
    with and [inl] an error it rejects with; [call] is the number of
    calls made before this one.  The result is the outcome of
    [retryRequest] and what it did. *)
Fixpoint retryRequest {E T} (fn : nat -> E + T) (call : nat) (retries : nat)
    : (E + T) * list Event :=
  match fn call with
  | inr value => (inr value, [Called call])
  | inl error =>
      match retries with
      | S retries' =>
          let '(outcome, events) := retryRequest fn (S call) retries' in
          (outcome, Called call :: Waited retryDelay :: events)
      | O => (inl error, [Called call])
      end
  end.

(** The number of calls of [fn] in a run, and the time spent
    waiting. *)
Fixpoint calls (events : list Event) : nat :=
  match events with
  | [] => 0
  | Called _ :: events' => S (calls events')
  | Waited _ :: events' => calls events'
  end.

Fixpoint waited (events : list Event) : Z :=
  match events with
  | [] => 0
  | Called _ :: events' => waited events'
  | Waited ms :: events' => ms + waited events'
  end.

(** The body [createTask(title, description, dueDate)] sends to
    POST /tasks: the due date, when given, as its [toISOString]. *)
Definition createTask_body (title description : jsstring)
    (dueDate : option Date) : Routes.RequestBody :=
  Routes.mkBody (Some title) (Some description)
    (match dueDate with
     | Some d => Some (Some (ISO.toISOString d))
     | None => None
     end)
    None.

(** The body [updateTask(id, updates)] sends to PATCH /tasks/:id, from
    the four optional fields of [updates]: a field that is undefined
    is left out, a null [dueDate] is sent as null. *)
Definition updateTask_body (title description : option jsstring)
    (dueDate : option (option Date)) (completed : option bool)
    : Routes.RequestBody :=
  Routes.mkBody title description
    (match dueDate with
     | Some (Some d) => Some (Some (ISO.toISOString d))
     | Some None => Some None
     | None => None
     end)
    completed.

End TaskClient.

(** ** The overdue mark of the user interface
    ([UIController.createTaskElement]) *)

Module UIController.

(** The constant [isOverdue] of [createTaskElement], as the condition
    of [isOverdue ? "overdue" : ""]: [task] is the task as received
    from the server, [now] the reading of [new Date()] and [Date_of]
    stands for [new Date(task.dueDate)].  The comparison with an
    Invalid Date is false. *)
Definition isOverdue (Date_of : jsstring -> option Date) (now : Date)
    (task : ITask.t) : bool :=
  match ITask.dueDate task with
  | None => false
  | Some text =>
      if falsy text then false
      else
        match Date_of text with
        | None => false
        | Some dueDate => (dueDate <? now)%Z && negb (ITask.completed task)
        end
  end.

End UIController.

(** ** Concrete values used by the examples below *)

Module Examples.

(** 256 spaces. *)
Definition spaces256 : jsstring := repeat 32%N 256.

(** 256 times the letter a. *)
Definition a256 : jsstring := repeat 97%N 256.

(** Clock readings and dates: 2026-01-01, 2026-06-01 and 2026-12-31
    at 00:00:00.000Z. *)
Definition jan_2026 : Date := 1767225600000%Z.
Definition jun_2026 : Date := 1780272000000%Z.
Definition dec_2026 : Date := 1798675200000%Z.

(** 10000-01-01T00:00:00.000Z, the first instant with a signed year. *)
Definition year_10000 : Date := 253402300800000%Z.

(** A task made on 2026-01-01 and due on 2026-06-01. *)
Definition t1 : Task.t :=
  Task.mk (js "t1") (js "Buy milk") (js "2 litres") false jan_2026 (Some jun_2026).

Definition mar_2026 : Date := 1772323200000%Z.

(** A second task, made on 2026-03-01, with no due date. *)
Definition t2 : Task.t :=
  Task.mk (js "t2") (js "Walk dog") [] false mar_2026 None.

(** A task made on 10000-01-01, with no due date. *)
Definition t3 : Task.t :=
  Task.mk (js "t3") (js "Far future") [] false year_10000 None.

(** The task of the end-to-end scenario: no due date. *)
Definition milk : Task.t :=
  Task.mk (js "t1") (js "Buy milk") [] false jan_2026 None.

(** [{ completed: true }] *)
Definition completed_true : Partial.t :=
  Partial.mk None None None (Some true) None None.

Definition row1 : Row.t := DatabaseService.params t1.
Definition row2 : Row.t := DatabaseService.params t2.
Definition row3 : Row.t := DatabaseService.params t3.

(** Stores in the state Ready. *)
Definition empty_store : DatabaseService.t := DatabaseService.mk (Some []).
Definition store1 : DatabaseService.t := DatabaseService.mk (Some [row1]).
Definition store12 : DatabaseService.t := DatabaseService.mk (Some [row1; row2]).
Definition store23 : DatabaseService.t := DatabaseService.mk (Some [row2; row3]).

(** [{ title: "New" }], [{ title: "" }] and [{ dueDate: null }] *)
Definition title_New : Partial.t :=
  Partial.mk None (Some (js "New")) None None None None.
Definition title_empty : Partial.t :=
  Partial.mk None (Some []) None None None None.
Definition dueDate_null : Partial.t :=
  Partial.mk None None None None None (Some None).

(** A heap with the Task object t1 at reference 1, its createdAt at
    reference 1 and its dueDate at reference 2 of the Date objects. *)
Definition object1 : Objects.TaskObject :=
  Objects.mkTask (js "t1") (js "Buy milk") (js "2 litres") false 1%positive
    (Some 2%positive).

Definition heap1 : Objects.Heap :=
  Objects.mkHeap
    (<[1%positive := jan_2026]> (<[2%positive := jun_2026]> ∅))
    (<[1%positive := object1]> ∅).

(** Requests: [{ title: "Buy milk", dueDate: "2026-06-01T00:00:00.000Z" }],
    [{ title: <256 times a> }], [{ dueDate: null }] and
    [{ title: "New" }]. *)
Definition body_milk : Routes.RequestBody :=
  Routes.mkBody (Some (js "Buy milk")) None
    (Some (Some (js "2026-06-01T00:00:00.000Z"))) None.
Definition body_long : Routes.RequestBody :=
  Routes.mkBody (Some a256) None None None.
Definition body_null : Routes.RequestBody :=
  Routes.mkBody None None (Some None) None.
Definition body_New : Routes.RequestBody :=
  Routes.mkBody (Some (js "New")) None None None.

(** What follows [task-] in a generated id. *)
Definition unique1 : jsstring := js "1767225600000-k3j9x0q2a".

End Examples.

(** ** Facts about strings *)

Lemma trimStart_nil (s : jsstring) :
  trimStart s = [] <-> blank s = true.
Proof.
  unfold blank. induction s as [|c s IH]; simpl.
  - tauto.
  - destruct (isWhiteSpace c); simpl.
    + exact IH.
    + split; discriminate.
Qed.

Lemma blank_app (a b : jsstring) :
  blank (a ++ b) = blank a && blank b.
Proof. unfold blank. apply forallb_app. Qed.

Lemma trimStart_not_blank (s : jsstring) :
  blank s = false -> blank (trimStart s) = false.
Proof.
  induction s as [|c s IH]; simpl; [discriminate|].
  destruct (isWhiteSpace c) eqn:Hc; simpl.
  - exact IH.
  - intros _. unfold blank. simpl. by rewrite Hc.
Qed.

Lemma blank_rev (s : jsstring) : blank (rev s) = blank s.
Proof.
  induction s as [|c s IH]; simpl; [done|].
  rewrite blank_app, IH. unfold blank at 2. simpl.
  rewrite andb_true_r. apply andb_comm.
Qed.

(** [trim] leaves nothing exactly when the string is blank. *)
Lemma trim_nil (s : jsstring) :
  length (trim s) = 0 <-> blank s = true.
Proof.
  unfold trim, trimEnd. rewrite length_rev.
  split.
  - intros H. apply nil_length_inv in H. apply trimStart_nil in H.
    rewrite blank_rev in H.
    destruct (blank s) eqn:Hs; [done|].
    apply trimStart_not_blank in Hs. congruence.
  - intros H. apply trimStart_nil in H. rewrite H. done.
Qed.

Lemma falsy_blank (s : jsstring) : falsy s = true -> blank s = true.
Proof. by destruct s. Qed.

(** The test [!s || s.trim().length === 0] of the two validators. *)
Lemma empty_test (s : jsstring) :
  falsy s || (length (trim s) =? 0) = blank s.
Proof.
  destruct (blank s) eqn:Hb.
  - apply orb_true_iff. right. apply Nat.eqb_eq. by apply trim_nil.
  - apply orb_false_iff. split.
    + destruct (falsy s) eqn:Hf; [|done]. apply falsy_blank in Hf. congruence.
    + apply Nat.eqb_neq. intros H. apply trim_nil in H. congruence.
Qed.

(** The white space of [trim]: the ASCII controls TAB to CR, the
    spaces of Unicode, the line separators and the byte order mark, and
    nothing next to them. *)
Example isWhiteSpace_values :
  forallb isWhiteSpace [9; 10; 11; 12; 13; 32; 160; 5760; 8192; 8202; 8232;
                        8233; 8239; 8287; 12288; 65279]%N = true /\
  existsb isWhiteSpace [8; 14; 31; 33; 159; 161; 8191; 8203; 8231; 8234;
                        12287; 65278]%N = false /\
  trim (js "  Buy milk ") = js "Buy milk".
Proof. by vm_compute. Qed.

(** Well-formed and ill-formed strings: a letter, a surrogate pair
    (U+1F600), and three ways of leaving a surrogate alone. *)
Example isWellFormed_values :
  isWellFormed (js "Buy milk") = true /\
  isWellFormed [55357; 56832]%N = true /\
  isWellFormed [97; 55296; 98]%N = false /\
  isWellFormed [56832]%N = false /\
  isWellFormed [55357]%N = false.
Proof. by vm_compute. Qed.

(** ** Facts about the Task entity *)

Lemma validateTitle_spec (title : jsstring) :
  Task.validateTitle title =
    if blank title then Err EmptyTitle
    else if 255 <? length title then Err TitleTooLong
    else Ok ().
Proof. unfold Task.validateTitle. by rewrite empty_test. Qed.

Lemma validateId_spec (id : jsstring) :
  Task.validateId id = if blank id then Err EmptyId else Ok ().
Proof. unfold Task.validateId. by rewrite empty_test. Qed.

Lemma validateDueDate_ok (now : Date) (dueDate : option Date) :
  Task.validateDueDate now dueDate = Ok () <->
  forall d, dueDate = Some d -> (now <= d)%Z.
Proof.
  unfold Task.validateDueDate. destruct dueDate as [d|].
  - destruct (Z.ltb_spec d now); split; try done.
    + intros H'. specialize (H' d eq_refl). lia.
    + intros _ d' [= <-]. done.
  - split; [discriminate|done].
Qed.

Lemma validate_unit (r : Result unit) : (exists e, r = Err e) \/ r = Ok ().
Proof. destruct r as [[]|e]; eauto. Qed.

(** The constructor succeeds exactly when its three validations do, and
    then the object has the fields it was given. *)
Lemma new_ok now id title description completed dueDate createdAt :
  Task.validateTitle title = Ok () ->
  Task.validateId id = Ok () ->
  Task.validateDueDate now dueDate = Ok () ->
  Task.new now id title description completed dueDate createdAt =
    Ok (Task.mk id title description completed createdAt dueDate).
Proof. unfold Task.new. by intros -> -> ->. Qed.

Lemma new_inv now id title description completed dueDate createdAt task :
  Task.new now id title description completed dueDate createdAt = Ok task ->
  task = Task.mk id title description completed createdAt dueDate /\
  Task.validateTitle title = Ok () /\
  Task.validateId id = Ok () /\
  Task.validateDueDate now dueDate = Ok ().
Proof.
  unfold Task.new.
  destruct (Task.validateTitle title) as [[]|]; [|discriminate].
  destruct (Task.validateId id) as [[]|]; [|discriminate].
  destruct (Task.validateDueDate now dueDate) as [[]|]; [|discriminate].
  simpl. by intros [= <-].
Qed.

Lemma new_title_error now id title description completed dueDate createdAt e :
  Task.validateTitle title = Err e ->
  Task.new now id title description completed dueDate createdAt = Err e.
Proof. unfold Task.new. by intros ->. Qed.

Lemma new_past_due now id title description completed d createdAt :
  (d < now)%Z ->
  exists e,
    Task.new now id title description completed (Some d) createdAt = Err e /\
    (Task.validateTitle title = Ok () -> Task.validateId id = Ok () ->
     e = PastDueDate).
Proof.
  intros Hd. unfold Task.new.
  destruct (Task.validateTitle title) as [[]|e1]; [|exists e1; by split].
  destruct (Task.validateId id) as [[]|e2]; [|exists e2; by split].
  exists PastDueDate. split; [|done].
  simpl. destruct (Z.ltb_spec d now); [done|lia].
Qed.

(** C6, as the specification states its second part: a title longer
    than 255 characters is refused with TitleTooLong.  A title of 256
    spaces is refused with EmptyTitle, by the constructor and by
    [updateTitle]: the emptiness test comes first. *)
Lemma long_blank_title_is_EmptyTitle :
  255 < length Examples.spaces256 /\
  Task.new Examples.jan_2026 (js "t2") Examples.spaces256 [] false None
    Examples.jan_2026 = Err EmptyTitle /\
  Task.updateTitle Examples.spaces256 Examples.t1 = (Err EmptyTitle, Examples.t1).
Proof. vm_compute. split; [lia|done]. Qed.

(** C6 (amended): a blank title (empty or white space only) is refused
    with EmptyTitle by the constructor and by [updateTitle]; a title of
    more than 255 code units that is not blank is refused with
    TitleTooLong by both; a title that is not blank and of at most 255
    code units is accepted by [updateTitle], and by the constructor when
    the id and the due date are accepted, and becomes the title of the
    entity.  A refused [updateTitle] leaves the entity as it was. *)
Theorem title_validation (title : jsstring) :
  (blank title = true ->
   (forall now id description completed dueDate createdAt,
      Task.new now id title description completed dueDate createdAt
        = Err EmptyTitle) /\
   (forall this, Task.updateTitle title this = (Err EmptyTitle, this))) /\
  (255 < length title -> blank title = false ->
   (forall now id description completed dueDate createdAt,
      Task.new now id title description completed dueDate createdAt
        = Err TitleTooLong) /\
   (forall this, Task.updateTitle title this = (Err TitleTooLong, this))) /\
  (length title <= 255 -> blank title = false ->
   (forall now id description completed dueDate createdAt,
      Task.validateId id = Ok () ->
      Task.validateDueDate now dueDate = Ok () ->
      exists task,
        Task.new now id title description completed dueDate createdAt = Ok task /\
        Task.title task = title) /\
   (forall this, exists this',
      Task.updateTitle title this = (Ok (), this') /\
      Task.title this' = title)).
Proof.
  pose proof (validateTitle_spec title) as Hv.
  split; [|split].
  - intros Hb. rewrite Hb in Hv. split.
    + intros. by apply new_title_error.
    + intros this. unfold Task.updateTitle. by rewrite Hv.
  - intros Hlen Hb. rewrite Hb in Hv.
    destruct (Nat.ltb_spec 255 (length title)); [|lia]. split.
    + intros. by apply new_title_error.
    + intros this. unfold Task.updateTitle. by rewrite Hv.
  - intros Hlen Hb. rewrite Hb in Hv.
    destruct (Nat.ltb_spec 255 (length title)); [lia|]. split.
    + intros now id description completed dueDate createdAt Hid Hdue.
      eexists. split; [by apply new_ok|done].
    + intros this. unfold Task.updateTitle. rewrite Hv. eexists. by split.
Qed.

Lemma title_validation_witness :
  (255 < length Examples.a256 /\ blank Examples.a256 = false /\
   Task.updateTitle Examples.a256 Examples.t1 = (Err TitleTooLong, Examples.t1)) /\
  (length (js "New") <= 255 /\ blank (js "New") = false /\
   exists this',
     Task.updateTitle (js "New") Examples.t1 = (Ok (), this') /\
     Task.title this' = js "New") /\
  (blank (js "   ") = true /\
   Task.updateTitle (js "   ") Examples.t1 = (Err EmptyTitle, Examples.t1)).
Proof.
  split; [|split].
  - assert (H1 : 255 < length Examples.a256) by (vm_compute; lia).
    assert (H2 : blank Examples.a256 = false) by (vm_compute; reflexivity).
    split; [exact H1|]. split; [exact H2|].
    exact (proj2 (proj1 (proj2 (title_validation Examples.a256)) H1 H2) Examples.t1).
  - assert (H1 : length (js "New") <= 255) by (vm_compute; lia).
    assert (H2 : blank (js "New") = false) by (vm_compute; reflexivity).
    split; [exact H1|]. split; [exact H2|].
    exact (proj2 (proj2 (proj2 (title_validation (js "New"))) H1 H2) Examples.t1).
  - assert (H1 : blank (js "   ") = true) by (vm_compute; reflexivity).
    split; [exact H1|].
    exact (proj2 (proj1 (title_validation (js "   ")) H1) Examples.t1).
Defined.

(** C7, as stated, for every construction with a past due date: with
    an empty title the constructor fails with EmptyTitle, for the title
    is validated before the due date. *)
Lemma past_due_date_with_empty_title :
  (Examples.jan_2026 < Examples.jun_2026)%Z /\
  Task.new Examples.jun_2026 (js "t2") [] [] false (Some Examples.jan_2026)
    Examples.jun_2026 = Err EmptyTitle.
Proof. by vm_compute. Qed.

(** C7 (amended): a due date strictly earlier than the clock makes the
    constructor fail, with PastDueDate when the title and the id are
    valid (they are validated first), and makes [setDueDate] fail with
    PastDueDate, the entity left as it was; [setDueDate(null)] succeeds
    and clears the due date whatever the entity and the clock, nothing
    else changed, and without any validation. *)
Theorem past_due_date_refused :
  (forall now d : Date,
     (d < now)%Z ->
     (forall id title description completed createdAt,
        exists e,
          Task.new now id title description completed (Some d) createdAt = Err e /\
          (Task.validateTitle title = Ok () -> Task.validateId id = Ok () ->
           e = PastDueDate)) /\
     (forall this,
        Task.setDueDate now (Some d) this = (Err PastDueDate, this))) /\
  (forall now this,
     Task.setDueDate now None this =
       (Ok (), Task.mk (Task.id this) (Task.title this) (Task.description this)
                 (Task.completed this) (Task.createdAt this) None)).
Proof.
  split.
  - intros now d Hd. split.
    + intros. by apply new_past_due.
    + intros this. unfold Task.setDueDate, Task.validateDueDate.
      destruct (Z.ltb_spec d now); [done|lia].
  - done.
Qed.

Lemma past_due_date_refused_witness :
  (Examples.jan_2026 < Examples.jun_2026)%Z /\
  Task.new Examples.jun_2026 (js "t2") (js "Late") [] false
    (Some Examples.jan_2026) Examples.jun_2026 = Err PastDueDate /\
  Task.setDueDate Examples.jun_2026 (Some Examples.jan_2026) Examples.t1
    = (Err PastDueDate, Examples.t1).
Proof.
  assert (H : (Examples.jan_2026 < Examples.jun_2026)%Z) by (vm_compute; reflexivity).
  split; [exact H|]. split.
  - reflexivity.
  - exact (proj2 (proj1 past_due_date_refused _ _ H) Examples.t1).
Defined.

(** ** The order of ISO 8601 texts *)

Section IsoOrder.
Local Open Scope Z_scope.
Import ISO.

Lemma compare_radix (B a1 b1 a2 b2 : Z) :
  0 <= b1 < B -> 0 <= b2 < B ->
  (a1 * B + b1 ?= a2 * B + b2) = lex (a1 ?= a2) (b1 ?= b2).
Proof.
  intros H1 H2. unfold lex.
  destruct (Z.compare_spec a1 a2) as [->|Ha|Ha].
  - destruct (Z.compare_spec b1 b2); [apply Z.compare_eq_iff
      | apply Z.compare_lt_iff | apply Z.compare_gt_iff]; lia.
  - apply Z.compare_lt_iff. nia.
  - apply Z.compare_gt_iff. nia.
Qed.

Lemma compare_monotone (f : Z -> Z) (a b : Z) :
  (forall x y, x < y -> f x < f y) -> (f a ?= f b) = (a ?= b).
Proof.
  intros Hf. destruct (Z.compare_spec a b) as [->|H|H].
  - apply Z.compare_refl.
  - apply Z.compare_lt_iff. by apply Hf.
  - apply Z.compare_gt_iff. by apply Hf.
Qed.

Lemma text_compare_app (x y r1 r2 : jsstring) :
  length x = length y ->
  text_compare (x ++ r1) (y ++ r2) = lex (text_compare x y) (text_compare r1 r2).
Proof.
  revert y. induction x as [|a x IH]; intros [|b y] Hlen; try discriminate.
  - done.
  - simpl. destruct (N.compare a b); try done.
    apply IH. by injection Hlen.
Qed.

Lemma text_compare_refl (s : jsstring) : text_compare s s = Eq.
Proof. induction s as [|a s IH]; simpl; [done|]. by rewrite N.compare_refl. Qed.

Lemma text_compare_prefix (s r1 r2 : jsstring) :
  text_compare (s ++ r1) (s ++ r2) = text_compare r1 r2.
Proof. rewrite text_compare_app by done. by rewrite text_compare_refl. Qed.

Lemma text_compare_antisym (a b : jsstring) :
  text_compare b a = CompOpp (text_compare a b).
Proof.
  revert b. induction a as [|x a IH]; intros [|y b]; simpl; try done.
  rewrite (N.compare_antisym x y).
  destruct (N.compare x y); simpl; [apply IH|done|done].
Qed.

Lemma text_compare_single (x y : char16) :
  text_compare [x] [y] = N.compare x y.
Proof. simpl. by destruct (N.compare x y). Qed.

Lemma length_digits (k : nat) (n : Z) : length (digits k n) = k.
Proof.
  revert n. induction k as [|k IH]; intros n; simpl; [done|].
  rewrite length_app, IH. simpl. lia.
Qed.

Lemma digit_compare (a b : Z) :
  0 <= a -> 0 <= b -> N.compare (digit a) (digit b) = (a ?= b).
Proof.
  intros Ha Hb. unfold digit.
  rewrite Z2N.inj_compare by lia. apply Z.add_compare_mono_l.
Qed.

(** Numbers of [k] digits compare as their digits do. *)
Lemma digits_compare (k : nat) (a b : Z) :
  0 <= a < 10 ^ Z.of_nat k -> 0 <= b < 10 ^ Z.of_nat k ->
  text_compare (digits k a) (digits k b) = (a ?= b).
Proof.
  revert a b. induction k as [|k IH]; intros a b Ha Hb.
  - simpl in *. symmetry. apply Z.compare_eq_iff. lia.
  - simpl digits.
    rewrite text_compare_app by (by rewrite !length_digits).
    rewrite Nat2Z.inj_succ, Z.pow_succ_r in Ha, Hb by lia.
    rewrite IH by (split; [apply Z.div_pos; lia | apply Z.div_lt_upper_bound; lia]).
    rewrite text_compare_single, digit_compare by (apply Z.mod_pos_bound; lia).
    rewrite <- (compare_radix 10) by (apply Z.mod_pos_bound; lia).
    f_equal; rewrite Z.mul_comm; symmetry; apply Z.div_mod; lia.
Qed.

Lemma lex_Eq_r (c : comparison) : lex c Eq = c.
Proof. by destruct c. Qed.

(** *** The calendar is monotone *)

Lemma era_bounds (doe : Z) :
  0 <= doe < 146097 ->
  0 <= day_of_year doe <= 365 /\ 0 <= year_of_era doe <= 399.
Proof.
  intros H. unfold day_of_year, year_of_era.
  Z.to_euclidean_division_equations; lia.
Qed.

(** From a day to the next, the day of the year grows by one or the
    year does and the day of the year is 0 again. *)
Lemma era_succ (doe : Z) :
  0 <= doe < 146096 ->
  (year_of_era (doe + 1) = year_of_era doe /\
   day_of_year (doe + 1) = day_of_year doe + 1) \/
  (year_of_era (doe + 1) = year_of_era doe + 1 /\
   day_of_year (doe + 1) = 0).
Proof.
  intros H. unfold day_of_year, year_of_era.
  Z.to_euclidean_division_equations; lia.
Qed.

Lemma month_date_bounds (doy : Z) :
  0 <= doy <= 365 ->
  1 <= month_of doy <= 12 /\ 1 <= date_of doy <= 31.
Proof.
  intros H. unfold month_of, date_of.
  destruct (Z.ltb_spec ((5 * doy + 2) / 153) 10);
    Z.to_euclidean_division_equations; lia.
Qed.

Lemma day_key_succ (doy : Z) :
  0 <= doy < 365 -> day_key doy < day_key (doy + 1).
Proof.
  intros H. unfold day_key, month_of, date_of.
  destruct (Z.ltb_spec ((5 * doy + 2) / 153) 10);
    destruct (Z.ltb_spec ((5 * (doy + 1) + 2) / 153) 10);
    repeat match goal with |- context [?a <=? 2] => destruct (Z.leb_spec a 2) end;
    Z.to_euclidean_division_equations; lia.
Qed.

Lemma day_key_bounds (doy : Z) :
  0 <= doy <= 365 -> 101 <= day_key doy <= 10231.
Proof.
  intros H. unfold day_key.
  pose proof (month_date_bounds doy H).
  destruct (Z.leb_spec (month_of doy) 2); lia.
Qed.

Lemma date_key_eq (z : Z) :
  date_key z =
    (400 * ((z + 719468) / 146097) + year_of_era ((z + 719468) mod 146097)) * 10000
    + day_key (day_of_year ((z + 719468) mod 146097)).
Proof. unfold date_key, civil_from_days, day_key. lia. Qed.

Lemma date_key_succ (z : Z) : date_key z < date_key (z + 1).
Proof.
  rewrite !date_key_eq.
  replace (z + 1 + 719468) with (z + 719468 + 1) by lia.
  set (w := z + 719468). clearbody w.
  assert (Hd : 0 <= w mod 146097 < 146097) by (apply Z.mod_pos_bound; lia).
  assert (H : (w + 1) / 146097 = w / 146097 /\
              (w + 1) mod 146097 = w mod 146097 + 1 /\ w mod 146097 < 146096 \/
              (w + 1) / 146097 = w / 146097 + 1 /\
              (w + 1) mod 146097 = 0 /\ w mod 146097 = 146096)
    by (Z.to_euclidean_division_equations; lia).
  set (e := w / 146097) in *. set (doe := w mod 146097) in *. clearbody e doe.
  destruct H as [(-> & -> & Hlt)|(-> & -> & ->)].
  - pose proof (era_bounds doe Hd) as [Hy _].
    pose proof (era_bounds (doe + 1) ltac:(lia)) as [Hy' _].
    pose proof (day_key_bounds _ Hy).
    destruct (era_succ doe ltac:(lia)) as [[-> Hs]|[-> Hs]].
    + rewrite Hs in Hy' |- *.
      pose proof (day_key_succ (day_of_year doe) ltac:(lia)). lia.
    + rewrite Hs. change (day_key 0) with 301. lia.
  - change (year_of_era 146096) with 399. change (year_of_era 0) with 0.
    change (day_key (day_of_year 146096)) with 10229.
    change (day_key (day_of_year 0)) with 301. lia.
Qed.

Lemma date_key_mono (x y : Z) : x < y -> date_key x < date_key y.
Proof.
  intros H. replace y with (x + 1 + Z.of_nat (Z.to_nat (y - x - 1))) by lia.
  generalize (Z.to_nat (y - x - 1)). intros n.
  induction n as [|n IH].
  - rewrite Z.add_0_r. apply date_key_succ.
  - etrans; [exact IH|].
    replace (x + 1 + Z.of_nat (S n)) with (x + 1 + Z.of_nat n + 1) by lia.
    apply date_key_succ.
Qed.

(** The fields of a date whose instant has a four-digit year. *)
Lemma civil_four_digit (t : Date) :
  four_digit_year t ->
  forall y m d, civil_from_days (t / msPerDay) = (y, m, d) ->
  0 <= y <= 9999 /\ 1 <= m <= 12 /\ 1 <= d <= 31.
Proof.
  unfold four_digit_year, msPerDay. intros Ht y m d Hc.
  assert (Hz : -719528 <= t / 86400000 <= 2932896)
    by (Z.to_euclidean_division_equations; lia).
  set (z := t / 86400000) in *. clearbody z.
  assert (Hk : 101 <= date_key z <= 99991231).
  { split.
    - destruct (Z.eq_dec z (-719528)) as [->|]; [by vm_compute|].
      pose proof (date_key_mono (-719528) z ltac:(lia)) as H.
      change (date_key (-719528)) with 101 in H. lia.
    - destruct (Z.eq_dec z 2932896) as [->|]; [by vm_compute|].
      pose proof (date_key_mono z 2932896 ltac:(lia)) as H.
      change (date_key 2932896) with 99991231 in H. lia. }
  unfold date_key in Hk. rewrite Hc in Hk.
  unfold civil_from_days in Hc. injection Hc as Hy Hm Hd.
  assert (Hdoe : 0 <= (z + 719468) mod 146097 < 146097)
    by (apply Z.mod_pos_bound; lia).
  pose proof (era_bounds _ Hdoe) as [Hdoy _].
  pose proof (month_date_bounds _ Hdoy) as [Hm' Hd'].
  rewrite Hm in Hm'. rewrite Hd in Hd'. lia.
Qed.

Lemma lex_assoc (a b c : comparison) : lex (lex a b) c = lex a (lex b c).
Proof. by destruct a. Qed.

(** A field of [k] digits followed by the same separator. *)
Lemma field_compare (k : nat) (a b : Z) (s r1 r2 : jsstring) :
  0 <= a < 10 ^ Z.of_nat k -> 0 <= b < 10 ^ Z.of_nat k ->
  text_compare (digits k a ++ s ++ r1) (digits k b ++ s ++ r2)
    = lex (a ?= b) (text_compare r1 r2).
Proof.
  intros Ha Hb.
  rewrite text_compare_app by (by rewrite !length_digits).
  by rewrite digits_compare, text_compare_prefix.
Qed.

Lemma time_fields (r : Z) :
  0 <= r < 86400000 ->
  0 <= r / 3600000 < 100 /\ 0 <= r / 60000 mod 60 < 60 /\
  0 <= r / 1000 mod 60 < 60 /\ 0 <= r mod 1000 < 1000 /\
  r = ((r / 3600000 * 60 + r / 60000 mod 60) * 60 + r / 1000 mod 60) * 1000
      + r mod 1000.
Proof. intros H. Z.to_euclidean_division_equations; lia. Qed.

Lemma time_compare (ra rb : Z) :
  0 <= ra < 86400000 -> 0 <= rb < 86400000 ->
  (ra ?= rb) =
    lex (ra / 3600000 ?= rb / 3600000)
      (lex (ra / 60000 mod 60 ?= rb / 60000 mod 60)
         (lex (ra / 1000 mod 60 ?= rb / 1000 mod 60)
            (ra mod 1000 ?= rb mod 1000))).
Proof.
  intros Ha Hb.
  destruct (time_fields ra Ha) as (_ & HMa & HSa & Hma & Ea).
  destruct (time_fields rb Hb) as (_ & HMb & HSb & Hmb & Eb).
  rewrite Ea at 1. rewrite Eb at 1.
  rewrite !compare_radix by done. by rewrite !lex_assoc.
Qed.

(** On instants with a four-digit year, the order of the texts is the
    order of the instants. *)
Theorem toISOString_compare (a b : Date) :
  four_digit_year a -> four_digit_year b ->
  text_compare (toISOString a) (toISOString b) = (a ?= b).
Proof.
  intros Ha Hb.
  pose proof (civil_four_digit a Ha) as Ca.
  pose proof (civil_four_digit b Hb) as Cb.
  assert (Hra : 0 <= a mod msPerDay < 86400000) by (apply Z.mod_pos_bound; done).
  assert (Hrb : 0 <= b mod msPerDay < 86400000) by (apply Z.mod_pos_bound; done).
  transitivity (lex (a / msPerDay ?= b / msPerDay) (a mod msPerDay ?= b mod msPerDay)).
  2:{ rewrite <- (compare_radix msPerDay) by done.
      f_equal; rewrite Z.mul_comm; symmetry; apply Z.div_mod; done. }
  rewrite <- (compare_monotone date_key) by apply date_key_mono.
  rewrite (time_compare _ _ Hra Hrb).
  unfold toISOString, date_key.
  destruct (civil_from_days (a / msPerDay)) as [[ya ma] da].
  destruct (civil_from_days (b / msPerDay)) as [[yb mb] db].
  destruct (Ca _ _ _ eq_refl) as (Hya & Hma & Hda).
  destruct (Cb _ _ _ eq_refl) as (Hyb & Hmb & Hdb).
  destruct (time_fields _ Hra) as (HHa & HMa & HSa & Hmsa & _).
  destruct (time_fields _ Hrb) as (HHb & HMb & HSb & Hmsb & _).
  unfold year_text.
  destruct (Z.leb_spec 0 ya); [|lia]. destruct (Z.leb_spec ya 9999); [|lia].
  destruct (Z.leb_spec 0 yb); [|lia]. destruct (Z.leb_spec yb 9999); [|lia].
  cbn [andb].
  rewrite !compare_radix by lia. rewrite !lex_assoc.
  rewrite !field_compare by (simpl; lia).
  rewrite text_compare_app by (by rewrite !length_digits).
  rewrite digits_compare by (simpl; lia).
  by rewrite text_compare_refl, lex_Eq_r.
Qed.

(** So a text with a four-digit year denotes one instant only. *)
Corollary toISOString_inj (a b : Date) :
  four_digit_year a -> four_digit_year b ->
  toISOString a = toISOString b -> a = b.
Proof.
  intros Ha Hb E. apply Z.compare_eq.
  by rewrite <- (toISOString_compare a b Ha Hb), E, text_compare_refl.
Qed.

(** *** Reading the text back *)

Lemma era_inverse (doe : Z) :
  0 <= doe < 146097 ->
  0 <= year_of_era doe <= 399 /\ 0 <= day_of_year doe <= 365 /\
  year_of_era doe * 365 + year_of_era doe / 4 - year_of_era doe / 100
    + day_of_year doe = doe.
Proof.
  intros H. unfold year_of_era, day_of_year.
  Z.to_euclidean_division_equations; lia.
Qed.

Lemma month_inverse (doy : Z) :
  0 <= doy <= 365 ->
  (153 * (if 2 <? month_of doy then month_of doy - 3 else month_of doy + 9) + 2) / 5
    + date_of doy - 1 = doy.
Proof.
  intros H. unfold month_of, date_of.
  destruct (Z.ltb_spec ((5 * doy + 2) / 153) 10).
  - destruct (Z.ltb_spec 2 ((5 * doy + 2) / 153 + 3));
      Z.to_euclidean_division_equations; lia.
  - destruct (Z.ltb_spec 2 ((5 * doy + 2) / 153 - 9));
      Z.to_euclidean_division_equations; lia.
Qed.

Lemma days_from_civil_from_days (z y m d : Z) :
  civil_from_days z = (y, m, d) -> days_from_civil y m d = z.
Proof.
  unfold civil_from_days, days_from_civil. intros [= <- <- <-].
  set (w := z + 719468).
  assert (Hd : 0 <= w mod 146097 < 146097) by (apply Z.mod_pos_bound; lia).
  destruct (era_inverse _ Hd) as (Hy & Hdoy & Hinv).
  pose proof (month_inverse _ Hdoy) as Hm.
  set (doe := w mod 146097) in *.
  set (m := month_of (day_of_year doe)) in *.
  replace (400 * (w / 146097) + year_of_era doe + (if m <=? 2 then 1 else 0)
           - (if m <=? 2 then 1 else 0))
    with (year_of_era doe + (w / 146097) * 400) by lia.
  rewrite Z.div_add, Z.mod_add by lia.
  rewrite Z.div_small, Z.mod_small by lia.
  rewrite Hm, Hinv. simpl.
  pose proof (Z.div_mod w 146097 ltac:(lia)). subst doe w. lia.
Qed.

Lemma digit_value_digit (n : Z) : 0 <= n <= 9 -> digit_value (digit n) = Some n.
Proof.
  intros H. unfold digit_value, digit.
  destruct (N.leb_spec 48 (Z.to_N (48 + n))); [|lia].
  destruct (N.leb_spec (Z.to_N (48 + n)) 57); [|lia].
  simpl. f_equal. lia.
Qed.

Lemma read_digits_more (k j : nat) (n acc : Z) (rest : jsstring) :
  0 <= n < 10 ^ Z.of_nat k ->
  read_digits (k + j) acc (digits k n ++ rest)
    = read_digits j (acc * 10 ^ Z.of_nat k + n) rest.
Proof.
  revert j n acc rest. induction k as [|k IH]; intros j n acc rest Hn.
  - simpl in *. f_equal. lia.
  - rewrite Nat2Z.inj_succ, Z.pow_succ_r in Hn |- * by lia.
    simpl digits. rewrite <- app_assoc. simpl app.
    replace (S k + j)%nat with (k + S j)%nat by lia.
    rewrite IH by (split; [apply Z.div_pos; lia | apply Z.div_lt_upper_bound; lia]).
    simpl. rewrite digit_value_digit by (pose proof (Z.mod_pos_bound n 10); lia).
    simpl. f_equal. pose proof (Z.div_mod n 10). lia.
Qed.

Lemma read_digits_digits (k : nat) (n : Z) (rest : jsstring) :
  0 <= n < 10 ^ Z.of_nat k ->
  read_digits k 0 (digits k n ++ rest) = Some (n, rest).
Proof.
  intros Hn. rewrite <- (Nat.add_0_r k) at 1.
  rewrite read_digits_more by done. simpl. f_equal.
Qed.

Lemma expect_app (lit rest : jsstring) : expect lit (lit ++ rest) = Some rest.
Proof.
  induction lit as [|c lit IH]; simpl; [by destruct rest|].
  by rewrite N.eqb_refl.
Qed.

(** The first character of a number is a digit, not a sign. *)
Lemma digits_head (k : nat) (n : Z) :
  0 <= n -> exists c s, digits (S k) n = c :: s /\ (48 <= c <= 57)%N.
Proof.
  revert n. induction k as [|k IH]; intros n Hn.
  - exists (digit (n mod 10)), []. split; [done|].
    unfold digit. pose proof (Z.mod_pos_bound n 10). lia.
  - destruct (IH (n / 10)) as (c & s & E & Hc); [apply Z.div_pos; lia|].
    exists c, (s ++ [digit (n mod 10)]). split; [|done].
    change (digits (S (S k)) n) with (digits (S k) (n / 10) ++ [digit (n mod 10)]).
    by rewrite E.
Qed.

Lemma read_year_plus (s : jsstring) :
  read_year (js "+" ++ s) = read_digits 6 0 s.
Proof. done. Qed.

Lemma read_year_minus (s : jsstring) :
  read_year (js "-" ++ s) =
    '(y, rest) ← read_digits 6 0 s; if y =? 0 then None else Some (- y, rest).
Proof. done. Qed.

Lemma read_year_text (y : Z) (rest : jsstring) :
  -999999 <= y <= 999999 -> read_year (year_text y ++ rest) = Some (y, rest).
Proof.
  intros Hy. unfold year_text.
  destruct (Z.leb_spec 0 y); cbn [andb].
  - destruct (Z.leb_spec y 9999).
    + destruct (digits_head 3 y) as (c & s & E & Hc); [done|].
      pose proof (read_digits_digits 4 y rest ltac:(simpl; lia)) as Hr.
      rewrite E in Hr |- *. simpl app in *. unfold read_year.
      destruct (N.eqb_spec c 43); [lia|]. destruct (N.eqb_spec c 45); [lia|].
      exact Hr.
    + destruct (Z.ltb_spec y 0); [lia|].
      rewrite <- app_assoc, read_year_plus, read_digits_digits by (simpl; lia).
      f_equal. f_equal. lia.
  - destruct (Z.ltb_spec y 0); [|lia].
    rewrite <- app_assoc, read_year_minus, read_digits_digits by (simpl; lia).
    simpl. destruct (Z.eqb_spec (Z.abs y) 0); [lia|]. f_equal. f_equal. lia.
Qed.

(** The fields of the date of a time value. *)
Lemma civil_time_value (t : Date) :
  time_value t ->
  forall y m d, civil_from_days (t / msPerDay) = (y, m, d) ->
  -999999 <= y <= 999999 /\ 1 <= m <= 12 /\ 1 <= d <= 31.
Proof.
  unfold time_value, msPerDay. intros Ht y m d Hc.
  assert (Hz : -100000000 <= t / 86400000 <= 100000000)
    by (Z.to_euclidean_division_equations; lia).
  set (z := t / 86400000) in *. clearbody z.
  assert (Hk : -2718209580 <= date_key z <= 2757600913).
  { split.
    - destruct (Z.eq_dec z (-100000000)) as [->|]; [by vm_compute|].
      pose proof (date_key_mono (-100000000) z ltac:(lia)) as H.
      change (date_key (-100000000)) with (-2718209580) in H. lia.
    - destruct (Z.eq_dec z 100000000) as [->|]; [by vm_compute|].
      pose proof (date_key_mono z 100000000 ltac:(lia)) as H.
      change (date_key 100000000) with 2757600913 in H. lia. }
  unfold date_key in Hk. rewrite Hc in Hk.
  unfold civil_from_days in Hc. injection Hc as Hy Hm Hd.
  assert (Hdoe : 0 <= (z + 719468) mod 146097 < 146097)
    by (apply Z.mod_pos_bound; lia).
  pose proof (era_bounds _ Hdoe) as [Hdoy _].
  pose proof (month_date_bounds _ Hdoy) as [Hm' Hd'].
  rewrite Hm in Hm'. rewrite Hd in Hd'. lia.
Qed.

Lemma bind_some {A B} (x : A) (f : A -> option B) : Some x ≫= f = f x.
Proof. done. Qed.

(** Reading the text of a Date gives the Date back. *)
Theorem Date_parse_toISOString (t : Date) :
  time_value t -> Date_parse (toISOString t) = Some t.
Proof.
  intros Ht. pose proof (civil_time_value t Ht) as Hc.
  assert (Hr : 0 <= t mod msPerDay < 86400000) by (apply Z.mod_pos_bound; done).
  destruct (time_fields _ Hr) as (HH & HM & HS & Hms & Et).
  assert (HH' : t mod msPerDay / 3600000 <= 23)
    by (Z.to_euclidean_division_equations; lia).
  assert (P : parse_date_time (toISOString t) = Some t).
  { unfold toISOString, parse_date_time.
    destruct (civil_from_days (t / msPerDay)) as [[y m] d] eqn:E.
    destruct (Hc _ _ _ eq_refl) as (Hy & Hm & Hd).
    rewrite read_year_text, bind_some by done. cbv beta iota.
    repeat (rewrite expect_app, bind_some; cbv beta iota;
            rewrite read_digits_digits, bind_some by (simpl; lia); cbv beta iota).
    change (expect (js "Z") (js "Z")) with (Some (@nil char16)).
    rewrite bind_some.
    assert (Ev : valid_date m d = true).
    { unfold valid_date. repeat (apply andb_true_intro; split); apply Z.leb_le; lia. }
    assert (Et' : valid_time (t mod msPerDay / 3600000)
                    (t mod msPerDay / 60000 mod 60)
                    (t mod msPerDay / 1000 mod 60) (t mod msPerDay mod 1000) = true).
    { unfold valid_time. apply orb_true_intro. left.
      repeat (apply andb_true_intro; split); apply Z.leb_le; lia. }
    rewrite Ev, Et'. cbn [andb].
    rewrite (days_from_civil_from_days _ _ _ _ E).
    pose proof (Z.div_mod t msPerDay ltac:(done)) as Hdm.
    replace (t / msPerDay * msPerDay
             + ((t mod msPerDay / 3600000 * 60 + t mod msPerDay / 60000 mod 60) * 60
                + t mod msPerDay / 1000 mod 60) * 1000 + t mod msPerDay mod 1000)
      with t by lia.
    unfold TimeClip. unfold time_value in Ht.
    by rewrite (proj2 (Z.leb_le _ _)) by lia. }
  unfold Date_parse. by rewrite P.
Qed.

(** The text of a Date is not the empty string: in JavaScript it is
    truthy. *)
Lemma toISOString_truthy (t : Date) : falsy (toISOString t) = false.
Proof.
  unfold toISOString. destruct (civil_from_days (t / msPerDay)) as [[y m] d].
  match goal with |- falsy ?s = false => destruct s eqn:E end; [|done].
  repeat (apply app_eq_nil in E as [_ E]). discriminate E.
Qed.

(** The instant a cell is kept as is the one its text reads as. *)
Corollary Date_parse_text (c : cell) :
  time_value (parse c) -> Date_parse (text c) = Some (parse c).
Proof. apply Date_parse_toISOString. Qed.

Example Date_parse_values :
  Date_parse (js "2026-12-31T00:00:00.000Z") = Some Examples.dec_2026 /\
  Date_parse (js "+010000-01-01T00:00:00.000Z") = Some Examples.year_10000 /\
  Date_parse (js "-000001-12-31T23:59:59.999Z") = Some (-62167219200001) /\
  Date_parse (js "2026-12-31") = Some Examples.dec_2026 /\
  Date_parse (js "2026-13-01T00:00:00.000Z") = None /\
  Date_parse (js "2026-12-31T25:00:00.000Z") = None /\
  Date_parse (js "2026-12-30T24:00:00.000Z") = Some Examples.dec_2026 /\
  Date_parse (js "-000000-01-01T00:00:00.000Z") = None /\
  Date_parse (js "+275760-09-13T00:00:00.001Z") = None /\
  Date_parse (js "tomorrow") = None.
Proof. by vm_compute. Qed.

(** Known values of [toISOString]: the epoch, the millisecond before
    it, a leap day, the last instant with a four-digit year and the
    first one after it, and the two ends of the range of Date. *)
Example toISOString_values :
  toISOString 0 = js "1970-01-01T00:00:00.000Z" /\
  toISOString (-1) = js "1969-12-31T23:59:59.999Z" /\
  toISOString 951782400000 = js "2000-02-29T00:00:00.000Z" /\
  toISOString 253402300799999 = js "9999-12-31T23:59:59.999Z" /\
  toISOString 253402300800000 = js "+010000-01-01T00:00:00.000Z" /\
  toISOString (-62167219200001) = js "-000001-12-31T23:59:59.999Z" /\
  toISOString 8640000000000000 = js "+275760-09-13T00:00:00.000Z" /\
  toISOString (-8640000000000000) = js "-271821-04-20T00:00:00.000Z".
Proof. by vm_compute. Qed.

End IsoOrder.

(** ** Facts about the SQL statements *)

Section Statements.
Import DatabaseService.

Lemma select_by_id_Some (i : jsstring) (table : Table) (r : Row.t) :
  select_by_id i table = Some r -> r ∈ table /\ Row.id r = i.
Proof.
  unfold select_by_id. intros H. apply find_some in H as [Hin Hid].
  split; [by apply list_elem_of_In|]. by apply bool_decide_eq_true in Hid.
Qed.

Lemma select_by_id_None (i : jsstring) (table : Table) :
  select_by_id i table = None <-> i ∉ map Row.id table.
Proof.
  unfold select_by_id. induction table as [|r table IH]; simpl.
  - split; [intros _; apply not_elem_of_nil|done].
  - rewrite not_elem_of_cons. case_bool_decide; split; try done.
    + intros [? _]. congruence.
    + intros H'. split; [congruence|]. by apply IH.
    + intros [_ H']. by apply IH.
Qed.

Lemma select_by_id_elem (i : jsstring) (table : Table) :
  i ∈ map Row.id table -> exists r, select_by_id i table = Some r.
Proof.
  intros H. destruct (select_by_id i table) as [r|] eqn:E; [eauto|].
  by apply select_by_id_None in E.
Qed.

(** With [id] a key, a row of the table is the one its id selects. *)
Lemma select_by_id_key (table : Table) (r : Row.t) :
  NoDup (map Row.id table) -> r ∈ table ->
  select_by_id (Row.id r) table = Some r.
Proof.
  unfold select_by_id. induction table as [|x table IH]; simpl.
  - intros _ H. by apply elem_of_nil in H.
  - intros Hnd Hin. apply NoDup_cons in Hnd as [Hx Hnd].
    apply elem_of_cons in Hin as [->|Hin].
    + by rewrite bool_decide_eq_true_2.
    + case_bool_decide as E; [|by apply IH].
      exfalso. apply Hx. rewrite E.
      apply list_elem_of_fmap. by exists r.
Qed.

Lemma filter_none {A} (f : A -> bool) (l : list A) :
  (forall y, y ∈ l -> f y = false) -> List.filter f l = [].
Proof.
  induction l as [|x l IH]; simpl; [done|].
  intros H. rewrite (H x) by apply list_elem_of_here.
  apply IH. intros y Hy. apply H. by apply list_elem_of_further.
Qed.

(** With [id] a key, exactly one row carries a given id of the table. *)
Lemma one_row_per_id (i : jsstring) (table : Table) (r : Row.t) :
  NoDup (map Row.id table) -> select_by_id i table = Some r ->
  List.filter (fun x => bool_decide (Row.id x = i)) table = [r].
Proof.
  unfold select_by_id. induction table as [|x table IH]; simpl; [done|].
  intros Hnd. apply NoDup_cons in Hnd as [Hx Hnd].
  case_bool_decide as E.
  - intros [= ->]. f_equal.
    apply filter_none. intros y Hy. apply bool_decide_eq_false.
    intros Hy'. apply Hx. rewrite E, <- Hy'.
    apply list_elem_of_fmap. by exists y.
  - by apply IH.
Qed.

Lemma map_id_update title description completed dueDate i (table : Table) :
  map Row.id (update title description completed dueDate i table) = map Row.id table.
Proof.
  unfold update. rewrite map_map. apply map_ext. intros r.
  by case_bool_decide.
Qed.

(** The row an id selects after UPDATE. *)
Lemma select_update title description completed dueDate i j (table : Table) :
  select_by_id j (update title description completed dueDate i table) =
    if bool_decide (j = i)
    then (fun r => Row.mk (Row.id r) title description completed
                     (Row.createdAt r) dueDate) <$> select_by_id j table
    else select_by_id j table.
Proof.
  unfold select_by_id, update. induction table as [|r table IH]; simpl.
  - by case_bool_decide.
  - destruct (decide (Row.id r = i)) as [Hi|Hi].
    + rewrite (bool_decide_eq_true_2 _ Hi). simpl.
      destruct (decide (Row.id r = j)) as [Hj|Hj].
      * rewrite (bool_decide_eq_true_2 _ Hj).
        by rewrite bool_decide_eq_true_2 by congruence.
      * rewrite (bool_decide_eq_false_2 _ Hj). exact IH.
    + rewrite (bool_decide_eq_false_2 _ Hi).
      destruct (decide (Row.id r = j)) as [Hj|Hj].
      * rewrite (bool_decide_eq_true_2 _ Hj).
        by rewrite bool_decide_eq_false_2 by congruence.
      * rewrite (bool_decide_eq_false_2 _ Hj). exact IH.
Qed.

(** UPDATE with the values a row already holds changes nothing. *)
Lemma update_same (i : jsstring) (table : Table) (r : Row.t) :
  NoDup (map Row.id table) -> select_by_id i table = Some r ->
  update (Row.title r) (Row.description r) (Row.completed r) (Row.dueDate r)
    i table = table.
Proof.
  intros Hnd Hsel. unfold update.
  rewrite <- (map_id table) at 2. apply map_ext_in. intros x Hx.
  case_bool_decide as E; [|done].
  apply list_elem_of_In in Hx.
  pose proof (select_by_id_key table x Hnd Hx) as Hx'.
  rewrite E, Hsel in Hx'. injection Hx' as ->. by destruct x.
Qed.

Lemma delete_absent (i : jsstring) (table : Table) :
  i ∉ map Row.id table -> delete i table = table.
Proof.
  unfold delete. induction table as [|r table IH]; simpl; [done|].
  rewrite not_elem_of_cons. intros [Hr Hi].
  rewrite bool_decide_eq_false_2 by congruence. simpl. by rewrite IH.
Qed.

Lemma or_empty_id (s : jsstring) : or_empty s = s.
Proof. by destruct s. Qed.

End Statements.

(** ** The invariant of the store *)

Section Invariant.
Import DatabaseService.

Lemma Table_ok_empty : Table_ok [].
Proof. split; constructor. Qed.

Lemma params_ok (task : Task.t) : Row_ok (params task).
Proof. unfold Row_ok, params. simpl. destruct (Task.completed task); auto. Qed.

Lemma addTask_ok (task : Task.t) (this : t) (table : Table) :
  db this = Some table -> Table_ok table ->
  exists table', db (addTask task this).2 = Some table' /\ Table_ok table'.
Proof.
  intros Hdb [Hnd Hok]. unfold addTask, insert. rewrite Hdb.
  destruct (select_by_id (Row.id (params task)) table) eqn:E; simpl.
  - exists table. by rewrite Hdb.
  - eexists. split; [done|]. split.
    + rewrite map_app. simpl. apply NoDup_app. split; [done|]. split.
      * intros x Hx ->%list_elem_of_singleton. by apply select_by_id_None in E.
      * apply NoDup_singleton.
    + apply Forall_app. split; [done|]. constructor; [apply params_ok|constructor].
Qed.

Lemma updateTask_ok now1 now2 i updates (this : t) (table : Table) :
  db this = Some table -> Table_ok table ->
  exists table',
    db (updateTask now1 now2 i updates this).2 = Some table' /\ Table_ok table'.
Proof.
  intros Hdb Hinv. pose proof Hinv as [Hnd Hok]. unfold updateTask.
  destruct (getTaskById now1 i this) as [[existing|]|]; simpl; [|by eauto..].
  match goal with |- context [Task.new ?a ?b ?c ?d ?e ?f ?g] =>
    destruct (Task.new a b c d e f g) as [task|] end;
    simpl; [|by eauto].
  rewrite Hdb. simpl. eexists. split; [done|]. split.
  - by rewrite map_id_update.
  - unfold update. apply Forall_fmap. eapply Forall_impl; [exact Hok|].
    intros r Hr. simpl. case_bool_decide; [|done].
    unfold Row_ok. simpl. destruct (Task.completed task); auto.
Qed.

Lemma deleteTask_ok i (this : t) (table : Table) :
  db this = Some table -> Table_ok table ->
  exists table', db (deleteTask i this).2 = Some table' /\ Table_ok table'.
Proof.
  intros Hdb [Hnd Hok]. unfold deleteTask. rewrite Hdb. simpl.
  eexists. split; [done|]. unfold delete. split.
  - clear Hok Hdb. induction table as [|r table IH]; simpl; [constructor|].
    apply NoDup_cons in Hnd as [Hr Hnd].
    destruct (negb _); [|by apply IH]. simpl. apply NoDup_cons. split; [|by apply IH].
    intros (y & Hy & Hin)%list_elem_of_fmap. apply Hr.
    apply list_elem_of_fmap. exists y. split; [done|].
    apply list_elem_of_In in Hin. apply filter_In in Hin as [Hin _].
    by apply list_elem_of_In.
  - apply Forall_forall. intros r Hr. rewrite Forall_forall in Hok. apply Hok.
    apply list_elem_of_In in Hr. apply filter_In in Hr as [Hr _].
    by apply list_elem_of_In.
Qed.

End Invariant.

(** ** Reading a row back *)

Section Reading.
Import DatabaseService.

Lemma readable_iff (now : Date) (r : Row.t) :
  readable now r <-> rowToTask now r = Ok (task_of_row r).
Proof.
  unfold readable, rowToTask, task_of_row. rewrite or_empty_id. split.
  - intros (Ht & Hi & Hd). apply new_ok; [done..|].
    apply validateDueDate_ok. intros d Hd'.
    destruct (Row.dueDate r) as [c|]; [|done]. injection Hd' as <-. by apply Hd.
  - intros H. apply new_inv in H as (_ & Ht & Hi & Hd). split; [done|]. split; [done|].
    intros c Hc. rewrite Hc in Hd.
    by apply (proj1 (validateDueDate_ok _ _) Hd).
Qed.

Lemma rowToTask_inv (now : Date) (r : Row.t) (task : Task.t) :
  rowToTask now r = Ok task -> task = task_of_row r /\ readable now r.
Proof.
  intros H. pose proof H as H'. unfold rowToTask in H'. rewrite or_empty_id in H'.
  apply new_inv in H' as (-> & _). split; [done|].
  apply readable_iff. exact H.
Qed.

(** A row whose due date is earlier than the clock is refused. *)
Lemma rowToTask_past_due (now : Date) (r : Row.t) (c : ISO.cell) :
  Row.dueDate r = Some c -> (ISO.parse c < now)%Z ->
  exists e,
    rowToTask now r = Err e /\
    (Task.validateTitle (Row.title r) = Ok () ->
     Task.validateId (Row.id r) = Ok () -> e = PastDueDate).
Proof.
  intros Hc Hlt. unfold rowToTask. rewrite Hc. simpl. by apply new_past_due.
Qed.

End Reading.

(** ** The operations of the store *)

Section Operations.
Import DatabaseService.

Lemma this_eta (this : t) (table : Table) : db this = Some table -> this = mk (Some table).
Proof. destruct this. simpl. by intros ->. Qed.

Lemma getTaskById_row now i (this : t) (table : Table) (r : Row.t) :
  db this = Some table -> select_by_id i table = Some r ->
  getTaskById now i this =
    match rowToTask now r with
    | Ok task => Ok (Some task)
    | Err error => Err (FailedToParseTask error)
    end.
Proof. unfold getTaskById. by intros -> ->. Qed.

Lemma getTaskById_absent now i (this : t) (table : Table) :
  db this = Some table -> i ∉ map Row.id table ->
  getTaskById now i this = Ok None.
Proof.
  unfold getTaskById. intros -> H. apply select_by_id_None in H. by rewrite H.
Qed.

Lemma updateTask_row now1 now2 i updates (this : t) (table : Table) (r : Row.t) :
  db this = Some table -> select_by_id i table = Some r ->
  updateTask now1 now2 i updates this =
    match rowToTask now1 r with
    | Err error => (Err (FailedToParseTask error), this)
    | Ok existing =>
        match merged now2 i updates existing with
        | Err error => (Err error, this)
        | Ok task =>
            (Ok (),
             mk (Some (update (Task.title task) (Task.description task)
                         (if Task.completed task then 1 else 0)%Z
                         (ISO.stamp <$> Task.dueDate task) i table)))
        end
    end.
Proof.
  intros Hdb Hsel. unfold updateTask, merged.
  rewrite (getTaskById_row _ _ _ _ _ Hdb Hsel).
  destruct (rowToTask now1 r) as [existing|]; [|done].
  by rewrite Hdb.
Qed.

Lemma stamp_parse (c : option ISO.cell) : ISO.stamp <$> (ISO.parse <$> c) = c.
Proof. by destruct c as [[]|]. Qed.

Lemma completed_column (r : Row.t) :
  Row_ok r -> (if (Row.completed r =? 1)%Z then 1 else 0)%Z = Row.completed r.
Proof. by intros [-> | ->]. Qed.

End Operations.

(** ** The claims about the store *)

Section StoreClaims.
Import DatabaseService.

(** C3: for an id that no row of an open store carries, [updateTask]
    is rejected with NotFound, [getTaskById] resolves with null and
    [deleteTask] resolves; none of the three changes the store.  The
    id is a well-formed string and the table one of SQLite, so that
    the id is compared as it is given. *)
Theorem absent_id_asymmetry (i : jsstring) (this : t) (table : Table) :
  db this = Some table -> Forall Row_text table -> isWellFormed i = true ->
  i ∉ map Row.id table ->
  (forall now1 now2 updates,
     updateTask now1 now2 i updates this = (Err (NotFound i), this)) /\
  (forall now, getTaskById now i this = Ok None) /\
  deleteTask i this = (Ok (), this).
Proof.
  intros Hdb _ _ Hi. split; [|split].
  - intros. unfold updateTask. by rewrite (getTaskById_absent _ _ _ _ Hdb Hi).
  - intros. by apply (getTaskById_absent _ _ _ _ Hdb Hi).
  - unfold deleteTask. rewrite Hdb, (delete_absent _ _ Hi).
    by rewrite (this_eta _ _ Hdb).
Qed.

Lemma absent_id_asymmetry_witness :
  updateTask Examples.mar_2026 Examples.mar_2026 (js "missing")
    Examples.title_New Examples.store12
    = (Err (NotFound (js "missing")), Examples.store12) /\
  getTaskById Examples.mar_2026 (js "missing") Examples.store12 = Ok None /\
  deleteTask (js "missing") Examples.store12 = (Ok (), Examples.store12).
Proof.
  assert (H1 : db Examples.store12 = Some [Examples.row1; Examples.row2])
    by reflexivity.
  assert (H2 : js "missing" ∉ map Row.id [Examples.row1; Examples.row2]).
  { apply select_by_id_None. vm_compute. reflexivity. }
  assert (H3 : Forall Row_text [Examples.row1; Examples.row2]).
  { repeat (constructor; [by vm_compute|]). constructor. }
  destruct (absent_id_asymmetry (js "missing") _ _ H1 H3 eq_refl H2)
    as (Hu & Hg & Hd).
  split; [apply Hu|]. split; [apply Hg|exact Hd].
Defined.

(** C5: in an open store where a row already carries the id of the
    task, [addTask] is rejected with DuplicateId and the store is left
    as it was: the row with that id is still the only one and still
    the same. *)
Theorem addTask_duplicate (task : Task.t) (this : t) (table : Table) (r : Row.t) :
  db this = Some table -> NoDup (map Row.id table) ->
  select_by_id (Task.id task) table = Some r ->
  addTask task this = (Err DuplicateId, this) /\
  exists table',
    db (addTask task this).2 = Some table' /\
    table' = table /\
    List.filter (fun x => bool_decide (Row.id x = Task.id task)) table' = [r].
Proof.
  intros Hdb Hnd Hsel.
  assert (H : addTask task this = (Err DuplicateId, this)).
  { unfold addTask, insert. rewrite Hdb. simpl. by rewrite Hsel. }
  split; [exact H|]. rewrite H. exists table. simpl.
  split; [done|]. split; [done|]. by apply one_row_per_id.
Qed.

Lemma addTask_duplicate_witness :
  addTask Examples.t1 Examples.store12 = (Err DuplicateId, Examples.store12) /\
  exists table',
    db (addTask Examples.t1 Examples.store12).2 = Some table' /\
    table' = [Examples.row1; Examples.row2] /\
    List.filter (fun x => bool_decide (Row.id x = Task.id Examples.t1)) table'
      = [Examples.row1].
Proof.
  apply (addTask_duplicate Examples.t1 Examples.store12
           [Examples.row1; Examples.row2] Examples.row1).
  - reflexivity.
  - apply NoDup_ListNoDup. vm_compute.
    repeat (constructor; [by (intros H; repeat (destruct H as [H|H]; [discriminate H|]))|]).
    constructor.
  - vm_compute. reflexivity.
Defined.

(** What a successful [updateTask] leaves in the row: the merge of
    the update with the row that was there. *)
Lemma updateTask_success now1 now2 i updates (this this' : t)
    (table : Table) (r : Row.t) :
  db this = Some table -> Forall Row_ok table ->
  select_by_id i table = Some r ->
  updateTask now1 now2 i updates this = (Ok (), this') ->
  exists table',
    db this' = Some table' /\
    select_by_id i table' =
      Some (Row.mk (Row.id r)
              (nullish (Partial.title updates) (Row.title r))
              (nullish (Partial.description updates) (Row.description r))
              (match Partial.completed updates with
               | Some b => if b then 1 else 0
               | None => Row.completed r
               end)%Z
              (Row.createdAt r)
              (match Partial.dueDate updates with
               | Some (Some d) => Some (ISO.stamp d)
               | Some None | None => Row.dueDate r
               end)) /\
    forall j, j <> i -> select_by_id j table' = select_by_id j table.
Proof.
  intros Hdb Hok Hsel. rewrite (updateTask_row _ _ _ _ _ _ _ Hdb Hsel).
  destruct (rowToTask now1 r) as [existing|] eqn:Hread; [|discriminate].
  apply rowToTask_inv in Hread as [-> _].
  destruct (merged _ _ _ _) as [task|] eqn:Hm; [|discriminate].
  apply new_inv in Hm as (-> & _). simpl. intros [= <-].
  eexists. split; [done|]. split.
  - rewrite select_update, bool_decide_eq_true_2, Hsel by done. simpl.
    assert (Hr : Row_ok r).
    { rewrite Forall_forall in Hok. apply Hok.
      by apply (select_by_id_Some _ _ _ Hsel). }
    f_equal. f_equal.
    + destruct (Partial.completed updates) as [b|]; simpl; [done|].
      by apply completed_column.
    + destruct (Partial.dueDate updates) as [[d|]|]; simpl;
        [done|apply stamp_parse..].
  - intros j Hj. by rewrite select_update, bool_decide_eq_false_2.
Qed.

Lemma update_text title description completed dueDate i (table : Table) :
  isWellFormed title = true -> isWellFormed description = true ->
  Forall Row_text table ->
  Forall Row_text (update title description completed dueDate i table).
Proof.
  intros Ht Hd H. unfold update. apply Forall_fmap. eapply Forall_impl; [exact H|].
  intros r Hr. simpl. destruct (bool_decide (Row.id r = i)); [|done].
  destruct Hr as (Hi & _ & _). by repeat split.
Qed.

Lemma updateTask_text now1 now2 i updates (this this' : t) (table : Table) :
  db this = Some table -> Forall Row_text table -> Partial.storable updates ->
  updateTask now1 now2 i updates this = (Ok (), this') ->
  exists table', db this' = Some table' /\ Forall Row_text table'.
Proof.
  intros Hdb Htext [Hut Hud] Hup.
  destruct (select_by_id i table) as [r|] eqn:Hsel.
  - rewrite (updateTask_row _ _ _ _ _ _ _ Hdb Hsel) in Hup.
    destruct (rowToTask now1 r) as [existing|] eqn:Hread; [|done].
    apply rowToTask_inv in Hread as [-> _].
    destruct (merged _ _ _ _) as [task|] eqn:Hm; [|done].
    apply new_inv in Hm as (-> & _). injection Hup as <-. simpl.
    eexists. split; [reflexivity|].
    destruct (select_by_id_Some _ _ _ Hsel) as [Hin _].
    destruct (proj1 (Forall_forall _ _) Htext r Hin) as (_ & Hrt & Hrd).
    apply update_text; [| |done].
    + destruct (Partial.title updates) as [x|] eqn:E; simpl; [by apply Hut|done].
    + destruct (Partial.description updates) as [x|] eqn:E; simpl;
        [by apply Hud|done].
  - unfold updateTask, getTaskById in Hup. by rewrite Hdb, Hsel in Hup.
Qed.

(** C1: after a successful [updateTask] of a stored row, the row has
    the same id and the same createdAt, every field the update does
    not supply has the value it had, and every supplied field has the
    supplied value (a dueDate supplied as null counts as not
    supplied); the other rows are as they were.  In particular, after
    a successful update that supplies only a title, the row has the
    new title and its description, completed, dueDate and createdAt
    are unchanged.  The strings supplied are well-formed and the table
    is one of SQLite, and so is the table afterwards. *)
Theorem update_keeps_unsupplied_fields now1 now2 i updates (this this' : t)
    (table : Table) (r : Row.t) :
  db this = Some table -> Table_ok table ->
  Forall Row_text table -> Partial.storable updates ->
  select_by_id i table = Some r ->
  updateTask now1 now2 i updates this = (Ok (), this') ->
  exists table' r',
    db this' = Some table' /\ select_by_id i table' = Some r' /\
    Forall Row_text table' /\
    Row.id r' = Row.id r /\
    Row.createdAt r' = Row.createdAt r /\
    Row.title r' = default (Row.title r) (Partial.title updates) /\
    Row.description r' = default (Row.description r) (Partial.description updates) /\
    (Partial.completed updates = None -> Row.completed r' = Row.completed r) /\
    (forall b, Partial.completed updates = Some b ->
               Row.completed r' = if b then 1 else 0)%Z /\
    (Partial.dueDate updates = None -> Row.dueDate r' = Row.dueDate r) /\
    (Partial.dueDate updates = Some None -> Row.dueDate r' = Row.dueDate r) /\
    (forall d, Partial.dueDate updates = Some (Some d) ->
               Row.dueDate r' = Some (ISO.stamp d)) /\
    (forall j, isWellFormed j = true -> j <> i ->
               select_by_id j table' = select_by_id j table) /\
    (forall title,
       updates = Partial.mk None (Some title) None None None None ->
       r' = Row.mk (Row.id r) title (Row.description r) (Row.completed r)
              (Row.createdAt r) (Row.dueDate r)).
Proof.
  intros Hdb [_ Hok] Htext Hstor Hsel Hup.
  destruct (updateTask_success _ _ _ _ _ _ _ _ Hdb Hok Hsel Hup)
    as (table' & Hdb' & Hsel' & Hother).
  destruct (updateTask_text _ _ _ _ _ _ _ Hdb Htext Hstor Hup)
    as (table'' & Hdb'' & Htext').
  rewrite Hdb' in Hdb''. injection Hdb'' as <-.
  eexists _, _. split; [exact Hdb'|]. split; [exact Hsel'|].
  split; [exact Htext'|]. simpl.
  repeat split; try done.
  - by intros ->.
  - by intros b ->.
  - by intros ->.
  - by intros ->.
  - by intros d ->.
  - intros j _ Hj. by apply Hother.
  - by intros title ->.
Qed.

Lemma update_keeps_unsupplied_fields_witness :
  exists table' r',
    db (updateTask Examples.mar_2026 Examples.mar_2026 (js "t1")
          Examples.title_New Examples.store12).2 = Some table' /\
    select_by_id (js "t1") table' = Some r' /\
    r' = Row.mk (js "t1") (js "New") (js "2 litres") 0
           (ISO.stamp Examples.jan_2026) (Some (ISO.stamp Examples.jun_2026)).
Proof.
  assert (Hup : updateTask Examples.mar_2026 Examples.mar_2026 (js "t1")
                  Examples.title_New Examples.store12
                = (Ok (), (updateTask Examples.mar_2026 Examples.mar_2026 (js "t1")
                             Examples.title_New Examples.store12).2))
    by (vm_compute; reflexivity).
  assert (Hok : Table_ok [Examples.row1; Examples.row2]).
  { split.
    - apply NoDup_ListNoDup. vm_compute.
      repeat (constructor;
              [by (intros H; repeat (destruct H as [H|H]; [discriminate H|]))|]).
      constructor.
    - repeat constructor. }
  assert (Htext : Forall Row_text [Examples.row1; Examples.row2]).
  { repeat (constructor; [by vm_compute|]). constructor. }
  assert (Hstor : Partial.storable Examples.title_New).
  { split; intros x [= <-]. reflexivity. }
  destruct (update_keeps_unsupplied_fields Examples.mar_2026 Examples.mar_2026
              (js "t1") Examples.title_New Examples.store12 _
              [Examples.row1; Examples.row2] Examples.row1
              eq_refl Hok Htext Hstor eq_refl Hup)
    as (table' & r' & Hdb & Hsel & _ & _ & _ & _ & _ & _ & _ & _ & _ & _ & _ & Htitle).
  exists table', r'. split; [exact Hdb|]. split; [exact Hsel|].
  exact (Htitle (js "New") eq_refl).
Defined.

(** C2, at a stored task whose due date has passed: the row of
    [store1] is due on 2026-06-01; on 2026-12-31 the update
    [{ title: "" }], whose merge the constructor refuses with
    EmptyTitle, is rejected with the error of the read of the stored
    row instead, "Failed to parse task: Error: Due date cannot be in
    the past". *)
Lemma update_of_unreadable_row_fails_differently :
  merged Examples.dec_2026 (js "t1") Examples.title_empty
    (task_of_row Examples.row1) = Err EmptyTitle /\
  updateTask Examples.dec_2026 Examples.dec_2026 (js "t1")
    Examples.title_empty Examples.store1
    = (Err (FailedToParseTask PastDueDate), Examples.store1).
Proof. by vm_compute. Qed.

(** X25.  When the stored row is read back and the constructor
    refuses the merge of the update with it, [updateTask] is rejected
    with the error of the constructor and the store is left as it
    was: the update is refused as a whole. *)
Theorem update_rejected_wholesale now1 now2 i updates (this : t)
    (table : Table) (r : Row.t) (existing : Task.t) (e : Error) :
  db this = Some table -> select_by_id i table = Some r ->
  rowToTask now1 r = Ok existing ->
  merged now2 i updates existing = Err e ->
  updateTask now1 now2 i updates this = (Err e, this).
Proof.
  intros Hdb Hsel Hread Hm.
  by rewrite (updateTask_row _ _ _ _ _ _ _ Hdb Hsel), Hread, Hm.
Qed.

Lemma update_rejected_wholesale_witness :
  updateTask Examples.mar_2026 Examples.mar_2026 (js "t1")
    Examples.title_empty Examples.store12 = (Err EmptyTitle, Examples.store12).
Proof.
  apply (update_rejected_wholesale _ _ _ _ _ [Examples.row1; Examples.row2]
           Examples.row1 Examples.t1); reflexivity.
Defined.

Lemma map_rowToTask_fails (clock : nat -> Date) (rows : list Row.t) (r : Row.t) :
  r ∈ rows ->
  (forall j, exists e, rowToTask (clock j) r = Err e) ->
  forall i, exists e, map_rowToTask clock i rows = Err e.
Proof.
  intros Hin Hfail. induction rows as [|x rows IH]; intros i.
  - by apply elem_of_nil in Hin.
  - simpl. apply elem_of_cons in Hin as [<-|Hin].
    + destruct (Hfail i) as [e ->]. by exists e.
    + destruct (rowToTask (clock i) x); [|by eauto].
      destruct (IH Hin (S i)) as [e ->]. by exists e.
Qed.

Lemma insert_sorted_perm (r : Row.t) (rows : list Row.t) :
  insert_sorted r rows ≡ₚ r :: rows.
Proof.
  induction rows as [|x rows IH]; simpl; [done|].
  destruct (text_leb _ _); [done|]. rewrite IH. apply Permutation_swap.
Qed.

(** ORDER BY returns the rows of the table, all of them. *)
Lemma order_by_createdAt_perm (table : Table) :
  order_by_createdAt table ≡ₚ table.
Proof.
  induction table as [|r table IH]; simpl; [done|].
  by rewrite insert_sorted_perm, IH.
Qed.

(** C9: every read of the store goes through [rowToTask], which is
    the constructor of [Task] with its three validations, run at the
    time of the read.  So a stored row whose due date is earlier than
    the clock is not returned: [getTaskById] on its id is rejected,
    [updateTask] on its id is rejected with the same error and leaves
    the store as it was, and [getTasks] is rejected as a whole.  The
    error wraps the one of the constructor, PastDueDate when the title
    and the id of the row are valid. *)
Theorem passed_due_date_blocks_reads (this : t) (table : Table) (r : Row.t)
    (c : ISO.cell) :
  db this = Some table ->
  select_by_id (Row.id r) table = Some r ->
  Row.dueDate r = Some c ->
  (forall now row,
     rowToTask now row =
       Task.new now (Row.id row) (Row.title row) (or_empty (Row.description row))
         (Row.completed row =? 1)%Z (ISO.parse <$> Row.dueDate row)
         (ISO.parse (Row.createdAt row))) /\
  (forall now,
     (ISO.parse c < now)%Z ->
     exists e,
       rowToTask now r = Err e /\
       (Task.validateTitle (Row.title r) = Ok () ->
        Task.validateId (Row.id r) = Ok () -> e = PastDueDate) /\
       getTaskById now (Row.id r) this = Err (FailedToParseTask e) /\
       forall now2 updates,
         updateTask now now2 (Row.id r) updates this
           = (Err (FailedToParseTask e), this)) /\
  (forall clock,
     (forall j, (ISO.parse c < clock j)%Z) ->
     exists e, getTasks clock this = Err (FailedToParseTasks e)).
Proof.
  intros Hdb Hsel Hdue. split; [done|]. split.
  - intros now Hlt.
    destruct (rowToTask_past_due now r c Hdue Hlt) as (e & He & Hkind).
    exists e. split; [exact He|]. split; [exact Hkind|]. split.
    + by rewrite (getTaskById_row _ _ _ _ _ Hdb Hsel), He.
    + intros. by rewrite (updateTask_row _ _ _ _ _ _ _ Hdb Hsel), He.
  - intros clock Hlt. unfold getTasks. rewrite Hdb.
    destruct (map_rowToTask_fails clock (order_by_createdAt table) r) with (i := 0)
      as [e ->].
    + rewrite order_by_createdAt_perm. by apply (select_by_id_Some _ _ _ Hsel).
    + intros j. destruct (rowToTask_past_due (clock j) r c Hdue (Hlt j)) as (e & He & _).
      by exists e.
    + by exists e.
Qed.

Lemma passed_due_date_blocks_reads_witness :
  getTaskById Examples.dec_2026 (js "t1") Examples.store12
    = Err (FailedToParseTask PastDueDate) /\
  updateTask Examples.dec_2026 Examples.dec_2026 (js "t1") Examples.title_New
    Examples.store12 = (Err (FailedToParseTask PastDueDate), Examples.store12) /\
  exists e, getTasks (fun _ => Examples.dec_2026) Examples.store12
            = Err (FailedToParseTasks e).
Proof.
  destruct (passed_due_date_blocks_reads Examples.store12
              [Examples.row1; Examples.row2] Examples.row1
              (ISO.stamp Examples.jun_2026) eq_refl eq_refl eq_refl)
    as (_ & Hone & Hall).
  assert (Hlt : (ISO.parse (ISO.stamp Examples.jun_2026) < Examples.dec_2026)%Z)
    by (vm_compute; reflexivity).
  destruct (Hone Examples.dec_2026 Hlt) as (e & He & _ & Hget & Hup).
  assert (e = PastDueDate) as -> by (vm_compute in He; congruence).
  split; [exact Hget|]. split; [apply Hup|].
  apply (Hall (fun _ => Examples.dec_2026)). intros _. exact Hlt.
Defined.


(** X27.  [updateTask] makes no difference between a dueDate
    supplied as null and a dueDate that is not supplied, so it never
    clears the due date of a stored row: whatever the outcome, the row
    keeps the due date it had.  When the stored task can be read back
    at the two times the update reads the clock (its due date has not
    passed), the update with [{ dueDate: null }] succeeds and leaves
    the store as it was. *)
Theorem null_cannot_clear_dueDate :
  (forall now1 now2 i a b c d e this,
     updateTask now1 now2 i (Partial.mk a b c d e (Some None)) this =
     updateTask now1 now2 i (Partial.mk a b c d e None) this) /\
  (forall now1 now2 i updates (this : t) (table : Table) (r : Row.t) (c : ISO.cell),
     db this = Some table -> select_by_id i table = Some r ->
     Row.dueDate r = Some c ->
     Partial.dueDate updates = Some None ->
     exists table' r',
       db (updateTask now1 now2 i updates this).2 = Some table' /\
       select_by_id i table' = Some r' /\
       Row.dueDate r' = Some c) /\
  (forall now1 now2 i (this : t) (table : Table) (r : Row.t) (c : ISO.cell),
     db this = Some table -> Table_ok table ->
     select_by_id i table = Some r ->
     Row.dueDate r = Some c ->
     readable now1 r -> readable now2 r ->
     updateTask now1 now2 i (Partial.mk None None None None None (Some None)) this
       = (Ok (), this)).
Proof.
  split; [done|]. split.
  - intros now1 now2 i updates this table r c Hdb Hsel Hdue Hnull.
    rewrite (updateTask_row _ _ _ _ _ _ _ Hdb Hsel).
    destruct (rowToTask now1 r) as [existing|] eqn:Hread; simpl; [|by eauto].
    apply rowToTask_inv in Hread as [-> _].
    destruct (merged _ _ _ _) as [task|] eqn:Hm; simpl; [|by eauto].
    apply new_inv in Hm as (-> & _).
    eexists _, _. split; [done|]. split.
    + by rewrite select_update, bool_decide_eq_true_2, Hsel.
    + simpl. rewrite Hnull. simpl. rewrite stamp_parse. exact Hdue.
  - intros now1 now2 i this table r c Hdb [Hnd Hok] Hsel Hdue Hr1 Hr2.
    rewrite (updateTask_row _ _ _ _ _ _ _ Hdb Hsel).
    rewrite (proj1 (readable_iff _ _) Hr1).
    destruct (select_by_id_Some _ _ _ Hsel) as [Hin Hid].
    assert (Hm : merged now2 i (Partial.mk None None None None None (Some None))
                   (task_of_row r) = Ok (task_of_row r)).
    { pose proof (proj1 (readable_iff _ _) Hr2) as H.
      unfold rowToTask in H. rewrite or_empty_id, Hid in H. exact H. }
    rewrite Hm. simpl. f_equal. rewrite (this_eta _ _ Hdb). do 2 f_equal.
    rewrite stamp_parse, completed_column
      by (rewrite Forall_forall in Hok; by apply Hok).
    by apply update_same.
Qed.

Lemma null_cannot_clear_dueDate_witness :
  (exists table' r',
     db (updateTask Examples.dec_2026 Examples.dec_2026 (js "t1")
           Examples.dueDate_null Examples.store1).2 = Some table' /\
     select_by_id (js "t1") table' = Some r' /\
     Row.dueDate r' = Some (ISO.stamp Examples.jun_2026)) /\
  updateTask Examples.mar_2026 Examples.mar_2026 (js "t1")
    Examples.dueDate_null Examples.store12 = (Ok (), Examples.store12).
Proof.
  destruct null_cannot_clear_dueDate as (_ & Hkeep & Hsucc). split.
  - apply (Hkeep Examples.dec_2026 Examples.dec_2026 (js "t1")
             Examples.dueDate_null Examples.store1 [Examples.row1] Examples.row1);
      reflexivity.
  - apply (Hsucc Examples.mar_2026 Examples.mar_2026 (js "t1") Examples.store12
             [Examples.row1; Examples.row2] Examples.row1
             (ISO.stamp Examples.jun_2026)).
    + reflexivity.
    + split.
      * apply NoDup_ListNoDup. vm_compute.
        repeat (constructor;
                [by (intros H; repeat (destruct H as [H|H]; [discriminate H|]))|]).
        constructor.
      * repeat constructor.
    + reflexivity.
    + reflexivity.
    + split; [reflexivity|]. split; [reflexivity|].
      intros c [= <-]. vm_compute. discriminate.
    + split; [reflexivity|]. split; [reflexivity|].
      intros c [= <-]. vm_compute. discriminate.
Defined.

Lemma text_leb_total (a b : jsstring) :
  text_leb a b = false -> text_leb b a = true.
Proof.
  unfold text_leb. rewrite (text_compare_antisym a b).
  by destruct (text_compare a b).
Qed.

Lemma insert_sorted_HdRel (x r : Row.t) (rows : list Row.t) :
  text_le x r -> HdRel text_le x rows -> HdRel text_le x (insert_sorted r rows).
Proof.
  intros Hxr Hhd. destruct rows as [|y rows]; simpl; [by constructor|].
  destruct (text_leb _ _); constructor; [done|]. by inversion Hhd.
Qed.

Lemma insert_sorted_Sorted (r : Row.t) (rows : list Row.t) :
  Sorted text_le rows -> Sorted text_le (insert_sorted r rows).
Proof.
  induction 1 as [|x rows Hs IH Hhd]; simpl; [by repeat constructor|].
  destruct (text_leb _ _) eqn:E.
  - constructor; [by constructor|]. by constructor.
  - constructor; [exact IH|].
    apply insert_sorted_HdRel; [|done]. by apply text_leb_total.
Qed.

(** ORDER BY returns the rows in ascending order of the text. *)
Lemma order_by_createdAt_Sorted (table : Table) :
  Sorted text_le (order_by_createdAt table).
Proof.
  induction table as [|r table IH]; simpl; [constructor|].
  by apply insert_sorted_Sorted.
Qed.

Lemma Sorted_impl_elem {A} (R R' : relation A) (l : list A) :
  (forall a b, a ∈ l -> b ∈ l -> R a b -> R' a b) -> Sorted R l -> Sorted R' l.
Proof.
  intros H Hs. induction Hs as [|x l Hs IH Hhd]; [constructor|].
  constructor.
  - apply IH. intros a b Ha Hb. apply H; by apply list_elem_of_further.
  - destruct Hhd as [|y l' Hxy]; constructor.
    apply H; [apply list_elem_of_here| |done].
    apply list_elem_of_further, list_elem_of_here.
Qed.

Lemma Sorted_app_last {A} (R : relation A) (l : list A) (a : A) :
  Sorted R l -> (forall x, last l = Some x -> R x a) -> Sorted R (l ++ [a]).
Proof.
  induction 1 as [|x l Hs IH Hhd]; intros Hlast; simpl.
  - by repeat constructor.
  - constructor.
    + apply IH. intros y Hy. apply Hlast. destruct l; [done|]. exact Hy.
    + destruct l as [|y l]; simpl.
      * constructor. by apply Hlast.
      * constructor. by inversion Hhd.
Qed.

Lemma Sorted_rev {A} (R : relation A) (l : list A) :
  Sorted R l -> Sorted (flip R) (rev l).
Proof.
  induction 1 as [|x l Hs IH Hhd]; simpl; [constructor|].
  apply Sorted_app_last; [exact IH|].
  intros y Hy. destruct l as [|z l]; [done|].
  simpl in Hy. rewrite last_snoc in Hy. injection Hy as <-. by inversion Hhd.
Qed.

Lemma map_rowToTask_ok (clock : nat -> Date) (rows : list Row.t) :
  forall i,
    (forall j r, rows !! j = Some r -> readable (clock (i + j)) r) ->
    map_rowToTask clock i rows = Ok (map task_of_row rows).
Proof.
  induction rows as [|x rows IH]; intros i H; simpl; [done|].
  pose proof (H 0 x eq_refl) as Hx. rewrite Nat.add_0_r in Hx.
  rewrite (proj1 (readable_iff _ _) Hx). simpl.
  rewrite (IH (S i)); [done|].
  intros j r Hj. replace (S i + j) with (i + S j) by lia. by apply H.
Qed.

(** C4, at two store states.  On 2026-12-31 [getTasks] on [store12],
    where t1 was due on 2026-06-01, is rejected and returns no task.
    In [store23] the task t3 was created on 10000-01-01 and t2 on
    2026-03-01, and [getTasks] gives t2 first: the text of the year
    10000 starts with a plus sign, which sorts before every digit. *)
Lemma getTasks_not_always_newest_first :
  getTasks (fun _ => Examples.dec_2026) Examples.store12
    = Err (FailedToParseTasks PastDueDate) /\
  getTasks (fun _ => Examples.year_10000) Examples.store23
    = Ok [Examples.t2; Examples.t3] /\
  (Task.createdAt Examples.t2 < Task.createdAt Examples.t3)%Z.
Proof. by vm_compute. Qed.

(** X26.  On an empty store [getTasks] resolves with the empty
    list.  On an open store whose rows can all be read back at the
    time each is reconstructed, [getTasks] resolves with the
    reconstructed tasks of all the rows, in descending order of the
    stored text of createdAt; when every createdAt has a four-digit
    year (0000 to 9999), that is the descending order of createdAt,
    the most recently created task first. *)
Theorem getTasks_newest_first :
  (forall clock, getTasks clock (mk (Some [])) = Ok []) /\
  (forall clock (this : t) (table : Table),
     db this = Some table ->
     (forall j r, order_by_createdAt table !! j = Some r -> readable (clock j) r) ->
     exists tasks,
       getTasks clock this = Ok tasks /\
       tasks ≡ₚ map task_of_row table /\
       Sorted text_newer_first tasks /\
       ((forall r, r ∈ table -> ISO.four_digit_year (ISO.parse (Row.createdAt r))) ->
        StronglySorted newer_first tasks)).
Proof.
  split; [done|].
  intros clock this table Hdb Hread. unfold getTasks. rewrite Hdb.
  rewrite (map_rowToTask_ok clock (order_by_createdAt table) 0) by exact Hread.
  eexists. split; [done|].
  assert (Hsorted : Sorted text_newer_first
                      (rev (map task_of_row (order_by_createdAt table)))).
  { apply (Sorted_rev (fun a b => text_newer_first b a)).
    apply (Sorted_fmap task_of_row text_le); [done|].
    apply order_by_createdAt_Sorted. }
  split; [|split].
  - rewrite <- Permutation_rev. apply Permutation_map, order_by_createdAt_perm.
  - exact Hsorted.
  - intros Hyear. apply Sorted_StronglySorted.
    { intros a b c. unfold newer_first. lia. }
    eapply Sorted_impl_elem; [|exact Hsorted]. clear Hsorted.
    intros a b Ha Hb. unfold text_newer_first, newer_first, text_leb.
    assert (Hy : forall x, x ∈ rev (map task_of_row (order_by_createdAt table)) ->
                           ISO.four_digit_year (Task.createdAt x)).
    { intros x Hx. apply list_elem_of_In, in_rev, list_elem_of_In in Hx.
      apply list_elem_of_fmap in Hx as (r & -> & Hr).
      rewrite order_by_createdAt_perm in Hr. by apply Hyear. }
    rewrite (toISOString_compare _ _ (Hy b Hb) (Hy a Ha)).
    destruct (Z.compare_spec (Task.createdAt b) (Task.createdAt a)); [lia|lia|done].
Qed.

Lemma getTasks_newest_first_witness :
  exists tasks,
    getTasks (fun _ => Examples.mar_2026) Examples.store12 = Ok tasks /\
    tasks ≡ₚ map task_of_row [Examples.row1; Examples.row2] /\
    Sorted text_newer_first tasks /\
    StronglySorted newer_first tasks.
Proof.
  destruct (proj2 getTasks_newest_first (fun _ => Examples.mar_2026)
              Examples.store12 [Examples.row1; Examples.row2] eq_refl)
    as (tasks & Hget & Hperm & Htext & Hinstant).
  - assert (E : order_by_createdAt [Examples.row1; Examples.row2]
                = [Examples.row1; Examples.row2]) by (vm_compute; reflexivity).
    rewrite E. intros [|[|j]] r [= <-].
    + split; [reflexivity|]. split; [reflexivity|].
      intros c [= <-]. vm_compute. discriminate.
    + split; [reflexivity|]. split; [reflexivity|]. intros c [=].
  - exists tasks. split; [exact Hget|]. split; [exact Hperm|]. split; [exact Htext|].
    apply Hinstant. apply Forall_forall.
    repeat (constructor; [vm_compute; split; discriminate|]). constructor.
Defined.

(** The example of the specification: t1 is added, then t2, which was
    created later; [getTasks] gives t2, then t1. *)
Example getTasks_t2_then_t1 :
  (addTask Examples.t2 (addTask Examples.t1 Examples.empty_store).2).2
    = Examples.store12 /\
  getTasks (fun _ => Examples.mar_2026) Examples.store12
    = Ok [Examples.t2; Examples.t1].
Proof. by vm_compute. Qed.

End StoreClaims.

(** ** Cloning *)

Section Cloning.
Import Objects.

Lemma snapshot_inv (h : Heap) (l : ref) (this : TaskObject) (v : Task.t) :
  tasks h !! l = Some this -> snapshot h l = Some v ->
  dates h !! createdAt this = Some (Task.createdAt v) /\
  match dueDate this with
  | Some d => exists x, dates h !! d = Some x /\ Task.dueDate v = Some x
  | None => Task.dueDate v = None
  end /\
  v = Task.mk (id this) (title this) (description this) (completed this)
        (Task.createdAt v) (Task.dueDate v).
Proof.
  intros Hl. unfold snapshot. rewrite Hl. simpl.
  destruct (dates h !! createdAt this) as [created|]; [|done]. simpl.
  destruct (dueDate this) as [d|]; simpl.
  - destruct (dates h !! d) as [x|]; [|done]. simpl. intros [= <-]. simpl. eauto.
  - intros [= <-]. simpl. eauto.
Qed.

(** A task object and its dates are read the same in a heap that
    keeps them. *)
Lemma snapshot_frame (h h' : Heap) (l : ref) (v : Task.t) :
  snapshot h l = Some v ->
  tasks h' !! l = tasks h !! l ->
  (forall d x, dates h !! d = Some x -> dates h' !! d = Some x) ->
  snapshot h' l = Some v.
Proof.
  unfold snapshot. intros Hs Ht Hd. rewrite Ht.
  destruct (tasks h !! l) as [o|]; [|done]. simpl in *.
  destruct (dates h !! createdAt o) as [created|] eqn:Hc; [|done].
  rewrite (Hd _ _ Hc). simpl in *.
  destruct (dueDate o) as [d|]; [|done].
  destruct (dates h !! d) as [x|] eqn:Hx; [|done].
  by rewrite (Hd _ _ Hx).
Qed.

Lemma fresh_date (h : Heap) : dates h !! fresh (dom (dates h)) = None.
Proof. apply not_elem_of_dom, is_fresh. Qed.

Lemma fresh_task (h : Heap) : tasks h !! fresh (dom (tasks h)) = None.
Proof. apply not_elem_of_dom, is_fresh. Qed.

Lemma insert_fresh_keeps (m : gmap ref Date) (l d : ref) (x y : Date) :
  m !! l = None -> m !! d = Some x -> <[l := y]> m !! d = Some x.
Proof. intros Hl Hd. rewrite lookup_insert_ne; [done|]. congruence. Qed.

(** What [clone] does when the validations of the constructor pass:
    two new Date objects (one when there is no due date), then a new
    Task object that refers to them. *)
Lemma clone_ok (now : Date) (h : Heap) (l : ref) (this : TaskObject) (v : Task.t) :
  tasks h !! l = Some this -> snapshot h l = Some v ->
  Task.validateTitle (Task.title v) = Ok () ->
  Task.validateId (Task.id v) = Ok () ->
  (forall d, Task.dueDate v = Some d -> (now <= d)%Z) ->
  exists c h' copy,
    clone now this h = (Ok c, h') /\
    tasks h !! c = None /\
    tasks h' = <[c := copy]> (tasks h) /\
    dates h !! createdAt copy = None /\
    (forall d, dueDate copy = Some d -> dates h !! d = None) /\
    (forall d x, dates h !! d = Some x -> dates h' !! d = Some x) /\
    snapshot h' c = Some v.
Proof.
  intros Hl Hs Htitle Hid Hdue.
  destruct (snapshot_inv _ _ _ _ Hl Hs) as (Hcreated & Hd & Hv).
  rewrite Hv in Htitle, Hid. simpl in Htitle, Hid.
  apply validateDueDate_ok in Hdue.
  unfold clone. destruct (dueDate this) as [d|] eqn:Ed.
  - destruct Hd as (x & Hx & Hvx). rewrite Hvx in Hdue.
    assert (G1 : getTime h d = x) by (unfold getTime; by rewrite Hx).
    unfold newDate at 1. cbn [dates tasks]. rewrite G1.
    set (d' := fresh (dom (dates h))).
    assert (Hd' : dates h !! d' = None) by apply fresh_date.
    set (h1 := mkHeap (<[d' := x]> (dates h)) (tasks h)).
    assert (G2 : getTime h1 (createdAt this) = Task.createdAt v).
    { unfold getTime. simpl.
      by rewrite (insert_fresh_keeps _ _ _ _ _ Hd' Hcreated). }
    unfold newDate. rewrite G2.
    set (c' := fresh (dom (dates h1))).
    assert (Hc' : dates h1 !! c' = None) by apply fresh_date.
    assert (Hne : c' <> d').
    { intros E. rewrite E in Hc'. simpl in Hc'. by rewrite lookup_insert_eq in Hc'. }
    assert (Hc'h : dates h !! c' = None).
    { simpl in Hc'. by rewrite lookup_insert_ne in Hc'. }
    set (h2 := mkHeap (<[c' := Task.createdAt v]> (dates h1)) (tasks h1)).
    assert (L1 : dates h2 !! c' = Some (Task.createdAt v))
      by (simpl; by rewrite lookup_insert_eq).
    assert (L2 : dates h2 !! d' = Some x).
    { simpl. by rewrite lookup_insert_ne, lookup_insert_eq. }
    unfold newTask. cbn [fmap option_fmap option_map].
    unfold getTime. rewrite L1, L2.
    rewrite (new_ok _ _ _ _ _ _ _ Htitle Hid Hdue).
    eexists _, _, _. split; [reflexivity|]. cbn [tasks dates createdAt dueDate].
    split; [apply (fresh_task h)|]. split; [done|]. split; [exact Hc'h|]. split.
    { by intros ? [= <-]. }
    split.
    { intros e y He. simpl.
      apply insert_fresh_keeps; [by rewrite lookup_insert_ne|].
      by apply insert_fresh_keeps. }
    unfold snapshot. subst h2 h1. cbn [tasks dates].
    rewrite lookup_insert_eq. simpl. rewrite lookup_insert_eq. simpl.
    rewrite lookup_insert_ne, lookup_insert_eq by done. simpl.
    rewrite Hv. simpl. by rewrite Hvx.
  - rewrite Hd in Hdue.
    assert (G2 : getTime h (createdAt this) = Task.createdAt v)
      by (unfold getTime; by rewrite Hcreated).
    unfold newDate. rewrite G2.
    set (c' := fresh (dom (dates h))).
    assert (Hc'h : dates h !! c' = None) by apply fresh_date.
    set (h2 := mkHeap (<[c' := Task.createdAt v]> (dates h)) (tasks h)).
    assert (L1 : dates h2 !! c' = Some (Task.createdAt v))
      by (simpl; by rewrite lookup_insert_eq).
    unfold newTask. cbn [fmap option_fmap option_map].
    unfold getTime. rewrite L1.
    rewrite (new_ok _ _ _ _ _ _ _ Htitle Hid Hdue).
    eexists _, _, _. split; [reflexivity|]. cbn [tasks dates createdAt dueDate].
    split; [apply (fresh_task h)|]. split; [done|]. split; [exact Hc'h|]. split.
    { by intros ? [=]. }
    split.
    { intros e y He. simpl. by apply insert_fresh_keeps. }
    unfold snapshot. subst h2. cbn [tasks dates].
    rewrite lookup_insert_eq. simpl. rewrite lookup_insert_eq. simpl.
    rewrite Hv. simpl. by rewrite Hd.
Qed.

(** C8, at a Task entity whose due date has passed: the Task object
    of [heap1] is t1, due on 2026-06-01; on 2026-12-31 its [clone]
    throws "Due date cannot be in the past" instead of returning a
    copy, for the copy goes through the constructor. *)
Lemma clone_fails_after_due_date :
  snapshot Examples.heap1 1%positive = Some Examples.t1 /\
  (clone Examples.dec_2026 Examples.object1 Examples.heap1).1 = Err PastDueDate.
Proof. by vm_compute. Qed.

(** X28.  For a Task object with a valid title and id whose
    due date is null or not earlier than the clock, [clone] returns a
    new Task object with the same values of the six fields, whose
    createdAt and dueDate are new Date objects; the original is as it
    was, and it stays so when the dueDate of the copy is then changed,
    be it by changing the Date object in place, by assigning the
    field or by [setDueDate]. *)
Theorem clone_is_independent (now : Date) (h : Heap) (l : ref)
    (this : TaskObject) (v : Task.t) :
  tasks h !! l = Some this -> snapshot h l = Some v ->
  Task.validateTitle (Task.title v) = Ok () ->
  Task.validateId (Task.id v) = Ok () ->
  (forall d, Task.dueDate v = Some d -> (now <= d)%Z) ->
  exists c h' copy,
    clone now this h = (Ok c, h') /\
    c <> l /\ tasks h !! c = None /\ tasks h' !! c = Some copy /\
    snapshot h' c = Some v /\
    snapshot h' l = Some v /\
    dates h !! createdAt copy = None /\
    (forall d, dueDate copy = Some d -> dates h !! d = None) /\
    (forall d value,
       dueDate copy = Some d -> snapshot (setTime d value h') l = Some v) /\
    (forall date, snapshot (assign_dueDate c date h') l = Some v) /\
    (forall now' date, snapshot (setDueDate now' date c h').2 l = Some v).
Proof.
  intros Hl Hs Htitle Hid Hdue.
  destruct (clone_ok now h l this v Hl Hs Htitle Hid Hdue)
    as (c & h' & copy & Hclone & Hc & Htasks & Hcreated & Hdates & Hkeep & Hcopy).
  assert (Hne : c <> l) by congruence.
  assert (Hl' : tasks h' !! l = tasks h !! l)
    by (rewrite Htasks; by apply lookup_insert_ne).
  assert (Hassign : forall date, snapshot (assign_dueDate c date h') l = Some v).
  { intros date. apply (snapshot_frame h); [done| |done].
    simpl. by rewrite lookup_alter_ne. }
  exists c, h', copy. split; [exact Hclone|]. split; [exact Hne|].
  split; [exact Hc|]. split; [by rewrite Htasks, lookup_insert_eq|].
  split; [exact Hcopy|]. split; [by apply (snapshot_frame h)|].
  split; [exact Hcreated|]. split; [exact Hdates|]. split; [|split].
  - intros d value Hd. apply (snapshot_frame h); [done|done|].
    intros e x He. simpl. rewrite lookup_insert_ne; [by apply Hkeep|].
    intros <-. specialize (Hdates _ Hd). congruence.
  - exact Hassign.
  - intros now' date. unfold setDueDate.
    destruct (Task.validateDueDate _ _); simpl; [apply Hassign|].
    by apply (snapshot_frame h).
Qed.

Lemma clone_is_independent_witness :
  exists c h' copy,
    clone Examples.mar_2026 Examples.object1 Examples.heap1 = (Ok c, h') /\
    c <> 1%positive /\
    tasks h' !! c = Some copy /\
    snapshot h' c = Some Examples.t1 /\
    snapshot h' 1%positive = Some Examples.t1 /\
    (forall d value,
       dueDate copy = Some d ->
       snapshot (setTime d value h') 1%positive = Some Examples.t1).
Proof.
  destruct (clone_is_independent Examples.mar_2026 Examples.heap1 1%positive
              Examples.object1 Examples.t1)
    as (c & h' & copy & H1 & H2 & _ & H3 & H4 & H5 & _ & _ & H6 & _).
  - reflexivity.
  - reflexivity.
  - reflexivity.
  - reflexivity.
  - intros d [= <-]. vm_compute. discriminate.
  - exists c, h', copy. repeat split; assumption.
Defined.

End Cloning.

(** ** Scenarios of the specification *)

Section Scenarios.
Import DatabaseService.

(** [complete], [reopen], [complete] leaves the task completed, and a
    completed task is never overdue, whatever its due date. *)
Example complete_reopen_complete (this : Task.t) (now : Date) :
  Task.completed (Task.complete (Task.reopen (Task.complete this))) = true /\
  Task.isOverdue now (Task.complete this) = false.
Proof.
  split; [done|]. unfold Task.isOverdue. simpl. by destruct (Task.dueDate this).
Qed.

(** The default arguments of the constructor. *)
Example new_with_defaults :
  Task.new_default Examples.jan_2026 Examples.jan_2026 (js "t1") (js "Buy milk")
    = Ok Examples.milk.
Proof. reflexivity. Qed.

(** Add a task, count, complete it through [updateTask], count the
    completed ones, delete it, count again. *)
Example end_to_end :
  let s1 := (addTask Examples.milk Examples.empty_store).2 in
  let s2 := (updateTask Examples.mar_2026 Examples.mar_2026 (js "t1")
               Examples.completed_true s1).2 in
  let s3 := (deleteTask (js "t1") s2).2 in
  getTaskCount s1 = Ok 1 /\
  getCompletedCount s1 = Ok 0 /\
  getCompletedCount s2 = Ok 1 /\
  getTaskCount s3 = Ok 0.
Proof. by vm_compute. Qed.

(** The life cycle: [initialize] opens the store, [close] closes it,
    and closing twice is harmless. *)
Example life_cycle (stored : Table) :
  let s0 := mk None in
  let s1 := (initialize stored s0).2 in
  let s2 := (close s1).2 in
  db s1 = Some stored /\ db s2 = None /\ close s2 = (Ok (), s2).
Proof. done. Qed.

(** Before [initialize] and after [close] every data operation is
    rejected with NotInitialized. *)
Example not_initialized (task : Task.t) (i : jsstring) (updates : Partial.t)
    (now1 now2 : Date) (clock : nat -> Date) :
  let closed := mk None in
  addTask task closed = (Err NotInitialized, closed) /\
  getTasks clock closed = Err NotInitialized /\
  getTaskById now1 i closed = Err NotInitialized /\
  updateTask now1 now2 i updates closed = (Err NotInitialized, closed) /\
  deleteTask i closed = (Err NotInitialized, closed) /\
  getTaskCount closed = Err NotInitialized /\
  clearAll closed = (Err NotInitialized, closed) /\
  close closed = (Ok (), closed).
Proof. by repeat split. Qed.

End Scenarios.

(** ** The methods of the entity together *)

Section Entity.

(** X1.  The methods of [Task] keep the title and the id valid: after
    [complete], [reopen], [updateTitle], [updateDescription] and
    [setDueDate], whether the call returned or threw, the title and
    the id of the entity still pass the validation of the
    constructor. *)
Theorem methods_keep_task_valid (this : Task.t) (now : Date)
    (title description : jsstring) (date : option Date) :
  Task.valid this ->
  Task.valid (Task.complete this) /\
  Task.valid (Task.reopen this) /\
  Task.valid (Task.updateTitle title this).2 /\
  Task.valid (Task.updateDescription description this) /\
  Task.valid (Task.setDueDate now date this).2.
Proof.
  intros [Ht Hi]. repeat split; try done.
  - unfold Task.updateTitle. by destruct (Task.validateTitle title) as [[]|] eqn:E.
  - unfold Task.updateTitle. by destruct (Task.validateTitle title).
  - unfold Task.setDueDate. by destruct (Task.validateDueDate now date).
  - unfold Task.setDueDate. by destruct (Task.validateDueDate now date).
Qed.

Lemma methods_keep_task_valid_witness :
  Task.valid Examples.t1 /\
  Task.valid (Task.updateTitle Examples.spaces256 Examples.t1).2 /\
  Task.valid (Task.setDueDate Examples.dec_2026 (Some Examples.jan_2026)
                Examples.t1).2.
Proof.
  assert (H : Task.valid Examples.t1) by (by vm_compute).
  split; [exact H|].
  pose proof (methods_keep_task_valid Examples.t1 Examples.dec_2026
                Examples.spaces256 [] (Some Examples.jan_2026) H) as P.
  split; [exact (proj1 (proj2 (proj2 P)))|exact (proj2 (proj2 (proj2 (proj2 P))))].
Defined.

Lemma isOverdue_false (now : Date) (task : Task.t) :
  (forall d, Task.dueDate task = Some d -> (now <= d)%Z) ->
  Task.isOverdue now task = false.
Proof.
  intros H. unfold Task.isOverdue. destruct (Task.dueDate task) as [d|]; [|done].
  destruct (Task.completed task); [done|]. apply Z.ltb_ge. by apply H.
Qed.

(** X2.  What the constructor or [setDueDate] accepted at the time
    [now] is not overdue at that time, nor at any earlier reading of
    the clock: both compare the due date with the clock strictly, so a
    due date equal to the clock is accepted and is not overdue.  A
    task the constructor returns has a valid title and id. *)
Theorem accepted_task_is_not_overdue (now now' : Date) :
  (now' <= now)%Z ->
  (forall id title description completed dueDate createdAt task,
     Task.new now id title description completed dueDate createdAt = Ok task ->
     Task.valid task /\ Task.isOverdue now' task = false) /\
  (forall date this this',
     Task.setDueDate now date this = (Ok (), this') ->
     Task.isOverdue now' this' = false).
Proof.
  intros Hle. split.
  - intros i title description completed dueDate createdAt task H.
    apply new_inv in H as (-> & Ht & Hi & Hd). split; [done|].
    apply isOverdue_false. simpl. intros d ->.
    pose proof (proj1 (validateDueDate_ok _ _) Hd d eq_refl). lia.
  - intros date this this'. unfold Task.setDueDate.
    destruct (Task.validateDueDate now date) as [[]|] eqn:E; [|done].
    intros [= <-]. apply isOverdue_false. simpl. intros d ->.
    pose proof (proj1 (validateDueDate_ok _ _) E d eq_refl). lia.
Qed.

Lemma accepted_task_is_not_overdue_witness :
  (Examples.jun_2026 <= Examples.jun_2026)%Z /\
  Task.new Examples.jun_2026 (js "t1") (js "Buy milk") (js "2 litres") false
    (Some Examples.jun_2026) Examples.jan_2026 = Ok Examples.t1 /\
  Task.isOverdue Examples.jun_2026 Examples.t1 = false.
Proof.
  assert (H : (Examples.jun_2026 <= Examples.jun_2026)%Z) by lia.
  split; [exact H|]. split; [reflexivity|].
  exact (proj2 (proj1 (accepted_task_is_not_overdue _ _ H)
                  (js "t1") (js "Buy milk") (js "2 litres") false
                  (Some Examples.jun_2026) Examples.jan_2026 Examples.t1 eq_refl)).
Defined.

End Entity.

(** ** The task on the wire and in the heap *)

Section Json.
Import Objects.

(** X3.  The dates of a task survive the trip to the client: the text
    [res.json] writes for [createdAt] and for [dueDate] reads back,
    with [Date.parse], as the same instant, and a null due date stays
    null.  Two tasks with the same JSON are the same task. *)
Theorem json_dates_read_back (task : Task.t) :
  ISO.time_value (Task.createdAt task) ->
  (forall d, Task.dueDate task = Some d -> ISO.time_value d) ->
  ISO.Date_parse (ITask.createdAt (Routes.json task)) = Some (Task.createdAt task) /\
  match ITask.dueDate (Routes.json task) with
  | Some text => ISO.Date_parse text = Task.dueDate task
  | None => Task.dueDate task = None
  end /\
  forall task',
    ISO.time_value (Task.createdAt task') ->
    (forall d, Task.dueDate task' = Some d -> ISO.time_value d) ->
    Routes.json task' = Routes.json task -> task' = task.
Proof.
  intros Hc Hd. split; [by apply Date_parse_toISOString|]. split.
  - simpl. destruct (Task.dueDate task) as [d|]; simpl; [|done].
    apply Date_parse_toISOString. by apply Hd.
  - intros task' Hc' Hd' E. destruct task as [i t de c cr du],
      task' as [i' t' de' c' cr' du']. simpl in *.
    injection E as -> -> -> -> Ecr Edu.
    assert (cr' = cr) as ->.
    { apply (inj Some). rewrite <- (Date_parse_toISOString cr'), Ecr by done.
      by apply Date_parse_toISOString. }
    destruct du as [d|], du' as [d'|]; try done.
    injection Edu as Edu. f_equal. f_equal.
    apply (inj Some). rewrite <- (Date_parse_toISOString d'), Edu by eauto.
    apply Date_parse_toISOString. eauto.
Qed.

Lemma json_dates_read_back_witness :
  ISO.Date_parse (ITask.createdAt (Routes.json Examples.t1))
    = Some Examples.jan_2026 /\
  ITask.dueDate (Routes.json Examples.t1) = Some (js "2026-06-01T00:00:00.000Z").
Proof.
  assert (Hc : ISO.time_value (Task.createdAt Examples.t1)) by (vm_compute; split; discriminate).
  assert (Hd : forall d, Task.dueDate Examples.t1 = Some d -> ISO.time_value d).
  { intros d [= <-]. vm_compute. split; discriminate. }
  split; [exact (proj1 (json_dates_read_back Examples.t1 Hc Hd))|reflexivity].
Defined.

(** X4.  [toJSON] copies no Date: the object it returns reads, at
    first, as the six field values of the task, and it holds the two
    Date objects of the task themselves.  Changing one of them in
    place through the returned object changes the task, its read-only
    [createdAt] included (compare [clone]). *)
Theorem toJSON_shares_the_dates (h : Heap) (l : ref) (this : TaskObject)
    (v : Task.t) (value : Date) :
  tasks h !! l = Some this -> snapshot h l = Some v ->
  read_json h (toJSON this) = Some v /\
  Task.createdAt <$> snapshot (setTime (json_createdAt (toJSON this)) value h) l
    = Some value /\
  forall d, json_dueDate (toJSON this) = Some d ->
    Task.dueDate <$> snapshot (setTime d value h) l = Some (Some value).
Proof.
  intros Hl Hs. pose proof Hs as Hs'. unfold snapshot in Hs'.
  rewrite Hl in Hs'. simpl in Hs'.
  destruct (dates h !! createdAt this) as [cr|] eqn:Ecr; [|done]. simpl in Hs'.
  split; [|split].
  - unfold read_json, toJSON. simpl. rewrite Ecr. simpl. exact Hs'.
  - unfold snapshot, setTime. simpl. rewrite Hl. simpl.
    rewrite lookup_insert_eq. simpl.
    destruct (dueDate this) as [d|]; [|done].
    destruct (decide (createdAt this = d)) as [<-|Hne].
    + by rewrite lookup_insert_eq.
    + rewrite lookup_insert_ne by done.
      destruct (dates h !! d); [done|]. by simpl in Hs'.
  - simpl. intros d Hd. unfold snapshot, setTime. simpl. rewrite Hl. simpl.
    rewrite Hd. rewrite lookup_insert_eq.
    destruct (decide (d = createdAt this)) as [->|Hne].
    + by rewrite lookup_insert_eq.
    + rewrite lookup_insert_ne by done. by rewrite Ecr.
Qed.

Lemma toJSON_shares_the_dates_witness :
  read_json Examples.heap1 (toJSON Examples.object1) = Some Examples.t1 /\
  Task.dueDate <$>
    snapshot (setTime 2%positive Examples.dec_2026 Examples.heap1) 1%positive
    = Some (Some Examples.dec_2026).
Proof.
  assert (Hl : tasks Examples.heap1 !! 1%positive = Some Examples.object1)
    by reflexivity.
  assert (Hs : snapshot Examples.heap1 1%positive = Some Examples.t1)
    by reflexivity.
  pose proof (toJSON_shares_the_dates Examples.heap1 1%positive Examples.object1
                Examples.t1 Examples.dec_2026 Hl Hs) as P.
  split; [exact (proj1 P)|exact (proj2 (proj2 P) 2%positive eq_refl)].
Defined.

End Json.

(** ** The methods of the store together *)

Section StoreMore.
Import DatabaseService.

Lemma select_by_id_app (i : jsstring) (table table' : Table) :
  select_by_id i (table ++ table') =
    match select_by_id i table with
    | Some r => Some r
    | None => select_by_id i table'
    end.
Proof.
  unfold select_by_id. induction table as [|r table IH]; simpl; [done|].
  by destruct (bool_decide (Row.id r = i)).
Qed.

Lemma select_by_id_delete (i j : jsstring) (table : Table) :
  select_by_id j (delete i table) =
    if bool_decide (j = i) then None else select_by_id j table.
Proof.
  unfold select_by_id, delete. induction table as [|r table IH]; simpl.
  - by destruct (bool_decide (j = i)).
  - destruct (bool_decide (Row.id r = i)) eqn:Ei; simpl.
    + apply bool_decide_eq_true in Ei. rewrite IH.
      case_bool_decide as Eji; [done|].
      rewrite bool_decide_eq_false_2; [done|congruence].
    + apply bool_decide_eq_false in Ei. rewrite IH.
      destruct (bool_decide (Row.id r = j)) eqn:Ej; [|done].
      apply bool_decide_eq_true in Ej.
      rewrite bool_decide_eq_false_2; [done|congruence].
Qed.

Lemma delete_delete (i : jsstring) (table : Table) :
  delete i (delete i table) = delete i table.
Proof.
  unfold delete. induction table as [|r table IH]; simpl; [done|].
  destruct (bool_decide (Row.id r = i)) eqn:E; simpl; [done|].
  by rewrite E, IH.
Qed.

Lemma length_delete (i : jsstring) (table : Table) :
  length (delete i table) <= length table /\
  (NoDup (map Row.id table) -> i ∈ map Row.id table ->
   length table = S (length (delete i table))).
Proof.
  induction table as [|r table [IH1 IH2]]; simpl.
  - split; [done|]. intros _ H. by apply elem_of_nil in H.
  - unfold delete in *. simpl.
    destruct (bool_decide (Row.id r = i)) eqn:E; simpl.
    + split; [lia|]. intros Hnd _. apply NoDup_cons in Hnd as [Hr _].
      apply bool_decide_eq_true in E. subst i.
      by rewrite (delete_absent _ _ Hr : List.filter _ _ = _).
    + split; [lia|]. intros Hnd Hin. apply NoDup_cons in Hnd as [_ Hnd].
      apply bool_decide_eq_false in E.
      apply elem_of_cons in Hin as [Hin|Hin]; [congruence|].
      f_equal. by apply IH2.
Qed.

Lemma rowToTask_params (now : Date) (task : Task.t) :
  Task.valid task ->
  (forall d, Task.dueDate task = Some d -> (now <= d)%Z) ->
  rowToTask now (params task) = Ok task.
Proof.
  intros [Ht Hi] Hd. unfold rowToTask, params. simpl. rewrite or_empty_id.
  rewrite new_ok; [| done | done | by apply validateDueDate_ok; destruct (Task.dueDate task); naive_solver].
  destruct task as [i t de c cr du]. simpl. f_equal. f_equal.
  - by destruct c.
  - by destruct du.
Qed.

Lemma addTask_fresh (task : Task.t) (this : t) (table : Table) :
  db this = Some table -> Task.id task ∉ map Row.id table ->
  addTask task this = (Ok (), mk (Some (table ++ [params task]))).
Proof.
  intros Hdb Hi. unfold addTask, insert. rewrite Hdb. simpl.
  by rewrite (proj2 (select_by_id_None _ _) Hi).
Qed.

(** X5.  A task added under an id that is not taken is stored, and
    read back as it was given: [getTaskById] returns a task with the
    same six field values, as long as the title and the id of the
    task are valid and its due date has not passed at the time of the
    read.  The other ids read as before and the count grows by one.
    The strings of the task and the ids looked up are well-formed, and
    the table is one of SQLite, before and after. *)
Theorem added_task_is_read_back (task : Task.t) (this : t) (table : Table)
    (now : Date) :
  db this = Some table -> Forall Row_text table -> Task.storable task ->
  Task.id task ∉ map Row.id table ->
  Task.valid task ->
  (forall d, Task.dueDate task = Some d -> (now <= d)%Z) ->
  exists this' table',
    addTask task this = (Ok (), this') /\
    db this' = Some table' /\ Forall Row_text table' /\
    getTaskById now (Task.id task) this' = Ok (Some task) /\
    (forall now' j, isWellFormed j = true -> j <> Task.id task ->
       getTaskById now' j this' = getTaskById now' j this) /\
    getTaskCount this = Ok (length table) /\
    getTaskCount this' = Ok (S (length table)).
Proof.
  intros Hdb Htext Hs Hi Hv Hd. eexists _, _.
  split; [by apply addTask_fresh|]. split; [reflexivity|]. split.
  { apply Forall_app. split; [done|]. by apply Forall_singleton. }
  repeat split.
  - unfold getTaskById. simpl. rewrite select_by_id_app.
    rewrite (proj2 (select_by_id_None _ _) Hi). unfold select_by_id. simpl.
    rewrite bool_decide_eq_true_2 by done. by rewrite rowToTask_params.
  - intros now' j _ Hj. unfold getTaskById. rewrite Hdb. simpl.
    rewrite select_by_id_app. destruct (select_by_id j table); [done|].
    unfold select_by_id. simpl. rewrite bool_decide_eq_false_2; [done|].
    simpl. congruence.
  - unfold getTaskCount. by rewrite Hdb.
  - unfold getTaskCount. simpl. rewrite length_app. simpl. f_equal. lia.
Qed.

Lemma added_task_is_read_back_witness :
  exists this',
    addTask Examples.t2 Examples.store1 = (Ok (), this') /\
    getTaskById Examples.mar_2026 (js "t2") this' = Ok (Some Examples.t2).
Proof.
  assert (Hi : Task.id Examples.t2 ∉ map Row.id [Examples.row1]).
  { intros H. apply list_elem_of_singleton in H. by vm_compute in H. }
  assert (Hv : Task.valid Examples.t2) by (by vm_compute).
  assert (Hd : forall d, Task.dueDate Examples.t2 = Some d
                         -> (Examples.mar_2026 <= d)%Z) by (intros d [=]).
  assert (Ht : Forall Row_text [Examples.row1]).
  { constructor; [by vm_compute|constructor]. }
  assert (Hs : Task.storable Examples.t2) by (by vm_compute).
  destruct (added_task_is_read_back Examples.t2 Examples.store1
              [Examples.row1] Examples.mar_2026 eq_refl Ht Hs Hi Hv Hd)
    as (this' & table' & H1 & _ & _ & H2 & _).
  exists this'. split; [exact H1|exact H2].
Defined.

Lemma delete_text i (table : Table) :
  Forall Row_text table -> Forall Row_text (delete i table).
Proof.
  intros H. apply Forall_forall. intros r Hr.
  apply list_elem_of_In, filter_In in Hr as [Hr _].
  by eapply (proj1 (Forall_forall _ _) H), list_elem_of_In.
Qed.

(** X6.  After [deleteTask] the id reads as absent, whatever was
    stored under it, and the other ids read as before; deleting again
    changes nothing.  The count never grows, and it drops by exactly
    one when the id was present and ids are unique.  The ids are
    well-formed strings and the table is one of SQLite, before and
    after. *)
Theorem deleted_task_is_gone (i : jsstring) (this : t) (table : Table) :
  db this = Some table -> Forall Row_text table -> isWellFormed i = true ->
  exists this' table',
    deleteTask i this = (Ok (), this') /\ db this' = Some table' /\
    Forall Row_text table' /\
    (forall now, getTaskById now i this' = Ok None) /\
    (forall now j, isWellFormed j = true -> j <> i ->
       getTaskById now j this' = getTaskById now j this) /\
    deleteTask i this' = (Ok (), this') /\
    length table' <= length table /\
    (NoDup (map Row.id table) -> i ∈ map Row.id table ->
     length table = S (length table')).
Proof.
  intros Hdb Htext _. exists (mk (Some (delete i table))), (delete i table).
  unfold deleteTask. rewrite Hdb. simpl.
  split; [done|]. split; [done|]. split; [by apply delete_text|].
  repeat split.
  - intros now. unfold getTaskById. simpl. rewrite select_by_id_delete.
    by rewrite bool_decide_eq_true_2.
  - intros now j _ Hj. unfold getTaskById. rewrite Hdb. simpl.
    rewrite select_by_id_delete. by rewrite bool_decide_eq_false_2.
  - by rewrite delete_delete.
  - apply length_delete.
  - apply length_delete.
Qed.

Lemma deleted_task_is_gone_witness :
  exists this' table',
    deleteTask (js "t1") Examples.store12 = (Ok (), this') /\
    db this' = Some table' /\
    getTaskById Examples.dec_2026 (js "t1") this' = Ok None /\
    length table' = 1.
Proof.
  assert (Ht : Forall Row_text [Examples.row1; Examples.row2]).
  { repeat (constructor; [by vm_compute|]). constructor. }
  destruct (deleted_task_is_gone (js "t1") Examples.store12
              [Examples.row1; Examples.row2] eq_refl Ht eq_refl)
    as (this' & table' & H1 & H2 & _ & H3 & _ & _ & _ & H7).
  exists this', table'. split; [exact H1|]. split; [exact H2|].
  split; [exact (H3 _)|].
  assert (Hnd : NoDup (map Row.id [Examples.row1; Examples.row2])).
  { apply NoDup_cons. split; [|apply NoDup_singleton].
    intros H. apply list_elem_of_singleton in H. by vm_compute in H. }
  assert (Hin : js "t1" ∈ map Row.id [Examples.row1; Examples.row2])
    by apply list_elem_of_here.
  specialize (H7 Hnd Hin). simpl in H7. by injection H7 as <-.
Defined.

(** *** The invariant of the table *)

Lemma new_errors now i title description completed dueDate createdAt e :
  Task.new now i title description completed dueDate createdAt = Err e ->
  e = EmptyTitle \/ e = TitleTooLong \/ e = EmptyId \/ e = PastDueDate.
Proof.
  unfold Task.new. rewrite validateTitle_spec, validateId_spec.
  destruct (blank title); simpl; [intros [= <-]; auto|].
  destruct (255 <? length title); simpl; [intros [= <-]; auto|].
  destruct (blank i); simpl; [intros [= <-]; auto|].
  unfold Task.validateDueDate. destruct dueDate as [d|]; simpl; [|done].
  destruct (d <? now)%Z; simpl; [intros [= <-]; auto|done].
Qed.

Lemma rowToTask_valid_row (now : Date) (r : Row.t) (e : Error) :
  Row_valid r -> rowToTask now r = Err e -> e = PastDueDate.
Proof.
  intros [Ht Hi]. unfold rowToTask, Task.new. rewrite Ht, Hi. simpl.
  unfold Task.validateDueDate. destruct (Row.dueDate r) as [c|]; simpl; [|done].
  destruct (ISO.parse c <? now)%Z; simpl; [by intros [= <-]|done].
Qed.

Lemma update_valid title description completed dueDate i (table : Table) :
  Task.validateTitle title = Ok () ->
  Forall Row_valid table ->
  Forall Row_valid (update title description completed dueDate i table).
Proof.
  intros Ht H. unfold update. apply Forall_fmap. eapply Forall_impl; [exact H|].
  intros r [Hrt Hri]. simpl. by destruct (bool_decide (Row.id r = i)).
Qed.

Lemma delete_valid i (table : Table) :
  Forall Row_valid table -> Forall Row_valid (delete i table).
Proof.
  intros H. apply Forall_forall. intros r Hr.
  apply list_elem_of_In, filter_In in Hr as [Hr _].
  by eapply (proj1 (Forall_forall _ _) H), list_elem_of_In.
Qed.

Lemma call_keeps_valid (c : Call) (this : t) (table : Table) :
  db this = Some table -> Forall Row_valid table -> adds_valid c ->
  exists table', db (call c this).2 = Some table' /\ Forall Row_valid table'.
Proof.
  intros Hdb Hv Hc. destruct c as [task|now1 now2 i updates|i|]; simpl.
  - unfold addTask, insert. rewrite Hdb. simpl.
    destruct (select_by_id (Task.id task) table); simpl; [by eauto|].
    eexists. split; [reflexivity|]. apply Forall_app. split; [done|].
    apply Forall_singleton. exact Hc.
  - destruct (select_by_id i table) as [r|] eqn:Er.
    + rewrite (updateTask_row _ _ _ _ _ _ _ Hdb Er).
      destruct (rowToTask now1 r) as [existing|]; simpl; [|eauto].
      destruct (merged now2 i updates existing) as [task|] eqn:Em; simpl; [|eauto].
      eexists. split; [reflexivity|]. apply update_valid; [|done].
      unfold merged in Em. by apply new_inv in Em as (-> & Ht & _).
    + unfold updateTask, getTaskById. rewrite Hdb, Er. simpl. eauto.
  - unfold deleteTask. rewrite Hdb. simpl. eexists. split; [reflexivity|].
    by apply delete_valid.
  - unfold clearAll. rewrite Hdb. simpl. eauto.
Qed.

Lemma call_keeps_ok (c : Call) (this : t) (table : Table) :
  db this = Some table -> Table_ok table ->
  exists table', db (call c this).2 = Some table' /\ Table_ok table'.
Proof.
  intros Hdb Hok. destruct c as [task|now1 now2 i updates|i|]; simpl.
  - by eapply addTask_ok.
  - by eapply updateTask_ok.
  - by eapply deleteTask_ok.
  - unfold clearAll. rewrite Hdb. simpl. eexists. split; [reflexivity|].
    apply Table_ok_empty.
Qed.

Lemma run_keeps_ok (calls : list Call) :
  forall (this : t) (table : Table),
    db this = Some table -> Table_ok table ->
    exists table', db (run calls this) = Some table' /\ Table_ok table'.
Proof.
  induction calls as [|c calls IH]; intros this table Hdb Hok.
  - simpl. eauto.
  - destruct (call_keeps_ok c _ _ Hdb Hok) as (t1 & Hdb1 & Hok1).
    unfold run. simpl. by apply (IH _ t1).
Qed.

Lemma run_keeps_valid (calls : list Call) :
  Forall adds_valid calls ->
  forall (this : t) (table : Table),
    db this = Some table -> Forall Row_valid table ->
    exists table', db (run calls this) = Some table' /\ Forall Row_valid table'.
Proof.
  induction 1 as [|c calls Hc _ IH]; intros this table Hdb Hv.
  - simpl. eauto.
  - destruct (call_keeps_valid c _ _ Hdb Hv Hc) as (t1 & Hdb1 & Hv1).
    unfold run. simpl. by apply (IH _ t1).
Qed.

(** X7.  An invariant of the table.  Whatever sequence of [addTask],
    [updateTask], [deleteTask] and [clearAll] runs on an open store,
    resolved or rejected, with whatever arguments, the store stays
    open, the ids stay unique and the column [completed] holds 0 or
    1.  When, besides, the stored titles and ids were valid and the
    tasks given to [addTask] are valid ones, every stored title and id
    passes the validation of the constructor afterwards, so the only
    error a read of a row can meet is the one of a due date that has
    passed. *)
Theorem calls_keep_the_table_well_formed (calls : list Call) (this : t)
    (table : Table) :
  db this = Some table -> Table_ok table ->
  exists table',
    db (run calls this) = Some table' /\
    Table_ok table' /\
    (Forall Row_valid table -> Forall adds_valid calls ->
     Forall Row_valid table' /\
     forall now i e,
       getTaskById now i (run calls this) = Err e ->
       e = FailedToParseTask PastDueDate).
Proof.
  intros Hdb Hok.
  destruct (run_keeps_ok calls _ _ Hdb Hok) as (table' & Hdb' & Hok').
  exists table'. split; [done|]. split; [done|]. intros Hv Hc.
  destruct (run_keeps_valid calls Hc _ _ Hdb Hv) as (t2 & Hdb2 & Hv').
  rewrite Hdb' in Hdb2. injection Hdb2 as <-. split; [done|].
  intros now i e. unfold getTaskById. rewrite Hdb'.
  destruct (select_by_id i table') as [r|] eqn:Er; [|done].
  destruct (rowToTask now r) as [|e'] eqn:E; [done|]. intros [= <-]. f_equal.
  apply select_by_id_Some in Er as [Hr _].
  eapply rowToTask_valid_row; [|exact E].
  by apply (proj1 (Forall_forall _ _) Hv').
Qed.

Lemma calls_keep_the_table_well_formed_witness :
  exists table',
    db (run [AddTask Examples.t1; AddTask Examples.t1;
             AddTask (Task.mk (js "t4") [] [] true Examples.jan_2026 None);
             UpdateTask Examples.mar_2026 Examples.mar_2026 (js "t1")
               Examples.title_empty;
             AddTask Examples.t2; DeleteTask (js "t3")]
          Examples.empty_store) = Some table' /\
    Table_ok table' /\ length table' = 3.
Proof.
  destruct (calls_keep_the_table_well_formed
              [AddTask Examples.t1; AddTask Examples.t1;
               AddTask (Task.mk (js "t4") [] [] true Examples.jan_2026 None);
               UpdateTask Examples.mar_2026 Examples.mar_2026 (js "t1")
                 Examples.title_empty;
               AddTask Examples.t2; DeleteTask (js "t3")]
              Examples.empty_store [] eq_refl Table_ok_empty)
    as (table' & H1 & H2 & _).
  exists table'. split; [exact H1|]. split; [exact H2|].
  vm_compute in H1. by injection H1 as <-.
Defined.

(** *** Counting *)

Lemma length_update title description completed dueDate i (table : Table) :
  length (update title description completed dueDate i table) = length table.
Proof. unfold update. apply length_map. Qed.

Lemma filter_length_le {A} (f : A -> bool) (l : list A) :
  length (List.filter f l) <= length l.
Proof.
  induction l as [|a l IH]; simpl; [done|]. destruct (f a); simpl; lia.
Qed.

(** X8.  The two counts.  On an open store the number of completed
    tasks is at most the number of tasks, so the [pending] figure of
    the statistics route is never negative; [updateTask] never
    changes the number of tasks, whether it is resolved or rejected;
    after [clearAll] both counts are 0 and [getTasks] gives the empty
    list. *)
Theorem counts_are_consistent (this : t) (table : Table) :
  db this = Some table ->
  exists total completed,
    getTaskCount this = Ok total /\
    getCompletedCount this = Ok completed /\
    completed <= total /\
    (forall now1 now2 i updates,
       getTaskCount (updateTask now1 now2 i updates this).2 = Ok total) /\
    getTaskCount (clearAll this).2 = Ok 0 /\
    getCompletedCount (clearAll this).2 = Ok 0 /\
    forall clock, getTasks clock (clearAll this).2 = Ok [].
Proof.
  intros Hdb. unfold getTaskCount, getCompletedCount, clearAll. rewrite Hdb.
  eexists _, _. split; [done|]. split; [done|]. split; [apply filter_length_le|].
  split; [|done].
  intros now1 now2 i updates.
  destruct (select_by_id i table) as [r|] eqn:Er.
  - rewrite (updateTask_row _ _ _ _ _ _ _ Hdb Er).
    destruct (rowToTask now1 r) as [existing|]; simpl; [|by rewrite Hdb].
    destruct (merged now2 i updates existing) as [task|]; simpl; [|by rewrite Hdb].
    by rewrite length_update.
  - unfold updateTask, getTaskById. rewrite Hdb, Er. simpl. by rewrite Hdb.
Qed.

Lemma counts_are_consistent_witness :
  exists total completed,
    getTaskCount Examples.store12 = Ok total /\
    getCompletedCount Examples.store12 = Ok completed /\
    completed <= total /\
    getTaskCount (updateTask Examples.mar_2026 Examples.mar_2026 (js "t1")
                    Examples.completed_true Examples.store12).2 = Ok total.
Proof.
  destruct (counts_are_consistent Examples.store12
              [Examples.row1; Examples.row2] eq_refl)
    as (total & completed & H1 & H2 & H3 & H4 & _).
  exists total, completed. split; [exact H1|]. split; [exact H2|].
  split; [exact H3|exact (H4 _ _ _ _)].
Defined.





(** *** Reading and the clock *)

Lemma rowToTask_not_overdue (now now' : Date) (r : Row.t) (task : Task.t) :
  (now' <= now)%Z -> rowToTask now r = Ok task ->
  Task.valid task /\ Task.isOverdue now' task = false.
Proof.
  intros Hle H. apply new_inv in H as (-> & Ht & Hi & Hd). split; [done|].
  apply isOverdue_false. simpl. intros d Ed.
  pose proof (proj1 (validateDueDate_ok _ _) Hd d Ed). lia.
Qed.

Lemma map_rowToTask_not_overdue (clock : nat -> Date) (now' : Date)
    (rows : list Row.t) :
  (forall j, (now' <= clock j)%Z) ->
  forall i tasks,
    map_rowToTask clock i rows = Ok tasks ->
    Forall (fun task => Task.valid task /\ Task.isOverdue now' task = false) tasks.
Proof.
  intros Hc. induction rows as [|r rows IH]; simpl; intros i tasks.
  - intros [= <-]. constructor.
  - destruct (rowToTask (clock i) r) as [task|] eqn:E; simpl; [|done].
    destruct (map_rowToTask clock (S i) rows) as [rest|] eqn:E'; simpl; [|done].
    intros [= <-]. constructor; [|by eapply IH].
    exact (rowToTask_not_overdue _ _ _ _ (Hc i) E).
Qed.

(** X10.  The store never returns an overdue task.  Reading runs the
    constructor, which refuses a due date that has passed, so every
    task [getTaskById] or [getTasks] returns has a valid title and id
    and is not overdue at the time the call started, completed or
    not: [isOverdue] can only become true after the read. *)
Theorem reads_return_no_overdue_task (clock : nat -> Date) (now' : Date)
    (this : t) :
  (forall j, (now' <= clock j)%Z) ->
  (forall j i task,
     getTaskById (clock j) i this = Ok (Some task) ->
     Task.valid task /\ Task.isOverdue now' task = false) /\
  (forall tasks,
     getTasks clock this = Ok tasks ->
     Forall (fun task => Task.valid task /\ Task.isOverdue now' task = false)
       tasks).
Proof.
  intros Hc. split.
  - intros j i task. unfold getTaskById. destruct (db this) as [table|]; [|done].
    destruct (select_by_id i table) as [r|]; [|done].
    destruct (rowToTask (clock j) r) as [task'|] eqn:E; [|done].
    intros [= <-]. exact (rowToTask_not_overdue _ _ _ _ (Hc j) E).
  - intros tasks. unfold getTasks. destruct (db this) as [table|]; [|done].
    destruct (map_rowToTask clock 0 (order_by_createdAt table)) as [l|] eqn:E;
      [|done].
    intros [= <-]. apply Forall_forall. intros task Ht.
    apply list_elem_of_In, in_rev, list_elem_of_In in Ht.
    by apply (proj1 (Forall_forall _ _)
                (map_rowToTask_not_overdue clock now' _ Hc 0 l E)).
Qed.

Lemma reads_return_no_overdue_task_witness :
  getTasks (fun _ => Examples.jun_2026) Examples.store12
    = Ok [Examples.t2; Examples.t1] /\
  Forall (fun task => Task.valid task /\
                      Task.isOverdue Examples.jun_2026 task = false)
    [Examples.t2; Examples.t1].
Proof.
  assert (Hc : forall j : nat, (Examples.jun_2026 <= Examples.jun_2026)%Z) by lia.
  split; [reflexivity|].
  exact (proj2 (reads_return_no_overdue_task (fun _ => Examples.jun_2026)
                  Examples.jun_2026 Examples.store12 Hc)
           [Examples.t2; Examples.t1] eq_refl).
Defined.

End StoreMore.

(** ** The REST routes *)

Section Api.
Import DatabaseService Message Routes.

Lemma missing_blank (s : jsstring) : missing s = blank s.
Proof. apply empty_test. Qed.

Lemma blank_new_id (unique : jsstring) : blank (new_id unique) = false.
Proof. reflexivity. Qed.

Lemma validateId_new_id (unique : jsstring) :
  Task.validateId (new_id unique) = Ok ().
Proof. by rewrite validateId_spec, blank_new_id. Qed.

Lemma validateTitle_Ok (t : jsstring) :
  blank t = false -> length t <= 255 -> Task.validateTitle t = Ok ().
Proof.
  intros Hb Hl. rewrite validateTitle_spec, Hb.
  by rewrite (proj2 (Nat.ltb_ge _ _) Hl).
Qed.

Lemma validateTitle_inv (t : jsstring) :
  Task.validateTitle t = Ok () -> blank t = false /\ length t <= 255.
Proof.
  rewrite validateTitle_spec. destruct (blank t); [done|].
  destruct (255 <? length t) eqn:E; [done|]. by apply Nat.ltb_ge in E.
Qed.

Lemma validateId_inv (i : jsstring) :
  Task.validateId i = Ok () -> missing i = false.
Proof.
  rewrite validateId_spec, missing_blank. by destruct (blank i).
Qed.

Lemma getTaskById_added (now : Date) (task : Task.t) (table : Table) :
  Task.id task ∉ map Row.id table -> Task.valid task ->
  (forall d, Task.dueDate task = Some d -> (now <= d)%Z) ->
  getTaskById now (Task.id task) (mk (Some (table ++ [params task])))
    = Ok (Some task).
Proof.
  intros Hi Hv Hd. unfold getTaskById. simpl. rewrite select_by_id_app.
  rewrite (proj2 (select_by_id_None _ _) Hi). unfold select_by_id. simpl.
  rewrite bool_decide_eq_true_2 by done. by rewrite rowToTask_params.
Qed.

(** The answers of the two [catch] blocks to the errors that reach
    them. *)
Lemma catch_POST_validation (e : Error) :
  e = EmptyTitle \/ e = TitleTooLong \/ e = EmptyId \/ e = PastDueDate ->
  catch_POST e = respond 400 (Failure (message e)).
Proof. by intros [->|[->|[->| ->]]]. Qed.

Lemma catch_POST_store :
  catch_POST NotInitialized = respond 500 (Failure (js "Database not initialized")) /\
  catch_POST DuplicateId =
    respond 500
      (Failure (js "Failed to add task: SQLITE_CONSTRAINT: UNIQUE constraint failed: tasks.id")).
Proof. by split. Qed.

Lemma catch_PATCH_validation (e : Error) :
  e = EmptyTitle \/ e = TitleTooLong \/ e = EmptyId \/ e = PastDueDate ->
  catch_PATCH e = respond 500 (Failure (message e)) /\
  catch_PATCH (FailedToParseTask e)
    = respond 500 (Failure (message (FailedToParseTask e))).
Proof. by intros [->|[->|[->| ->]]]. Qed.

Lemma isWellFormed_new_id (unique : jsstring) :
  isWellFormed (new_id unique) = isWellFormed unique.
Proof. reflexivity. Qed.

(** X11.  POST /tasks with a title that is not blank and at most 255
    code units long, a due date that is absent or parses to an instant
    that has not passed, on an open store where the generated id is
    free: the answer is 201 with the JSON of the new task (the given
    title, the description or the empty string, not completed,
    created at the time of the call), the task is appended to the
    table, and GET /tasks/:id with the generated id answers 200 with
    the same JSON for as long as the due date has not passed.  The
    title, the description and the generated id are well-formed
    strings, and the table is one of SQLite, before and after. *)
Theorem POST_creates_the_task (Date_of : jsstring -> option Date)
    (unique : jsstring) (created now : Date) (body : RequestBody) (this : t)
    (table : Table) (text : jsstring) (due : option Date) :
  db this = Some table -> Forall Row_text table ->
  isWellFormed unique = true ->
  title body = Some text -> isWellFormed text = true ->
  isWellFormed (default [] (description body)) = true ->
  blank text = false -> length text <= 255 ->
  dueDateObj Date_of (dueDate body) = Some due ->
  (forall d, due = Some d -> (now <= d)%Z) ->
  new_id unique ∉ map Row.id table ->
  let task :=
    Task.mk (new_id unique) text (default [] (description body)) false created
      due in
  let this' := mk (Some (table ++ [params task])) in
  POST_tasks Date_of unique created now body this =
    (respond 201
       (TaskData (Some (json task)) (Some (js "Task created successfully"))),
     this') /\
  Forall Row_text (table ++ [params task]) /\
  forall now',
    (forall d, due = Some d -> (now' <= d)%Z) ->
    GET_task now' (new_id unique) this' =
      (respond 200 (TaskData (Some (json task)) None), this').
Proof.
  intros Hdb Htext Hu Ht Hwt Hwd Hb Hl Hdue Hnow Hfresh task this'.
  assert (Hv : Task.valid task).
  { split; [by apply validateTitle_Ok|apply validateId_new_id]. }
  split; [|split].
  - unfold POST_tasks. rewrite Ht, missing_blank, Hb, Hdue.
    rewrite new_ok;
      [| by apply validateTitle_Ok | apply validateId_new_id
       | by apply validateDueDate_ok ].
    fold task. by rewrite (addTask_fresh task this table Hdb Hfresh).
  - apply Forall_app. split; [done|]. apply Forall_singleton.
    split; [by rewrite <- Hu|done].
  - intros now' Hnow'. unfold GET_task.
    rewrite missing_blank, blank_new_id.
    assert (G : getTaskById now' (new_id unique) this' = Ok (Some task))
      by exact (getTaskById_added now' task table Hfresh Hv Hnow').
    by rewrite G.
Qed.

Lemma POST_creates_the_task_witness :
  let task :=
    Task.mk (js "task-1767225600000-k3j9x0q2a") (js "Buy milk") [] false
      Examples.jan_2026 (Some Examples.jun_2026) in
  POST_tasks ISO.Date_parse Examples.unique1 Examples.jan_2026
    Examples.jan_2026 Examples.body_milk Examples.store1 =
    (respond 201
       (TaskData (Some (json task)) (Some (js "Task created successfully"))),
     mk (Some ([Examples.row1] ++ [params task]))) /\
  ITask.dueDate (json task) = Some (js "2026-06-01T00:00:00.000Z").
Proof.
  assert (Hfresh : new_id Examples.unique1 ∉ map Row.id [Examples.row1]).
  { intros H. apply list_elem_of_singleton in H. by vm_compute in H. }
  assert (Hnow : forall d, Some Examples.jun_2026 = Some d
                           -> (Examples.jan_2026 <= d)%Z).
  { intros d [= <-]. by vm_compute. }
  assert (Hl : length (js "Buy milk") <= 255) by (vm_compute; lia).
  assert (Htext : Forall Row_text [Examples.row1]).
  { constructor; [by vm_compute|constructor]. }
  split; [|reflexivity].
  exact (proj1 (POST_creates_the_task ISO.Date_parse Examples.unique1
                  Examples.jan_2026 Examples.jan_2026 Examples.body_milk
                  Examples.store1 [Examples.row1] (js "Buy milk")
                  (Some Examples.jun_2026) eq_refl Htext eq_refl eq_refl
                  eq_refl eq_refl eq_refl Hl eq_refl Hnow Hfresh)).
Defined.

(** X12.  POST /tasks, for every body whose fields have the types the
    route documents, answers 201, 400 or 500, and changes the store
    only when it answers 201.  It answers 500 only when the store is
    closed or the generated id is taken.  When it answers 201 the
    task it made has a valid title, the one of the body, the generated
    id, is not completed and was created at the time of the call, and
    one row is appended to the table: the parameters of that task when
    its title and description are well-formed.  The generated id is a
    well-formed string and the table is one of SQLite, before and
    after. *)
Theorem POST_changes_the_store_only_on_201 (Date_of : jsstring -> option Date)
    (unique : jsstring) (created now : Date) (body : RequestBody) (this : t) :
  isWellFormed unique = true ->
  (forall table, db this = Some table -> Forall Row_text table) ->
  let r := POST_tasks Date_of unique created now body this in
  (status r.1 = 201 \/ status r.1 = 400 \/ status r.1 = 500) /\
  (status r.1 <> 201 -> r.2 = this) /\
  (status r.1 = 500 ->
   db this = None \/
   exists table, db this = Some table /\ new_id unique ∈ map Row.id table) /\
  (status r.1 = 201 ->
   exists table task row,
     db this = Some table /\ (new_id unique ∉ map Row.id table) /\
     Task.valid task /\ Task.id task = new_id unique /\
     title body = Some (Task.title task) /\
     Task.completed task = false /\ Task.createdAt task = created /\
     payload r.1 =
       TaskData (Some (json task)) (Some (js "Task created successfully")) /\
     r.2 = mk (Some (table ++ [row])) /\
     Row.createdAt row = ISO.stamp created /\
     (isWellFormed (Task.title task) = true ->
      isWellFormed (Task.description task) = true ->
      row = params task /\ Forall Row_text (table ++ [row]))).
Proof.
  intros Hu Htext. unfold POST_tasks.
  destruct (title body) as [text|]; [|by repeat split; auto].
  destruct (missing text); [by repeat split; auto|].
  destruct (dueDateObj Date_of (dueDate body)) as [due|]; [|by repeat split; auto].
  destruct (Task.new now (new_id unique) text (default [] (description body))
              false due created) as [task|e] eqn:E.
  2:{ rewrite (catch_POST_validation e (new_errors _ _ _ _ _ _ _ _ E)).
      by repeat split; auto. }
  apply new_inv in E as (-> & Ht & Hi & Hd).
  unfold addTask, insert. simpl.
  destruct (db this) as [table|] eqn:Hdb; [|by repeat split; auto].
  destruct (select_by_id (new_id unique) table) as [r|] eqn:Er; simpl.
  - split; [auto|]. split; [done|]. split; [|done].
    intros _. right. exists table. split; [done|].
    apply select_by_id_Some in Er as [Hr <-]. apply list_elem_of_fmap. eauto.
  - split; [auto|]. split; [done|]. split; [done|]. intros _.
    set (task := Task.mk (new_id unique) text (default [] (description body))
                   false created due).
    exists table, task, (params task). split; [done|].
    split; [by apply select_by_id_None|].
    split; [by split|]. split; [done|]. split; [done|]. split; [done|].
    split; [done|]. split; [done|]. split; [reflexivity|]. split; [done|].
    intros Hwt Hwd. split; [done|]. apply Forall_app. split; [by apply Htext|].
    apply Forall_singleton. by repeat split.
Qed.

Lemma POST_changes_the_store_only_on_201_witness :
  (POST_tasks ISO.Date_parse Examples.unique1 Examples.jan_2026
     Examples.jan_2026 Examples.body_long Examples.store1).2 = Examples.store1 /\
  status (POST_tasks ISO.Date_parse Examples.unique1 Examples.jan_2026
            Examples.jan_2026 Examples.body_milk Examples.store1).1 = 201.
Proof.
  assert (Ht : forall table,
            db Examples.store1 = Some table -> Forall Row_text table).
  { intros table [= <-]. constructor; [by vm_compute|constructor]. }
  split; [|reflexivity].
  apply (proj1 (proj2 (POST_changes_the_store_only_on_201 ISO.Date_parse
                         Examples.unique1 Examples.jan_2026 Examples.jan_2026
                         Examples.body_long Examples.store1 eq_refl Ht))).
  by vm_compute.
Defined.

(** X13.  The bad requests of POST /tasks, each answered 400 with the
    store unchanged, in the order the handler tests them: a title that
    is missing, empty or blank ("Task title is required"); a due date
    that does not parse ("Invalid due date format", even when the
    title is too long); a title of more than 255 code units; a due
    date that has passed. *)
Theorem POST_refuses_bad_requests (Date_of : jsstring -> option Date)
    (unique : jsstring) (created now : Date) (body : RequestBody) (this : t) :
  let answer := POST_tasks Date_of unique created now body this in
  let refused error := answer = (respond 400 (Failure error), this) in
  (match title body with Some text => blank text = true | None => True end ->
   refused (js "Task title is required")) /\
  (forall text,
     title body = Some text -> blank text = false ->
     (dueDateObj Date_of (dueDate body) = None ->
      refused (js "Invalid due date format")) /\
     (forall due,
        dueDateObj Date_of (dueDate body) = Some due ->
        (255 < length text ->
         refused (js "Task title cannot exceed 255 characters")) /\
        (forall d,
           length text <= 255 -> due = Some d -> (d < now)%Z ->
           refused (js "Due date cannot be in the past")))).
Proof.
  simpl. unfold POST_tasks. split.
  - destruct (title body) as [text|]; [|done]. intros Hb.
    by rewrite missing_blank, Hb.
  - intros text Ht Hb. rewrite Ht, missing_blank, Hb. split.
    + by intros ->.
    + intros due ->. split.
      * intros Hl. unfold Task.new. rewrite validateTitle_spec, Hb.
        by rewrite (proj2 (Nat.ltb_lt _ _) Hl).
      * intros d Hl -> Hd. unfold Task.new.
        rewrite (validateTitle_Ok _ Hb Hl), validateId_new_id. simpl.
        by rewrite (proj2 (Z.ltb_lt _ _) Hd).
Qed.

Lemma POST_refuses_bad_requests_witness :
  POST_tasks ISO.Date_parse Examples.unique1 Examples.jan_2026
    Examples.jan_2026 Examples.body_long Examples.store1
    = (respond 400 (Failure (js "Task title cannot exceed 255 characters")),
       Examples.store1) /\
  POST_tasks ISO.Date_parse Examples.unique1 Examples.dec_2026
    Examples.dec_2026 Examples.body_milk Examples.store1
    = (respond 400 (Failure (js "Due date cannot be in the past")),
       Examples.store1).
Proof.
  split.
  - assert (Hl : 255 < length Examples.a256) by (vm_compute; lia).
    exact (proj1 (proj2 (proj2 (POST_refuses_bad_requests ISO.Date_parse
                    Examples.unique1 Examples.jan_2026 Examples.jan_2026
                    Examples.body_long Examples.store1) Examples.a256 eq_refl
                    eq_refl) None eq_refl) Hl).
  - assert (Hl : length (js "Buy milk") <= 255) by (vm_compute; lia).
    assert (Hd : (Examples.jun_2026 < Examples.dec_2026)%Z) by (by vm_compute).
    exact (proj2 (proj2 (proj2 (POST_refuses_bad_requests ISO.Date_parse
                    Examples.unique1 Examples.dec_2026 Examples.dec_2026
                    Examples.body_milk Examples.store1) (js "Buy milk") eq_refl
                    eq_refl) (Some Examples.jun_2026) eq_refl)
             Examples.jun_2026 Hl eq_refl Hd).
Defined.

(** *** PATCH /tasks/:id *)

Lemma updates_of_inr (Date_of : jsstring -> option Date) (body : RequestBody)
    (updates : Partial.t) :
  updates_of Date_of body = inr updates ->
  Partial.title updates = title body /\
  Partial.description updates = description body /\
  Partial.completed updates = completed body /\
  (forall text, title body = Some text -> blank text = false) /\
  match dueDate body with
  | None => Partial.dueDate updates = None
  | Some None => Partial.dueDate updates = Some None
  | Some (Some text) =>
      exists d, Date_of text = Some d /\ Partial.dueDate updates = Some (Some d)
  end.
Proof.
  unfold updates_of. intros H.
  assert (Hb : forall text, title body = Some text -> blank text = false).
  { intros text E. rewrite E in H.
    destruct (length (trim text) =? 0) eqn:El; [done|].
    apply Nat.eqb_neq in El. destruct (blank text) eqn:Eb; [|done].
    by apply trim_nil in Eb. }
  destruct (match title body with
            | Some t => length (trim t) =? 0
            | None => false
            end); [done|].
  destruct (dueDate body) as [[text|]|].
  - destruct (Date_of text) as [d|]; [|done]. injection H as <-. simpl.
    repeat split; eauto.
  - injection H as <-. by repeat split.
  - injection H as <-. by repeat split.
Qed.

Lemma readable_id (now : Date) (i : jsstring) (table : Table) (r : Row.t) :
  select_by_id i table = Some r -> readable now r ->
  Row.id r = i /\ Task.validateId i = Ok () /\ missing i = false.
Proof.
  intros Er (_ & Hi & _). apply select_by_id_Some in Er as [_ <-].
  split; [done|]. split; [done|]. by apply validateId_inv.
Qed.

Lemma getTaskById_readable (now : Date) (i : jsstring) (this : t)
    (table : Table) (r : Row.t) :
  db this = Some table -> select_by_id i table = Some r -> readable now r ->
  getTaskById now i this = Ok (Some (task_of_row r)).
Proof.
  intros Hdb Er Hr. rewrite (getTaskById_row _ _ _ _ _ Hdb Er).
  by rewrite (proj1 (readable_iff _ _) Hr).
Qed.

Lemma updateTask_readable now1 now2 i updates (this : t) (table : Table)
    (r : Row.t) :
  db this = Some table -> select_by_id i table = Some r -> readable now1 r ->
  updateTask now1 now2 i updates this =
    match merged now2 i updates (task_of_row r) with
    | Err error => (Err error, this)
    | Ok task =>
        (Ok (),
         mk (Some (update (Task.title task) (Task.description task)
                     (if Task.completed task then 1 else 0)%Z
                     (ISO.stamp <$> Task.dueDate task) i table)))
    end.
Proof.
  intros Hdb Er Hr. rewrite (updateTask_row _ _ _ _ _ _ _ Hdb Er).
  by rewrite (proj1 (readable_iff _ _) Hr).
Qed.


Lemma PATCH_task_row (Date_of : jsstring -> option Date)
    (now1 now2 now3 now4 : Date) (i : jsstring) (body : RequestBody) (this : t)
    (table : Table) (r : Row.t) :
  db this = Some table -> select_by_id i table = Some r -> readable now1 r ->
  PATCH_task Date_of now1 now2 now3 now4 i body this =
    match updates_of Date_of body with
    | inl response => (response, this)
    | inr updates =>
        match updateTask now2 now3 i updates this with
        | (Err error, this') => (catch_PATCH error, this')
        | (Ok _, this') =>
            match getTaskById now4 i this' with
            | Err error => (catch_PATCH error, this')
            | Ok updatedTask =>
                (respond 200
                   (TaskData (json <$> updatedTask)
                      (Some (js "Task updated successfully"))),
                 this')
            end
        end
    end.
Proof.
  intros Hdb Er Hr. unfold PATCH_task.
  destruct (readable_id _ _ _ _ Er Hr) as (_ & _ & ->).
  by rewrite (getTaskById_readable _ _ _ _ _ Hdb Er Hr).
Qed.

(** X14.  PATCH /tasks/:id answers 500, not 400, when the
    constructor refuses the merged task: its [catch] only looks for
    "not found".  For a stored task that can be read and a body that
    passes the checks of the handler, a refusal of the merge (a title
    of more than 255 code units, or a due date that has passed: no
    other error is possible) is answered with status 500 and the
    message of the validation error, and the store is unchanged. *)
Theorem PATCH_validation_failure_is_500 (Date_of : jsstring -> option Date)
    (now1 now2 now3 now4 : Date) (i : jsstring) (body : RequestBody) (this : t)
    (table : Table) (r : Row.t) (updates : Partial.t) (e : Error) :
  db this = Some table -> select_by_id i table = Some r ->
  readable now1 r -> readable now2 r ->
  updates_of Date_of body = inr updates ->
  merged now3 i updates (task_of_row r) = Err e ->
  PATCH_task Date_of now1 now2 now3 now4 i body this
    = (respond 500 (Failure (message e)), this) /\
  (e = TitleTooLong \/ e = PastDueDate).
Proof.
  intros Hdb Er H1 H2 Hu Hm.
  rewrite (PATCH_task_row _ _ _ _ _ _ _ _ _ _ Hdb Er H1), Hu.
  rewrite (updateTask_readable _ _ _ _ _ _ _ Hdb Er H2), Hm.
  pose proof (new_errors _ _ _ _ _ _ _ _ Hm) as He.
  rewrite (proj1 (catch_PATCH_validation e He)). split; [done|].
  destruct (updates_of_inr _ _ _ Hu) as (Et & _ & _ & Hb & _).
  destruct (readable_id _ _ _ _ Er H2) as (_ & Hi & _).
  destruct H2 as (Ht & _ & _). apply validateTitle_inv in Ht as [Hbr _].
  unfold merged, Task.new in Hm. rewrite validateTitle_spec, Hi in Hm.
  assert (Hblank : blank (nullish (Partial.title updates)
                            (Task.title (task_of_row r))) = false).
  { rewrite Et. destruct (title body) as [text|]; simpl; [by apply Hb|done]. }
  rewrite Hblank in Hm.
  destruct (255 <? _); simpl in Hm; [left; congruence|].
  unfold Task.validateDueDate in Hm.
  destruct (nullish_date _ _) as [d|]; simpl in Hm; [|done].
  destruct (d <? now3)%Z; simpl in Hm; [right; congruence|done].
Qed.

Lemma PATCH_validation_failure_is_500_witness :
  PATCH_task ISO.Date_parse Examples.mar_2026 Examples.mar_2026
    Examples.mar_2026 Examples.mar_2026 (js "t1") Examples.body_long
    Examples.store12
  = (respond 500 (Failure (js "Task title cannot exceed 255 characters")),
     Examples.store12).
Proof.
  assert (Hr : readable Examples.mar_2026 Examples.row1).
  { split; [done|]. split; [done|]. intros c [= <-]. by vm_compute. }
  exact (proj1 (PATCH_validation_failure_is_500 ISO.Date_parse
                  Examples.mar_2026 Examples.mar_2026 Examples.mar_2026
                  Examples.mar_2026 (js "t1") Examples.body_long
                  Examples.store12 [Examples.row1; Examples.row2]
                  Examples.row1
                  (Partial.mk None (Some Examples.a256) None None None None)
                  TitleTooLong eq_refl eq_refl Hr Hr eq_refl eq_refl)).
Defined.

(** X15.  PATCH /tasks/:id with [{ dueDate: null }] answers 200
    "Task updated successfully" and clears nothing: for a stored task
    with a due date that can be read at the four readings of the
    clock, the store is unchanged and the task in the answer still
    carries the due date. *)
Theorem PATCH_null_keeps_the_due_date (Date_of : jsstring -> option Date)
    (now1 now2 now3 now4 : Date) (i : jsstring) (this : t) (table : Table)
    (r : Row.t) (c : ISO.cell) :
  db this = Some table -> Table_ok table -> select_by_id i table = Some r ->
  Row.dueDate r = Some c ->
  readable now1 r -> readable now2 r -> readable now3 r -> readable now4 r ->
  PATCH_task Date_of now1 now2 now3 now4 i (mkBody None None (Some None) None)
    this
  = (respond 200
       (TaskData (Some (json (task_of_row r)))
          (Some (js "Task updated successfully"))),
     this) /\
  ITask.dueDate (json (task_of_row r)) = Some (ISO.text c).
Proof.
  intros Hdb [Hnd Hok] Er Hc H1 H2 H3 H4.
  rewrite (PATCH_task_row _ _ _ _ _ _ _ _ _ _ Hdb Er H1). simpl.
  rewrite (updateTask_readable _ _ _ _ _ _ _ Hdb Er H2).
  destruct (select_by_id_Some _ _ _ Er) as [Hin Hid].
  assert (Hm : merged now3 i (Partial.mk None None None None None (Some None))
                 (task_of_row r) = Ok (task_of_row r)).
  { pose proof (proj1 (readable_iff _ _) H3) as H.
    unfold rowToTask in H. rewrite or_empty_id, Hid in H. exact H. }
  rewrite Hm. simpl.
  rewrite stamp_parse, completed_column
    by (rewrite Forall_forall in Hok; by apply Hok).
  rewrite (update_same _ _ _ Hnd Er), <- (this_eta _ _ Hdb).
  rewrite (getTaskById_readable _ _ _ _ _ Hdb Er H4). simpl.
  split; [done|]. by rewrite Hc.
Qed.

Lemma PATCH_null_keeps_the_due_date_witness :
  PATCH_task ISO.Date_parse Examples.mar_2026 Examples.mar_2026
    Examples.mar_2026 Examples.mar_2026 (js "t1") Examples.body_null
    Examples.store12
  = (respond 200
       (TaskData (Some (json Examples.t1))
          (Some (js "Task updated successfully"))),
     Examples.store12) /\
  ITask.dueDate (json Examples.t1) = Some (js "2026-06-01T00:00:00.000Z").
Proof.
  assert (Hok : Table_ok [Examples.row1; Examples.row2]).
  { split.
    - apply NoDup_cons. split; [|apply NoDup_singleton].
      intros H. apply list_elem_of_singleton in H. by vm_compute in H.
    - repeat (constructor; [by left|]). constructor. }
  assert (Hr : readable Examples.mar_2026 Examples.row1).
  { split; [done|]. split; [done|]. intros c [= <-]. by vm_compute. }
  exact (PATCH_null_keeps_the_due_date ISO.Date_parse Examples.mar_2026
           Examples.mar_2026 Examples.mar_2026 Examples.mar_2026 (js "t1")
           Examples.store12 [Examples.row1; Examples.row2] Examples.row1
           (ISO.stamp Examples.jun_2026) eq_refl Hok eq_refl eq_refl
           Hr Hr Hr Hr).
Defined.

Lemma rowToTask_passed (now : Date) (r : Row.t) (c : ISO.cell) :
  Row_valid r -> Row.dueDate r = Some c -> (ISO.parse c < now)%Z ->
  rowToTask now r = Err PastDueDate.
Proof.
  intros [Ht Hi] Hc Hlt. unfold rowToTask, Task.new. rewrite Ht, Hi, Hc. simpl.
  by rewrite (proj2 (Z.ltb_lt _ _) Hlt).
Qed.



(** *** DELETE /tasks/:id *)

(** X17.  DELETE /tasks/:id on an open store, for an id that is not
    blank.  An id no row carries is answered 404 "Task not found" and
    nothing changes (the method [deleteTask] of the store is resolved
    in that case).  A task that can be read is answered 200 and its row
    is removed: GET /tasks/:id then answers 404. *)
Theorem DELETE_removes_or_answers_404 (now : Date) (i : jsstring) (this : t)
    (table : Table) :
  db this = Some table -> blank i = false ->
  (i ∉ map Row.id table ->
   DELETE_task now i this = (respond 404 (Failure (js "Task not found")), this) /\
   deleteTask i this = (Ok (), this)) /\
  (forall r,
     select_by_id i table = Some r -> readable now r ->
     let this' := mk (Some (delete i table)) in
     DELETE_task now i this
       = (respond 200 (Success (js "Task deleted successfully")), this') /\
     forall now',
       GET_task now' i this'
         = (respond 404 (Failure (js "Task not found")), this')).
Proof.
  intros Hdb Hb. split.
  - intros Hi. unfold DELETE_task. rewrite missing_blank, Hb.
    rewrite (getTaskById_absent _ _ _ _ Hdb Hi). split; [done|].
    unfold deleteTask. rewrite Hdb, (delete_absent _ _ Hi).
    by rewrite <- (this_eta _ _ Hdb).
  - intros r Er Hr. simpl. split.
    + unfold DELETE_task. rewrite missing_blank, Hb.
      rewrite (getTaskById_readable _ _ _ _ _ Hdb Er Hr).
      unfold deleteTask. by rewrite Hdb.
    + intros now'. unfold GET_task, getTaskById. rewrite missing_blank, Hb. simpl.
      by rewrite select_by_id_delete, bool_decide_eq_true_2.
Qed.

Lemma DELETE_removes_or_answers_404_witness :
  DELETE_task Examples.mar_2026 (js "t1") Examples.store12
    = (respond 200 (Success (js "Task deleted successfully")),
       mk (Some [Examples.row2])) /\
  DELETE_task Examples.mar_2026 (js "t1") (mk (Some [Examples.row2]))
    = (respond 404 (Failure (js "Task not found")), mk (Some [Examples.row2])).
Proof.
  assert (Hr : readable Examples.mar_2026 Examples.row1).
  { split; [done|]. split; [done|]. intros c [= <-]. by vm_compute. }
  assert (Hi : js "t1" ∉ map Row.id [Examples.row2]).
  { intros H. apply list_elem_of_singleton in H. by vm_compute in H. }
  split.
  - exact (proj1 (proj2 (DELETE_removes_or_answers_404 Examples.mar_2026
                           (js "t1") Examples.store12
                           [Examples.row1; Examples.row2] eq_refl eq_refl)
                    Examples.row1 eq_refl Hr)).
  - exact (proj1 (proj1 (DELETE_removes_or_answers_404 Examples.mar_2026
                           (js "t1") (mk (Some [Examples.row2]))
                           [Examples.row2] eq_refl eq_refl) Hi)).
Defined.

(** X18.  The four routes with an id, on an id that is blank or
    absent.  A blank id (empty or white space only) is answered 400
    "Task ID is required" before the store is looked at, open or
    closed.  An id that is not blank and that no row of an open store
    carries is answered 404 "Task not found" by GET, PATCH,
    PATCH .../complete and DELETE alike, whatever the body, and the
    store is unchanged. *)
Theorem blank_or_absent_id_is_refused (Date_of : jsstring -> option Date)
    (now1 now2 now3 now4 : Date) (i : jsstring) (body : RequestBody) (this : t) :
  let answers response :=
    GET_task now1 i this = (response, this) /\
    PATCH_task Date_of now1 now2 now3 now4 i body this = (response, this) /\
    PATCH_task_complete now1 now2 now3 now4 i this = (response, this) /\
    DELETE_task now1 i this = (response, this) in
  (blank i = true -> answers (respond 400 (Failure (js "Task ID is required")))) /\
  (forall table,
     blank i = false -> db this = Some table -> i ∉ map Row.id table ->
     answers (respond 404 (Failure (js "Task not found")))).
Proof.
  simpl. unfold GET_task, PATCH_task, PATCH_task_complete, DELETE_task.
  rewrite missing_blank. split.
  - by intros ->.
  - intros table -> Hdb Hi. by rewrite (getTaskById_absent _ _ _ _ Hdb Hi).
Qed.

Lemma blank_or_absent_id_is_refused_witness :
  PATCH_task ISO.Date_parse Examples.mar_2026 Examples.mar_2026
    Examples.mar_2026 Examples.mar_2026 (js "   ") Examples.body_New
    Examples.store12
  = (respond 400 (Failure (js "Task ID is required")), Examples.store12) /\
  PATCH_task_complete Examples.mar_2026 Examples.mar_2026 Examples.mar_2026
    Examples.mar_2026 (js "t3") Examples.store12
  = (respond 404 (Failure (js "Task not found")), Examples.store12).
Proof.
  assert (Hi : js "t3" ∉ map Row.id [Examples.row1; Examples.row2]).
  { intros H. apply elem_of_cons in H as [H|H]; [by vm_compute in H|].
    apply list_elem_of_singleton in H. by vm_compute in H. }
  split.
  - exact (proj1 (proj2 (proj1 (blank_or_absent_id_is_refused ISO.Date_parse
                    Examples.mar_2026 Examples.mar_2026 Examples.mar_2026
                    Examples.mar_2026 (js "   ") Examples.body_New
                    Examples.store12) eq_refl))).
  - exact (proj1 (proj2 (proj2 (proj2 (blank_or_absent_id_is_refused
                    ISO.Date_parse Examples.mar_2026 Examples.mar_2026
                    Examples.mar_2026 Examples.mar_2026 (js "t3")
                    Examples.body_New Examples.store12)
                    [Examples.row1; Examples.row2] eq_refl eq_refl Hi)))).
Defined.

(** *** A due date that has passed, seen from the routes *)

Lemma map_rowToTask_passed (clock : nat -> Date) (rows : list Row.t)
    (r : Row.t) :
  Forall Row_valid rows -> r ∈ rows ->
  (forall j, rowToTask (clock j) r = Err PastDueDate) ->
  forall i, map_rowToTask clock i rows = Err PastDueDate.
Proof.
  intros Hv Hin Hfail. induction Hv as [|x rows Hx Hv IH]; intros i.
  - by apply elem_of_nil in Hin.
  - simpl. destruct (rowToTask (clock i) x) as [task|e] eqn:E; simpl.
    + apply elem_of_cons in Hin as [->|Hin]; [by rewrite Hfail in E|].
      by rewrite (IH Hin (S i)).
    + by rewrite (rowToTask_valid_row _ _ _ Hx E).
Qed.

(** X19.  Nothing can be done through the routes with a stored task
    whose due date has passed, not even deleting it.  On a table
    whose titles and ids are valid, for a row with a due date earlier
    than the clock: GET, PATCH (whatever the body), PATCH .../complete
    and DELETE on its id, and GET /tasks, all answer 500 with a
    "Failed to parse" message, and the store is unchanged. *)
Theorem passed_due_date_blocks_the_routes (Date_of : jsstring -> option Date)
    (now1 now2 now3 now4 : Date) (clock : nat -> Date) (i : jsstring)
    (body : RequestBody) (this : t) (table : Table) (r : Row.t) (c : ISO.cell) :
  db this = Some table -> Forall Row_valid table ->
  select_by_id i table = Some r -> Row.dueDate r = Some c ->
  (ISO.parse c < now1)%Z -> (forall j, (ISO.parse c < clock j)%Z) ->
  let failure :=
    respond 500
      (Failure (js "Failed to parse task: Error: Due date cannot be in the past")) in
  GET_task now1 i this = (failure, this) /\
  PATCH_task Date_of now1 now2 now3 now4 i body this = (failure, this) /\
  PATCH_task_complete now1 now2 now3 now4 i this = (failure, this) /\
  DELETE_task now1 i this = (failure, this) /\
  GET_tasks clock this
    = (respond 500
         (Failure (js "Failed to parse tasks: Error: Due date cannot be in the past")),
       this).
Proof.
  intros Hdb Hv Er Hc Hlt Hclock.
  destruct (select_by_id_Some _ _ _ Er) as [Hin Hid].
  assert (Hr : Row_valid r) by (by apply (proj1 (Forall_forall _ _) Hv)).
  assert (Hm : missing i = false).
  { apply validateId_inv. rewrite <- Hid. apply Hr. }
  assert (G : getTaskById now1 i this = Err (FailedToParseTask PastDueDate)).
  { rewrite (getTaskById_row _ _ _ _ _ Hdb Er).
    by rewrite (rowToTask_passed _ _ _ Hr Hc Hlt). }
  simpl. unfold GET_task, PATCH_task, PATCH_task_complete, DELETE_task.
  rewrite Hm, G. repeat split.
  unfold GET_tasks, getTasks. rewrite Hdb.
  rewrite (map_rowToTask_passed clock (order_by_createdAt table) r); [done| | |].
  - apply Forall_forall. intros x Hx.
    rewrite order_by_createdAt_perm in Hx.
    by apply (proj1 (Forall_forall _ _) Hv).
  - by rewrite order_by_createdAt_perm.
  - intros j. by apply (rowToTask_passed _ _ c).
Qed.

Lemma passed_due_date_blocks_the_routes_witness :
  DELETE_task Examples.dec_2026 (js "t1") Examples.store12
    = (respond 500
         (Failure (js "Failed to parse task: Error: Due date cannot be in the past")),
       Examples.store12) /\
  GET_tasks (fun _ => Examples.dec_2026) Examples.store12
    = (respond 500
         (Failure (js "Failed to parse tasks: Error: Due date cannot be in the past")),
       Examples.store12).
Proof.
  assert (Hv : Forall Row_valid [Examples.row1; Examples.row2]).
  { repeat (constructor; [by vm_compute|]). constructor. }
  assert (Hlt : (ISO.parse (ISO.stamp Examples.jun_2026) < Examples.dec_2026)%Z)
    by (by vm_compute).
  pose proof (passed_due_date_blocks_the_routes ISO.Date_parse
                Examples.dec_2026 Examples.dec_2026 Examples.dec_2026
                Examples.dec_2026 (fun _ => Examples.dec_2026) (js "t1")
                Examples.body_null Examples.store12
                [Examples.row1; Examples.row2] Examples.row1
                (ISO.stamp Examples.jun_2026) eq_refl Hv eq_refl eq_refl Hlt
                (fun _ => Hlt)) as P.
  split; [exact (proj1 (proj2 (proj2 (proj2 P))))
         |exact (proj2 (proj2 (proj2 (proj2 P))))].
Defined.

(** *** GET /tasks *)

Lemma map_rowToTask_inv (clock : nat -> Date) (rows : list Row.t) :
  forall i tasks,
    map_rowToTask clock i rows = Ok tasks -> tasks = map task_of_row rows.
Proof.
  induction rows as [|r rows IH]; simpl; intros i tasks.
  - by intros [= <-].
  - destruct (rowToTask (clock i) r) as [task|] eqn:E; simpl; [|done].
    destruct (map_rowToTask clock (S i) rows) as [rest|] eqn:E'; simpl; [|done].
    intros [= <-]. apply rowToTask_inv in E as [-> _]. f_equal. by eapply IH.
Qed.

(** X20.  GET /tasks never changes the store and answers either 200
    or 500.  With 200 the list has exactly one entry for every row of
    the table, the JSON of the task the row reads as, and [count] is
    the number of rows; with 500 the message is the one of
    [getTasks]. *)
Theorem GET_tasks_lists_every_row (clock : nat -> Date) (this : t)
    (table : Table) :
  db this = Some table ->
  (GET_tasks clock this).2 = this /\
  match payload (GET_tasks clock this).1 with
  | TaskList data count =>
      status (GET_tasks clock this).1 = 200 /\
      count = length table /\
      data ≡ₚ map (fun r => json (task_of_row r)) table
  | Failure error =>
      status (GET_tasks clock this).1 = 500 /\
      exists e, error = message (FailedToParseTasks e)
  | _ => False
  end.
Proof.
  intros Hdb. unfold GET_tasks, getTasks. rewrite Hdb.
  destruct (map_rowToTask clock 0 (order_by_createdAt table)) as [tasks|e] eqn:E;
    simpl; [|by eauto].
  apply map_rowToTask_inv in E as ->.
  assert (P : map json (rev (map task_of_row (order_by_createdAt table)))
              ≡ₚ map (fun r => json (task_of_row r)) table).
  { rewrite <- Permutation_rev, order_by_createdAt_perm.
    by rewrite <- list_fmap_compose. }
  split; [done|]. split; [done|]. split; [|done].
  by rewrite (Permutation_length P), length_map.
Qed.

Lemma GET_tasks_lists_every_row_witness :
  GET_tasks (fun _ => Examples.mar_2026) Examples.store12
    = (respond 200 (TaskList [json Examples.t2; json Examples.t1] 2),
       Examples.store12) /\
  [json Examples.t2; json Examples.t1]
    ≡ₚ map (fun r => json (task_of_row r)) [Examples.row1; Examples.row2].
Proof.
  pose proof (GET_tasks_lists_every_row (fun _ => Examples.mar_2026)
                Examples.store12 [Examples.row1; Examples.row2] eq_refl) as P.
  split; [reflexivity|]. exact (proj2 (proj2 (proj2 P))).
Defined.

(** *** PATCH /tasks/:id/complete *)




End Api.

(** ** The retry helper of the client *)

Section Client.
Import TaskClient.

Lemma retryRequest_from {E T} (fn : nat -> E + T) (retries : nat) :
  forall call,
    let outcome := (retryRequest fn call retries).1 in
    let events := (retryRequest fn call retries).2 in
    1 <= calls events <= S retries /\
    events =
      Called call ::
      flat_map (fun k => [Waited retryDelay; Called k])
        (seq (S call) (calls events - 1)) /\
    outcome = fn (call + (calls events - 1)) /\
    (forall k, call <= k < call + (calls events - 1) ->
               exists error, fn k = inl error) /\
    ((exists error, outcome = inl error) -> calls events = S retries) /\
    waited events = (retryDelay * Z.of_nat (calls events - 1))%Z.
Proof.
  induction retries as [|retries IH]; intros call; simpl.
  - destruct (fn call) as [error|value] eqn:Efn; simpl;
      rewrite Nat.add_0_r; repeat split; try lia; try done;
      intros k; lia.
  - destruct (fn call) as [error|value] eqn:Efn; simpl.
    + specialize (IH (S call)). simpl in IH.
      destruct (retryRequest fn (S call) retries) as [outcome events] eqn:R.
      simpl in *. destruct IH as (H1 & H2 & H3 & H4 & H5 & H6).
      rewrite Nat.sub_0_r.
      assert (Hn : calls events = S (calls events - 1)) by lia.
      split; [lia|]. split; [|split; [|split; [|split]]].
      * rewrite Hn at 1. simpl. by rewrite <- H2.
      * rewrite H3. f_equal. lia.
      * intros k Hk. destruct (decide (k = call)) as [->|Hne]; [by eauto|].
        apply H4. lia.
      * intros He. by rewrite (H5 He).
      * rewrite H6. unfold retryDelay. lia.
    + rewrite Nat.add_0_r. repeat split; try lia; try done.
      by intros [error [=]].
Qed.

(** X22.  [retryRequest] calls [fn] until it resolves, at most
    [retries + 1] times, four with the default of three retries, and
    waits [retryDelay] in [setTimeout] before every call but the
    first: a run is call 0, then a wait and a call for every retry.
    Its outcome is the outcome of the last call it made: the value of
    the first call that resolved, every call before it having been
    rejected, or the error of call number [retries + 1] when all were
    rejected.  The time it waits is one second for every call but the
    first, at most three seconds with the default; the kind of error
    makes no difference to it. *)
Theorem retryRequest_gives_the_first_success {E T} (fn : nat -> E + T)
    (retries : nat) :
  let outcome := (retryRequest fn 0 retries).1 in
  let events := (retryRequest fn 0 retries).2 in
  1 <= calls events <= S retries /\
  events =
    Called 0 ::
    flat_map (fun k => [Waited retryDelay; Called k]) (seq 1 (calls events - 1)) /\
  outcome = fn (calls events - 1) /\
  (forall k, k < calls events - 1 -> exists error, fn k = inl error) /\
  ((exists error, outcome = inl error) -> calls events = S retries) /\
  waited events = (retryDelay * Z.of_nat (calls events - 1))%Z /\
  (retries = maxRetries ->
   calls events <= 4 /\ (0 <= waited events <= 3000)%Z).
Proof.
  simpl. destruct (retryRequest_from fn retries 0) as (H1 & H2 & H3 & H4 & H5 & H6).
  simpl in *.
  split; [done|]. split; [done|]. split; [done|].
  split; [intros k Hk; apply H4; lia|]. split; [done|]. split; [done|].
  intros ->. rewrite H6. unfold retryDelay, maxRetries in *. lia.
Qed.

(** Two rejections, then a value: three calls and two waits. *)
Example retryRequest_third_call :
  retryRequest (fun k => if k <? 2 then inl k else inr 7) 0 maxRetries
  = (inr 7, [Called 0; Waited 1000; Called 1; Waited 1000; Called 2]).
Proof. reflexivity. Qed.

(** X23.  What the client sends is what the server works with.  When
    [new Date] reads the text of [toISOString] back as the instant it
    was written from (as [Date.parse] does), the due date POST /tasks
    constructs from the body of [createTask] is the due date the
    client gave, and the [updates] object PATCH /tasks/:id builds from
    the body of [updateTask] and passes to the store has the four
    fields the client gave, a null due date included, unless the
    handler refuses a blank title. *)
Theorem client_requests_reach_the_store (Date_of : jsstring -> option Date)
    (title description : option jsstring) (dueDate : option (option Date))
    (completed : option bool) (text details : jsstring) (due : option Date) :
  (forall d, dueDate = Some (Some d) \/ due = Some d ->
             Date_of (ISO.toISOString d) = Some d) ->
  Routes.dueDateObj Date_of
    (Routes.dueDate (createTask_body text details due)) = Some due /\
  Routes.updates_of Date_of (updateTask_body title description dueDate completed)
  = if match title with
       | Some t => blank t
       | None => false
       end
    then inl (Routes.respond 400 (Routes.Failure (js "Task title cannot be empty")))
    else inr (Partial.mk None title description completed None dueDate).
Proof.
  intros H. split.
  - destruct due as [d|]; simpl; [|done].
    rewrite toISOString_truthy. by rewrite H by auto.
  - unfold Routes.updates_of. simpl.
    assert (E : match title with
                | Some t => length (trim t) =? 0
                | None => false
                end
                = match title with Some t => blank t | None => false end).
    { destruct title as [t|]; [|done]. destruct (blank t) eqn:Eb.
      - apply Nat.eqb_eq. by apply trim_nil.
      - apply Nat.eqb_neq. intros El. apply trim_nil in El. congruence. }
    rewrite E. destruct (match title with Some t => blank t | None => false end);
      [done|].
    destruct dueDate as [[d|]|]; simpl; [|done..].
    by rewrite H by auto.
Qed.

Lemma client_requests_reach_the_store_witness :
  Routes.updates_of ISO.Date_parse
    (updateTask_body (Some (js "New")) None (Some (Some Examples.jun_2026)) None)
  = inr (Partial.mk None (Some (js "New")) None None None
           (Some (Some Examples.jun_2026))) /\
  createTask_body (js "Buy milk") [] (Some Examples.jun_2026)
  = Routes.mkBody (Some (js "Buy milk")) (Some [])
      (Some (Some (js "2026-06-01T00:00:00.000Z"))) None.
Proof.
  assert (H : forall d,
            Some (Some Examples.jun_2026) = Some (Some d) \/
            Some Examples.jun_2026 = Some d ->
            ISO.Date_parse (ISO.toISOString d) = Some d).
  { intros d [[= <-]|[= <-]]; reflexivity. }
  split; [|reflexivity].
  exact (proj2 (client_requests_reach_the_store ISO.Date_parse
                  (Some (js "New")) None (Some (Some Examples.jun_2026)) None
                  (js "Buy milk") [] (Some Examples.jun_2026) H)).
Defined.

(** X24.  The user interface and the entity agree on what is
    overdue: the mark [createTaskElement] computes from the JSON of a
    task, at a reading [now] of the clock, is the value of
    [task.isOverdue()] at that reading (a due date strictly earlier
    than the clock, on a task that is not completed), when
    [new Date] reads the text of the due date back as its instant. *)
Theorem overdue_mark_agrees_with_isOverdue (Date_of : jsstring -> option Date)
    (now : Date) (task : Task.t) :
  (forall d, Task.dueDate task = Some d ->
             Date_of (ISO.toISOString d) = Some d) ->
  UIController.isOverdue Date_of now (Routes.json task)
    = Task.isOverdue now task.
Proof.
  intros H. unfold UIController.isOverdue, Task.isOverdue. simpl.
  destruct (Task.dueDate task) as [d|]; simpl; [|done].
  rewrite toISOString_truthy, (H d eq_refl).
  destruct (Task.completed task); simpl; [apply andb_false_r|apply andb_true_r].
Qed.

Lemma overdue_mark_agrees_with_isOverdue_witness :
  UIController.isOverdue ISO.Date_parse Examples.dec_2026
    (Routes.json Examples.t1) = true /\
  Task.isOverdue Examples.dec_2026 Examples.t1 = true.
Proof.
  assert (H : forall d, Task.dueDate Examples.t1 = Some d ->
                        ISO.Date_parse (ISO.toISOString d) = Some d).
  { intros d [= <-]. reflexivity. }
  pose proof (overdue_mark_agrees_with_isOverdue ISO.Date_parse
                Examples.dec_2026 Examples.t1 H) as P.
  split; [|reflexivity]. rewrite P. reflexivity.
Defined.

End Client.
